(** * Scaled dot-product attention: the Metal dispatch layer

  A shallow embedding of [mlx/backend/metal/scaled_dot_product_attention.cpp]:
  the three launch routines [sdpa_full_self_attention_metal], [sdpa_vector]
  and [sdpa_vector_2pass], and the entry point
  [ScaledDotProductAttention::eval_gpu] with its local lambdas.

  The kernels themselves, the allocator, the copy primitive and the tensor
  type are external collaborators.  Every call the source makes to one of
  them is recorded, in program order, in a log of events; the properties
  proved below are properties of that log and of the output tensor's
  metadata.

  - [Cxx]: results and faults, [int] and [int64_t] arithmetic, vector
    accessors.
  - [Mlx]: tensor handles.
  - [Metal]: the event log, the state an evaluation threads through, the
    vector [copies] with the references into it.
  - [Fast]: the source, function by function.
  - [Trace], [Spec], [Examples]: observers on the log, the vocabulary of
    the specification, concrete calls.
  - [Encoder], [Relational], [Scenarios]: the log launch by launch and
    event by event, two evaluations side by side, more concrete calls.
  - [Names]: kernel names as the strings handed to the device.
  - Then the lemmas that invert a successful evaluation, the claims, and
    further properties of the dispatch layer. *)

From Stdlib Require Import ZArith List String Ascii Bool Lia.
From Stdlib Require DecimalString.
Import ListNotations.
Local Open Scope Z_scope.

(* ================================================================= *)
(** ** The fragment of C++ the source relies on *)

Module Cxx.

(** A computation either yields a value, throws [std::out_of_range] (the
    checked accessor [std::vector::at]), or has no defined behaviour
    (signed overflow, division by zero, unchecked indexing out of bounds,
    [back()] of an empty container, use of an invalidated reference). *)
Inductive fault : Type :=
| OutOfRange
| Undefined.

Inductive result (A : Type) : Type :=
| Ok (a : A)
| Fault (f : fault).
Arguments Ok {A} a.
Arguments Fault {A} f.

Definition rbind {A B} (r : result A) (k : A -> result B) : result B :=
  match r with
  | Ok a => k a
  | Fault f => Fault f
  end.

Declare Scope result_scope.
Delimit Scope result_scope with result.
Notation "'let?' x ':=' r 'in' k" :=
  (rbind r (fun x => k))
    (at level 10, x name, r at level 100, k at level 200) : result_scope.

(** *** [int] (32 bits, signed) and [int64_t] *)

Definition INT_MIN : Z := -2147483648.
Definition INT_MAX : Z := 2147483647.
Definition INT64_MIN : Z := -9223372036854775808.
Definition INT64_MAX : Z := 9223372036854775807.

Definition fits_int (z : Z) : bool := (INT_MIN <=? z) && (z <=? INT_MAX).
Definition fits_int64 (z : Z) : bool := (INT64_MIN <=? z) && (z <=? INT64_MAX).

(** The mathematical result of a signed operation is the C++ result when it
    is representable; otherwise the operation is undefined. *)
Definition int_of (z : Z) : result Z :=
  if fits_int z then Ok z else Fault Undefined.
Definition int64_of (z : Z) : result Z :=
  if fits_int64 z then Ok z else Fault Undefined.

Definition int_add (a b : Z) : result Z := int_of (a + b).
Definition int_sub (a b : Z) : result Z := int_of (a - b).
Definition int_mul (a b : Z) : result Z := int_of (a * b).
(** [/] and [%] truncate towards zero. *)
Definition int_div (a b : Z) : result Z :=
  if b =? 0 then Fault Undefined else int_of (Z.quot a b).
Definition int_rem (a b : Z) : result Z :=
  if b =? 0 then Fault Undefined
  else if fits_int (Z.quot a b) then Ok (Z.rem a b) else Fault Undefined.
Definition int64_mul (a b : Z) : result Z := int64_of (a * b).

(** Conversions to an unsigned or a narrower type are modular. *)
Definition to_size_t (z : Z) : Z := z mod 18446744073709551616.
Definition to_int32 (z : Z) : Z := (z + 2147483648) mod 4294967296 - 2147483648.

(** *** [std::vector] and [std::string] accessors *)

Definition zlength {A} (l : list A) : Z := Z.of_nat (List.length l).

Definition lookup {A} (l : list A) (i : Z) : option A :=
  if (0 <=? i) && (i <? zlength l) then nth_error l (Z.to_nat i) else None.

(** [v.at(i)] *)
Definition vec_at {A} (l : list A) (i : Z) : result A :=
  match lookup l i with
  | Some a => Ok a
  | None => Fault OutOfRange
  end.

(** [v[i]] *)
Definition vec_index {A} (l : list A) (i : Z) : result A :=
  match lookup l i with
  | Some a => Ok a
  | None => Fault Undefined
  end.

(** [v[i] = x] *)
Fixpoint update {A} (l : list A) (n : nat) (x : A) : option (list A) :=
  match l, n with
  | [], _ => None
  | _ :: t, O => Some (x :: t)
  | h :: t, S n' =>
      match update t n' x with
      | Some t' => Some (h :: t')
      | None => None
      end
  end.

Definition vec_assign {A} (l : list A) (i : Z) (x : A) : result (list A) :=
  if 0 <=? i then
    match update l (Z.to_nat i) x with
    | Some l' => Ok l'
    | None => Fault Undefined
    end
  else Fault Undefined.

(** [v.back()] *)
Definition vec_back {A} (l : list A) : result A :=
  match rev l with
  | a :: _ => Ok a
  | [] => Fault Undefined
  end.

(** The range [v.begin(), v.end() - 1)]. *)
Definition vec_init {A} (l : list A) : result (list A) :=
  match l with
  | [] => Fault Undefined
  | _ => Ok (removelast l)
  end.

Fixpoint string_back (s : string) : option ascii :=
  match s with
  | EmptyString => None
  | String c EmptyString => Some c
  | String _ rest => string_back rest
  end.

End Cxx.
Import Cxx.
Local Open Scope result_scope.

(* ================================================================= *)
(** ** Tensors *)

Module Mlx.

(** Modelled from the spec: the dtype of a tensor handle (section 3).  The
    element types and their sizes are those of [mlx/dtype.h], which is not
    among the sources; the dispatch layer names only [float32], and nothing
    below depends on a size. *)
Inductive Dtype : Type :=
| bool_ | uint8 | uint16 | uint32 | uint64
| int8 | int16 | int32 | int64
| float16 | float32 | bfloat16 | complex64.

Definition size_of (t : Dtype) : Z :=
  match t with
  | bool_ | uint8 | int8 => 1
  | uint16 | int16 | float16 | bfloat16 => 2
  | uint32 | int32 | float32 => 4
  | uint64 | int64 | complex64 => 8
  end.

Record Flags : Type := mkFlags {
  contiguous : bool;
  row_contiguous : bool;
  col_contiguous : bool
}.

(** Modelled from the spec: the backing memory of section 3.  Storage is
    either what the caller's tensors arrived with, or the [n]-th buffer
    handed out by the allocator during this evaluation. *)
Inductive Buffer : Type :=
| external (n : nat)
| allocated (n : nat).

(** Modelled from the spec: the tensor handle of section 3, with what the
    dispatch layer reads from it: shape, strides, dtype, contiguity flags,
    storage, and the donatable flag ([mlx/array.h] is not among the
    sources). *)
Record array : Type := mkArray {
  shape : list Z;          (* int32 extents *)
  strides : list Z;        (* int64 strides, in elements *)
  dtype : Dtype;
  flags : Flags;
  data : option Buffer;
  data_size : Z;
  is_donatable : bool      (* sole owner of its storage *)
}.

(** Modelled from the spec: rank, element count and byte count of a
    handle. *)
Definition ndim (a : array) : Z := zlength (shape a).
Definition size (a : array) : Z := fold_right Z.mul 1 (shape a).
Definition nbytes (a : array) : Z := size a * size_of (dtype a).

(** Modelled from the spec: the extent of one axis.  [a.shape(dim)] counts
    a negative [dim] from the end, as the source's [shape(-1)] for the head
    dimension shows, and is a checked access:
    [shape().at(dim < 0 ? dim + ndim() : dim)].  The index is computed in
    [size_t]; a negative sum wraps to an index beyond the end of any
    vector, so [at] throws exactly when the index computed in the integers
    is out of range. *)
Definition shape_at (a : array) (dim : Z) : result Z :=
  vec_at (shape a) (if dim <? 0 then dim + ndim a else dim).

(** Modelled from the spec: the stride of one axis, [a.strides(dim)],
    likewise. *)
Definition strides_at (a : array) (dim : Z) : result Z :=
  vec_at (strides a) (if dim <? 0 then dim + ndim a else dim).

(** Row-major strides of a shape. *)
Fixpoint row_major (sh : list Z) : list Z :=
  match sh with
  | [] => []
  | _ :: rest => fold_right Z.mul 1 rest :: row_major rest
  end.

(** Modelled from the spec: the tensor abstraction of section 6.  A handle
    built from a shape and an element type has row-major strides and no
    storage yet ([mlx/array.cpp] is not among the sources); held by nothing
    but the variable it was built in, it is donatable. *)
Definition new_array (sh : list Z) (t : Dtype) : array :=
  {| shape := sh; strides := row_major sh; dtype := t;
     flags := mkFlags false false false;
     data := None; data_size := 0; is_donatable := true |}.

(** Modelled from the spec: [set_data(allocation)] of section 6 attaches
    storage to a handle and leaves it densely packed in row-major order. *)
Definition set_data (a : array) (b : Buffer) : array :=
  {| shape := shape a; strides := strides a; dtype := dtype a;
     flags := mkFlags true true
                ((size a <=? 1) || (size a =? fold_right Z.max 0 (shape a)));
     data := Some b; data_size := size a; is_donatable := is_donatable a |}.

(** Modelled from the spec: [set_data(allocation, size, strides, flags)]. *)
Definition set_data_strided (a : array) (b : Buffer) (dsize : Z)
           (st : list Z) (fl : Flags) : array :=
  {| shape := shape a; strides := st; dtype := dtype a; flags := fl;
     data := Some b; data_size := dsize; is_donatable := is_donatable a |}.

(** Modelled from the spec: donation (section 4.6) makes the output handle
    share the other handle's storage together with its layout. *)
Definition copy_shared_buffer (a other : array) : array :=
  {| shape := shape a; strides := strides other; dtype := dtype a;
     flags := flags other; data := data other;
     data_size := data_size other; is_donatable := is_donatable a |}.

End Mlx.
Import Mlx.

(* ================================================================= *)
(** ** The device, the command encoder and the event log *)

Module Metal.

(** [float]: the scale is only ever forwarded to the kernel, so a [float] is
    its 32-bit pattern. *)
Definition float : Type := Z.

(** Kernel names are built by concatenation.  The pieces are kept apart;
    [type_to_name] and [get_type_string] (declared in
    [mlx/backend/metal/utils.h] and [mlx/backend/common/compiled.h]) stay
    symbolic. *)
Inductive name_part : Type :=
| lit (s : string)
| chr (c : ascii)
| to_string (n : Z)
| type_to_name (t : Dtype)
| get_type_string (t : Dtype).

Inductive MTLDataType : Type :=
| DataTypeBool.

(** One entry of an [MTLFCList]: value, type, slot. *)
Record FunctionConstant : Type := mkFC {
  fc_value : bool;
  fc_type : MTLDataType;
  fc_index : Z
}.

Inductive Kernel : Type :=
| get_kernel (base_name : list name_part) (lib_name : string)
             (hash_name : list name_part) (func_consts : list FunctionConstant)
| get_kernel_by_name (name : list name_part).

(** [mlx::steel::AttnParams], field by field as lines 85-109 initialise it
    ([kernels/steel/attn/params.h] is not among the sources; the field
    names and types are those of the initialiser's comments). *)
Record AttnParams : Type := mkAttnParams {
  B : Z;
  H : Z;
  D : Z;
  qL : Z;
  kL : Z;
  gqa_factor : Z;
  scale : float;
  NQ : Z;
  NK : Z;
  NQ_aligned : Z;
  NK_aligned : Z;
  qL_rem : Z;
  kL_rem : Z;
  qL_off : Z;
  Q_strides : Z * Z * Z;
  K_strides : Z * Z * Z;
  V_strides : Z * Z * Z;
  O_strides : Z * Z * Z
}.

(** [mlx::steel::AttnMaskParams], as line 120 initialises it. *)
Record AttnMaskParams : Type := mkAttnMaskParams {
  M_strides : Z * Z * Z
}.

(** The argument of [set_bytes], by its C++ type. *)
Inductive bytes : Type :=
| of_int (v : Z)
| of_int32_t (v : Z)
| of_size_t (v : Z)
| of_float (v : float)
| of_AttnParams (p : AttnParams)
| of_AttnMaskParams (p : AttnMaskParams).

(** [MTL::Size]; its components are unsigned. *)
Inductive MTLSize : Type :=
| MTL_Size (width height depth : Z).

Definition mtl_size (w h d : Z) : MTLSize :=
  MTL_Size (to_size_t w) (to_size_t h) (to_size_t d).

Inductive CopyType : Type :=
| General.

(** A call to an external collaborator (section 6 of the specification):
    the allocator, the copy primitive, the mutators of a tensor handle, the
    command encoder and the device. *)
Inductive event : Type :=
| Malloc (n : Z) (b : Buffer)
| CopyGpu (src dst : array) (ctype : CopyType)
| SetData (a : array) (b : Buffer)
| SetDataStrided (a : array) (b : Buffer) (dsize : Z) (st : list Z) (fl : Flags)
| CopySharedBuffer (a other : array)
| SetComputePipelineState (k : Kernel)
| SetInputArray (a : array) (idx : Z)
| SetOutputArray (a : array) (idx : Z)
| SetBytes (v : bytes) (idx : Z)
| DispatchThreadgroups (grid_dims group_dims : MTLSize)
| AddTemporary (a : array)
| AddTemporaries (l : list array).

Record Device : Type := mkDevice {
  get_architecture : string
}.

(** The mutable state one evaluation threads through: the local vector
    [copies] (contents, capacity, and the number of times its storage has
    been reallocated), the allocator, and the log. *)
Record state : Type := mkState {
  copies : list array;
  copies_capacity : nat;
  copies_epoch : nat;
  next_buffer : nat;
  log : list event
}.

Definition initial : state := mkState [] 0 0 0 [].

Definition M (A : Type) : Type := state -> result (A * state).

Definition ret {A} (a : A) : M A := fun s => Ok (a, s).

Definition bind {A B} (m : M A) (k : A -> M B) : M B :=
  fun s =>
    match m s with
    | Ok (a, s') => k a s'
    | Fault f => Fault f
    end.

Definition lift {A} (r : result A) : M A :=
  fun s =>
    match r with
    | Ok a => Ok (a, s)
    | Fault f => Fault f
    end.

Definition emit (e : event) : M unit :=
  fun s =>
    Ok (tt, mkState (copies s) (copies_capacity s) (copies_epoch s)
                    (next_buffer s) (log s ++ [e])).

Declare Scope monad_scope.
Delimit Scope monad_scope with monad.
Notation "x <- m ;; k" := (bind m (fun x => k))
  (at level 61, m at next level, right associativity) : monad_scope.
Notation "x <~ r ;; k" := (bind (lift r) (fun x => k))
  (at level 61, r at next level, right associativity) : monad_scope.
Notation "m ;; k" := (bind m (fun _ => k))
  (at level 61, right associativity) : monad_scope.
Local Open Scope monad_scope.

(** [allocator::malloc(n)] *)
Definition allocator_malloc (n : Z) : M Buffer :=
  fun s =>
    let b := allocated (next_buffer s) in
    Ok (b, mkState (copies s) (copies_capacity s) (copies_epoch s)
                   (S (next_buffer s)) (log s ++ [Malloc n b])).

(** [a.set_data(allocator::malloc(a.nbytes()))] *)
Definition malloc_data (a : array) : M array :=
  b <- allocator_malloc (nbytes a) ;;
  emit (SetData a b) ;;
  ret (set_data a b).

(** Modelled from the spec: the copy primitive of section 6, a full
    materialising copy of a tensor into a freshly allocated, row-major
    buffer ([mlx/backend/metal/copy.cpp] is not among the sources).  The
    destination handle is returned with its storage attached. *)
Definition copy_gpu (src dst : array) (ctype : CopyType) : M array :=
  b <- allocator_malloc (nbytes dst) ;;
  let dst' := set_data dst b in
  emit (CopyGpu src dst' ctype) ;;
  ret dst'.

(** *** The vector [copies] and references into it *)

(** A [const array&] either denotes a handle the caller owns, or the [i]-th
    element of [copies] as stored in its [e]-th allocation. *)
Inductive ref : Type :=
| ref_array (a : array)
| ref_copies (e : nat) (i : nat).

(** [copies.reserve(n)]: a vector with less room is given room for exactly
    [n] elements. *)
Definition reserve (n : nat) : M unit :=
  fun s =>
    if (n <=? copies_capacity s)%nat then Ok (tt, s)
    else Ok (tt, mkState (copies s) n (S (copies_epoch s))
                         (next_buffer s) (log s)).

(** [copies.push_back(std::move(a))]: when the vector is full its storage is
    reallocated (to twice the room), which invalidates every reference
    handed out before. *)
Definition push_back (a : array) : M unit :=
  fun s =>
    let n := List.length (copies s) in
    if (n <? copies_capacity s)%nat then
      Ok (tt, mkState (copies s ++ [a]) (copies_capacity s) (copies_epoch s)
                      (next_buffer s) (log s))
    else
      Ok (tt, mkState (copies s ++ [a])
                      (Nat.max (2 * copies_capacity s) (S n))
                      (S (copies_epoch s)) (next_buffer s) (log s)).

(** [copies.back()] *)
Definition back : M ref :=
  fun s =>
    match List.length (copies s) with
    | O => Fault Undefined
    | S i => Ok (ref_copies (copies_epoch s) i, s)
    end.

(** Reading through a reference. *)
Definition deref (r : ref) : M array :=
  fun s =>
    match r with
    | ref_array a => Ok (a, s)
    | ref_copies e i =>
        if (e =? copies_epoch s)%nat then
          match nth_error (copies s) i with
          | Some a => Ok (a, s)
          | None => Fault Undefined
          end
        else Fault Undefined
    end.

(** [std::move(copies)] *)
Definition take_copies : M (list array) :=
  fun s => Ok (copies s, mkState [] 0 (S (copies_epoch s))
                                 (next_buffer s) (log s)).

(** *** Encoder and device calls *)

Definition set_compute_pipeline_state (k : Kernel) : M unit :=
  emit (SetComputePipelineState k).
Definition set_input_array (a : array) (idx : Z) : M unit :=
  emit (SetInputArray a idx).
Definition set_output_array (a : array) (idx : Z) : M unit :=
  emit (SetOutputArray a idx).
Definition set_bytes (v : bytes) (idx : Z) : M unit :=
  emit (SetBytes v idx).
Definition dispatch_threadgroups (grid_dims group_dims : MTLSize) : M unit :=
  emit (DispatchThreadgroups grid_dims group_dims).
Definition add_temporary (a : array) : M unit :=
  emit (AddTemporary a).
Definition add_temporaries (l : list array) : M unit :=
  emit (AddTemporaries l).

End Metal.
Import Metal.
Local Open Scope monad_scope.

(* ================================================================= *)
(** ** [namespace mlx::core::fast] *)

Module Fast.

(** [a && b] and [a || b] on fallible operands: the right operand is
    evaluated only when the left one does not decide. *)
Definition rand (a b : result bool) : result bool :=
  let? x := a in if x then b else Ok false.
Definition ror (a b : result bool) : result bool :=
  let? x := a in if x then Ok true else b.
Infix "&&?" := rand (at level 40, left associativity) : result_scope.
Infix "||?" := ror (at level 50, left associativity) : result_scope.

Definition tn (b : bool) : ascii := if b then "t"%char else "n"%char.

(** Lines 16-131. *)
Definition sdpa_full_self_attention_metal
           (d : Device) (q k v : array) (scale : float) (o : array)
           (do_causal_ : bool) (mask : option array) : M unit :=
  let wm := 4 in
  let wn := 1 in
  bd <~ shape_at q (-1) ;;
  let bq := 32 in
  let bk := if bd <? 128 then 32 else 16 in
  B <~ shape_at q 0 ;;
  H <~ shape_at q 1 ;;
  D <~ shape_at q 3 ;;
  gqa_factor <~ (let? a := shape_at q 1 in
                 let? b := shape_at k 1 in int_div a b) ;;
  qL <~ shape_at q 2 ;;
  kL <~ shape_at k 2 ;;
  align_Q <~ (let? r := int_rem qL bq in Ok (r =? 0)) ;;
  align_K <~ (let? r := int_rem kL bk in Ok (r =? 0)) ;;
  let has_mask := match mask with Some _ => true | None => false end in
  let do_causal := do_causal_ in
  let func_consts :=
    [ mkFC align_Q DataTypeBool 200;
      mkFC align_K DataTypeBool 201;
      mkFC has_mask DataTypeBool 300;
      mkFC do_causal DataTypeBool 301 ] in
  let base_name :=
    [ lit "steel_attention_"; type_to_name (dtype q);
      lit "_bq"; to_string bq;
      lit "_bk"; to_string bk;
      lit "_bd"; to_string bd;
      lit "_wm"; to_string wm;
      lit "_wn"; to_string wn;
      lit "_mask";
      type_to_name (dtype (match mask with Some m => m | None => q end)) ] in
  let hash_name :=
    base_name ++
    [ lit "_align_Q_"; chr (tn align_Q);
      lit "_align_K_"; chr (tn align_K);
      lit "_has_mask_"; chr (tn has_mask);
      lit "_do_causal_"; chr (tn do_causal) ] in
  let kernel := get_kernel base_name "mlx" hash_name func_consts in
  set_compute_pipeline_state kernel ;;
  NQ <~ (let? a := int_add qL bq in
         let? b := int_sub a 1 in int_div b bq) ;;
  NK <~ (let? a := int_add kL bk in
         let? b := int_sub a 1 in int_div b bk) ;;
  NQ_aligned <~ int_div qL bq ;;
  NK_aligned <~ int_div kL bk ;;
  qL_rem <~ (let? a := int_mul NQ_aligned bq in int_sub qL a) ;;
  kL_rem <~ (let? a := int_mul NK_aligned bk in int_sub kL a) ;;
  qL_off <~ int_sub kL qL ;;
  q0 <~ strides_at q 0 ;; q1 <~ strides_at q 1 ;; q2 <~ strides_at q 2 ;;
  k0 <~ strides_at k 0 ;; k1 <~ strides_at k 1 ;; k2 <~ strides_at k 2 ;;
  v0 <~ strides_at v 0 ;; v1 <~ strides_at v 1 ;; v2 <~ strides_at v 2 ;;
  o0 <~ strides_at o 0 ;; o1 <~ strides_at o 1 ;; o2 <~ strides_at o 2 ;;
  let params :=
    mkAttnParams B H D qL kL gqa_factor scale
                 NQ NK NQ_aligned NK_aligned qL_rem kL_rem qL_off
                 (q0, q1, q2) (k0, k1, k2) (v0, v1, v2) (o0, o1, o2) in
  set_input_array q 0 ;;
  set_input_array k 1 ;;
  set_input_array v 2 ;;
  set_output_array o 3 ;;
  set_bytes (of_AttnParams params) 4 ;;
  match mask with
  | Some m =>
      m0 <~ strides_at m 0 ;; m1 <~ strides_at m 1 ;; m2 <~ strides_at m 2 ;;
      let mask_params := mkAttnMaskParams (m0, m1, m2) in
      set_bytes (of_AttnMaskParams mask_params) 5 ;;
      set_input_array m 6
  | None => ret tt
  end ;;
  let grid_dims := mtl_size NQ H B in
  let group_dims := mtl_size 32 wm wn in
  dispatch_threadgroups grid_dims group_dims.

(** The stride the vector kernels receive for the mask axis [k] places from
    the end (lines 196-199 and 292-295):
    [nd >= k && m.shape(-k) > 1 ? m.strides()[nd - k] : 0], stored in an
    [int32_t]. *)
Definition mask_stride (m : array) (k : Z) : result Z :=
  let nd := ndim m in
  let? c := (Ok (nd >=? k) &&? (let? e := shape_at m (- k) in Ok (e >? 1))) in
  let? s := (if c then vec_index (strides m) (nd - k) else Ok 0) in
  Ok (to_int32 s).

(** Lines 133-207. *)
Definition sdpa_vector
           (d : Device) (q k v out : array) (scale : float)
           (mask : option array) : M unit :=
  kname <~ (let? dq := shape_at q (-1) in
            let? dv := shape_at v (-1) in
            Ok [ lit "sdpa_vector_"; get_type_string (dtype q);
                 lit "_"; to_string dq; lit "_"; to_string dv ]) ;;
  gqa_factor <~ (let? a := shape_at q 1 in
                 let? b := shape_at k 1 in int_div a b) ;;
  N <~ shape_at k 2 ;;
  B <~ (let? a := shape_at q 0 in
        let? b := shape_at q 1 in int_mul a b) ;;
  k_head_stride <~ vec_index (strides k) 1 ;;
  k_seq_stride <~ vec_index (strides k) 2 ;;
  v_head_stride <~ vec_index (strides v) 1 ;;
  v_seq_stride <~ vec_index (strides v) 2 ;;
  let group_dims := mtl_size 1024 1 1 in
  grid_dims <~ (let? l := shape_at q 2 in Ok (mtl_size B l 1)) ;;
  let has_mask := match mask with Some _ => true | None => false end in
  let query_transposed := negb (row_contiguous (flags q)) in
  let func_consts :=
    [ mkFC has_mask DataTypeBool 20;
      mkFC query_transposed DataTypeBool 21 ] in
  let hash_name :=
    kname ++ [ lit (if has_mask then "_mask" else "_nomask");
               lit (if query_transposed then "_qt" else "_qnt") ] in
  let kernel := get_kernel kname "mlx" hash_name func_consts in
  set_compute_pipeline_state kernel ;;
  set_input_array q 0 ;;
  set_input_array k 1 ;;
  set_input_array v 2 ;;
  set_output_array out 3 ;;
  set_bytes (of_int gqa_factor) 4 ;;
  set_bytes (of_int N) 5 ;;
  set_bytes (of_size_t (to_size_t k_head_stride)) 6 ;;
  set_bytes (of_size_t (to_size_t k_seq_stride)) 7 ;;
  set_bytes (of_size_t (to_size_t v_head_stride)) 8 ;;
  set_bytes (of_size_t (to_size_t v_seq_stride)) 9 ;;
  set_bytes (of_float scale) 10 ;;
  match mask with
  | Some m =>
      set_input_array m 11 ;;
      kv_seq_stride <~ mask_stride m 1 ;;
      q_seq_stride <~ mask_stride m 2 ;;
      head_stride <~ mask_stride m 3 ;;
      set_bytes (of_int32_t kv_seq_stride) 12 ;;
      set_bytes (of_int32_t q_seq_stride) 13 ;;
      set_bytes (of_int32_t head_stride) 14
  | None => ret tt
  end ;;
  dispatch_threadgroups grid_dims group_dims.

(** Lines 209-325. *)
Definition sdpa_vector_2pass
           (d : Device) (q k v out : array) (scale : float)
           (mask : option array) : M unit :=
  kname <~ (let? dq := shape_at q (-1) in
            let? dv := shape_at v (-1) in
            Ok [ lit "sdpa_vector_2pass_1_"; get_type_string (dtype q);
                 lit "_"; to_string dq; lit "_"; to_string dv ]) ;;
  gqa_factor <~ (let? a := shape_at q 1 in
                 let? b := shape_at k 1 in int_div a b) ;;
  N <~ shape_at k 2 ;;
  let blocks := 32 in
  B <~ (let? a := shape_at q 0 in
        let? b := shape_at q 1 in int_mul a b) ;;
  k_head_stride <~ vec_index (strides k) 1 ;;
  k_seq_stride <~ vec_index (strides k) 2 ;;
  v_head_stride <~ vec_index (strides v) 1 ;;
  v_seq_stride <~ vec_index (strides v) 2 ;;
  let group_dims := mtl_size (8 * 32) 1 1 in
  grid_dims <~ (let? l := shape_at q 2 in Ok (mtl_size B l blocks)) ;;
  lead <~ vec_init (shape out) ;;
  last <~ vec_back (shape out) ;;
  let intermediate_shape := lead ++ [blocks; last] in
  let intermediate := new_array intermediate_shape float32 in
  let intermediate_shape := lead ++ [blocks] in
  let sums := new_array intermediate_shape float32 in
  let maxs := new_array intermediate_shape float32 in
  intermediate <- malloc_data intermediate ;;
  sums <- malloc_data sums ;;
  maxs <- malloc_data maxs ;;
  add_temporary intermediate ;;
  add_temporary sums ;;
  add_temporary maxs ;;
  let has_mask := match mask with Some _ => true | None => false end in
  let query_transposed := negb (row_contiguous (flags q)) in
  let func_consts :=
    [ mkFC has_mask DataTypeBool 20;
      mkFC query_transposed DataTypeBool 21 ] in
  let hash_name :=
    kname ++ [ lit (if has_mask then "_mask" else "_nomask");
               lit (if query_transposed then "_qt" else "_qnt") ] in
  let kernel := get_kernel kname "mlx" hash_name func_consts in
  set_compute_pipeline_state kernel ;;
  set_input_array q 0 ;;
  set_input_array k 1 ;;
  set_input_array v 2 ;;
  set_output_array intermediate 3 ;;
  set_output_array sums 4 ;;
  set_output_array maxs 5 ;;
  set_bytes (of_int gqa_factor) 6 ;;
  set_bytes (of_int N) 7 ;;
  set_bytes (of_size_t (to_size_t k_head_stride)) 8 ;;
  set_bytes (of_size_t (to_size_t k_seq_stride)) 9 ;;
  set_bytes (of_size_t (to_size_t v_head_stride)) 10 ;;
  set_bytes (of_size_t (to_size_t v_seq_stride)) 11 ;;
  set_bytes (of_float scale) 12 ;;
  match mask with
  | Some m =>
      set_input_array m 13 ;;
      kv_seq_stride <~ mask_stride m 1 ;;
      q_seq_stride <~ mask_stride m 2 ;;
      head_stride <~ mask_stride m 3 ;;
      set_bytes (of_int32_t kv_seq_stride) 14 ;;
      set_bytes (of_int32_t q_seq_stride) 15 ;;
      set_bytes (of_int32_t head_stride) 16
  | None => ret tt
  end ;;
  dispatch_threadgroups grid_dims group_dims ;;
  kname <~ (let? dv := shape_at v (-1) in
            Ok [ lit "sdpa_vector_2pass_2_"; get_type_string (dtype q);
                 lit "_"; to_string dv ]) ;;
  let kernel := get_kernel_by_name kname in
  set_compute_pipeline_state kernel ;;
  set_input_array intermediate 0 ;;
  set_input_array sums 1 ;;
  set_input_array maxs 2 ;;
  set_output_array out 3 ;;
  let group_dims := mtl_size 1024 1 1 in
  grid_dims <~ (let? l := shape_at q 2 in Ok (mtl_size B l 1)) ;;
  dispatch_threadgroups grid_dims group_dims.

(** The lambda [copy_unless] of lines 345-355. *)
Definition copy_unless (predicate : array -> result bool) (arr : array)
  : M ref :=
  p <~ predicate arr ;;
  if negb p then
    let arr_copy := new_array (shape arr) (dtype arr) in
    arr_copy <- copy_gpu arr arr_copy General ;;
    push_back arr_copy ;;
    back
  else ret (ref_array arr).

(** The lambda of lines 359-367; [strides] and [shape] are indexed
    unchecked, and [shape[3] * shape[1]] is an [int] product. *)
Definition is_contiguous_or_head_seq_transposed (arr : array) : result bool :=
  if row_contiguous (flags arr) then Ok true
  else
    let strides := strides arr in
    let shape := shape arr in
    (let? s3 := vec_index strides 3 in Ok (s3 =? 1))
    &&? (let? s2 := vec_index strides 2 in
         let? a := vec_index shape 3 in
         let? b := vec_index shape 1 in
         let? p := int_mul a b in Ok (s2 =? p))
    &&? (let? s1 := vec_index strides 1 in
         let? a := vec_index shape 3 in Ok (s1 =? a))
    &&? (let? s0 := vec_index strides 0 in
         let? s2 := vec_index strides 2 in
         let? a := vec_index shape 2 in
         let? p := int64_mul s2 a in Ok (s0 =? p)).

(** The lambda of lines 370-372. *)
Definition is_matrix_contiguous (arr : array) : result bool :=
  let? s := strides_at arr (-1) in Ok (s =? 1).

(** The test of lines 405-406. *)
Definition route_2pass (devc : ascii) (q k : array) : result bool :=
  (Ok (Ascii.eqb devc "d") &&? (let? n := shape_at k 2 in Ok (n >=? 1024)))
  ||? ((let? a := shape_at k 1 in
        let? b := shape_at q 1 in Ok (a <? b))
       &&? (let? n := shape_at k 2 in Ok (n >=? 4096))).

(** Lines 380-396 of [eval_gpu]: the output of vector mode either takes
    over the query's storage or receives storage of its own. *)
Definition donate_or_allocate (q o : array) : M array :=
  donate <~ (Ok (is_donatable q)
             &&? ((let? l := shape_at q 2 in Ok (l =? 1))
                  ||? Ok (negb (row_contiguous (flags q))))
             &&? Ok (size q =? size o)) ;;
  if donate then
    emit (CopySharedBuffer o q) ;;
    ret (copy_shared_buffer o q)
  else
    l <~ shape_at o 2 ;;
    if l =? 1 then malloc_data o
    else
      let strides := strides o in
      s2 <~ (let? a := shape_at o 1 in
             let? b := shape_at o 3 in int_mul a b) ;;
      strides <~ vec_assign strides 2 s2 ;;
      s1 <~ shape_at o 3 ;;
      strides <~ vec_assign strides 1 s1 ;;
      let flags := flags q in
      h <~ shape_at q 1 ;;
      let flags := mkFlags (contiguous flags) (h =? 1) (col_contiguous flags) in
      b <- allocator_malloc (nbytes o) ;;
      emit (SetDataStrided o b (size o) strides flags) ;;
      ret (set_data_strided o b (size o) strides flags).

(** Lines 375-411 of [eval_gpu]: "We are in vector mode ie single query". *)
Definition vector_mode (d : Device) (scale_ : float)
           (inputs : list array) (q_pre k_pre v_pre o : array) : M array :=
  q <- copy_unless is_contiguous_or_head_seq_transposed q_pre ;;
  k <- copy_unless is_matrix_contiguous k_pre ;;
  v <- copy_unless is_matrix_contiguous v_pre ;;
  q <- deref q ;;
  k <- deref k ;;
  v <- deref v ;;
  o <- donate_or_allocate q o ;;
  mask <~ (if zlength inputs >? 3
           then let? m := vec_index inputs 3 in Ok (Some m)
           else Ok None) ;;
  devc <~ match string_back (get_architecture d) with
          | Some c => Ok c
          | None => Fault Undefined
          end ;;
  two_pass <~ route_2pass devc q k ;;
  (if two_pass then sdpa_vector_2pass d q k v o scale_ mask
   else sdpa_vector d q k v o scale_ mask) ;;
  ret o.

(** Lines 414-442 of [eval_gpu]: "Full attention mode".  The references
    [q], [k], [v] are read when the launch routine is entered, after the
    mask has been normalised. *)
Definition full_mode (d : Device) (scale_ : float) (do_causal_ : bool)
           (inputs : list array) (q_pre k_pre v_pre o : array) : M array :=
  q <- copy_unless is_matrix_contiguous q_pre ;;
  k <- copy_unless is_matrix_contiguous k_pre ;;
  v <- copy_unless is_matrix_contiguous v_pre ;;
  let str_oD := 1 in
  str_oH <~ shape_at o 3 ;;
  str_oL <~ (let? a := shape_at o 1 in int64_mul a str_oH) ;;
  str_oB <~ (let? a := shape_at o 2 in int64_mul a str_oL) ;;
  data_size <~ (let? a := shape_at o 0 in
                let? p := int64_mul a str_oB in Ok (to_size_t p)) ;;
  let flags := mkFlags true false false in
  let st := [str_oB; str_oH; str_oL; str_oD] in
  b <- allocator_malloc (nbytes o) ;;
  emit (SetDataStrided o b data_size st flags) ;;
  let o := set_data_strided o b data_size st flags in
  mask <- (if zlength inputs >? 3
           then
             m <~ vec_index inputs 3 ;;
             r <- copy_unless is_matrix_contiguous m ;;
             m <- deref r ;;
             ret (Some m)
           else ret None) ;;
  q <- deref q ;;
  k <- deref k ;;
  v <- deref v ;;
  sdpa_full_self_attention_metal d q k v scale_ o do_causal_ mask ;;
  ret o.

(** Lines 329-445.  The stream is the one of the calling context
    throughout and is left implicit. *)
Definition eval_gpu (d : Device) (scale_ : float) (do_causal_ : bool)
           (inputs : list array) (out : array) : M array :=
  q_pre <~ vec_index inputs 0 ;;
  k_pre <~ vec_index inputs 1 ;;
  v_pre <~ vec_index inputs 2 ;;
  let o := out in
  reserve 3 ;;
  qlen <~ shape_at q_pre 2 ;;
  o <- (if qlen <=? 8
        then vector_mode d scale_ inputs q_pre k_pre v_pre o
        else full_mode d scale_ do_causal_ inputs q_pre k_pre v_pre o) ;;
  temporaries <- take_copies ;;
  add_temporaries temporaries ;;
  ret o.

(** One evaluation, from an empty encoder log: the populated output handle
    and the calls made. *)
Definition run (d : Device) (scale_ : float) (do_causal_ : bool)
           (inputs : list array) (out : array) : result (array * list event) :=
  match eval_gpu d scale_ do_causal_ inputs out initial with
  | Ok (o, s) => Ok (o, log s)
  | Fault f => Fault f
  end.

End Fast.
Import Fast.

(* ================================================================= *)
(** ** Reading the event log *)

Module Trace.

(** The state [s] with [l] appended to its log. *)
Definition log_app (s : state) (l : list event) : state :=
  mkState (copies s) (copies_capacity s) (copies_epoch s) (next_buffer s)
          (log s ++ l).

(** The state in which [eval_gpu] enters a mode: [copies] empty, room for
    three elements, nothing logged. *)
Definition reserved : state := mkState [] 3 1 0 [].

(** The first kernel an evaluation makes current. *)
Fixpoint first_kernel (l : list event) : option Kernel :=
  match l with
  | [] => None
  | SetComputePipelineState k :: _ => Some k
  | _ :: t => first_kernel t
  end.

(** The three execution strategies, told apart by the family of the first
    kernel launched. *)
Inductive strategy : Type :=
| full_attention
| vector_single_pass
| vector_two_pass.

Definition strategy_of_family (s : string) : option strategy :=
  if String.eqb s "steel_attention_" then Some full_attention
  else if String.eqb s "sdpa_vector_" then Some vector_single_pass
  else if String.eqb s "sdpa_vector_2pass_1_" then Some vector_two_pass
  else None.

Definition selected (l : list event) : option strategy :=
  match first_kernel l with
  | Some (get_kernel (lit s :: _) _ _ _) => strategy_of_family s
  | _ => None
  end.

Definition vector_mode_selected (l : list event) : Prop :=
  selected l = Some vector_single_pass \/ selected l = Some vector_two_pass.

Definition full_mode_selected (l : list event) : Prop :=
  selected l = Some full_attention.

(** The events up to the first launch. *)
Fixpoint before_dispatch (l : list event) : list event :=
  match l with
  | [] => []
  | DispatchThreadgroups _ _ :: _ => []
  | e :: t => e :: before_dispatch t
  end.

(** What the first launch finds bound at input slot [idx], and the bytes it
    finds at slot [idx]. *)
Fixpoint input_array (idx : Z) (l : list event) : option array :=
  match l with
  | [] => None
  | DispatchThreadgroups _ _ :: _ => None
  | SetInputArray a i :: t => if i =? idx then Some a else input_array idx t
  | _ :: t => input_array idx t
  end.

Fixpoint bytes_at (idx : Z) (l : list event) : option bytes :=
  match l with
  | [] => None
  | DispatchThreadgroups _ _ :: _ => None
  | SetBytes v i :: t => if i =? idx then Some v else bytes_at idx t
  | _ :: t => bytes_at idx t
  end.

(** The mask slot and the first of the three mask-stride slots, per
    strategy (lines 123-124, 194-202, 290-298). *)
Definition mask_slot (st : strategy) : Z :=
  match st with
  | full_attention => 6
  | vector_single_pass => 11
  | vector_two_pass => 13
  end.

(** What [copy_gpu] leaves in [copies] for the source [a] when the
    allocator hands out its [n]-th buffer, and the events of that copy. *)
Definition general_copy (a : array) (n : nat) : array :=
  set_data (new_array (shape a) (dtype a)) (allocated n).

Definition copy_events (a : array) (n : nat) : list event :=
  [ Malloc (nbytes (new_array (shape a) (dtype a))) (allocated n);
    CopyGpu a (general_copy a n) General ].

(** [c] is a freshly materialised row-major copy of [src]. *)
Definition row_major_copy_of (src c : array) : Prop :=
  shape c = shape src /\ dtype c = dtype src /\
  strides c = row_major (shape src) /\
  row_contiguous (flags c) = true /\
  exists n, data c = Some (allocated n).

(** The outcome of [copy_unless predicate a]: the handle the returned
    reference denotes, the events, and what was appended to [copies]. *)
Inductive normalized (predicate : array -> result bool) (a : array)
  : array -> list event -> list array -> Prop :=
| passed_through :
    predicate a = Ok true ->
    normalized predicate a a [] []
| copied (n : nat) :
    predicate a = Ok false ->
    normalized predicate a (general_copy a n) (copy_events a n)
               [general_copy a n].

(** The condition of line 381-382, on a query whose extents can be read. *)
Definition donation_allowed (q o : array) : Prop :=
  is_donatable q = true /\
  (shape_at q 2 = Ok 1 \/ row_contiguous (flags q) = false) /\
  size q = size o.

(** The three outcomes of lines 380-396. *)
Inductive vector_output (q o : array) : array -> list event -> Prop :=
| donated :
    donation_allowed q o ->
    vector_output q o (copy_shared_buffer o q) [CopySharedBuffer o q]
| plain (n : nat) :
    ~ donation_allowed q o ->
    shape_at o 2 = Ok 1 ->
    vector_output q o (set_data o (allocated n))
                  [Malloc (nbytes o) (allocated n); SetData o (allocated n)]
| interleaved (n : nat) (l h_o dv h_q : Z) (st1 st2 : list Z) :
    ~ donation_allowed q o ->
    shape_at o 2 = Ok l -> l <> 1 ->
    shape_at o 1 = Ok h_o -> shape_at o 3 = Ok dv ->
    fits_int (h_o * dv) = true ->
    vec_assign (strides o) 2 (h_o * dv) = Ok st1 ->
    vec_assign st1 1 dv = Ok st2 ->
    shape_at q 1 = Ok h_q ->
    vector_output q o
      (set_data_strided o (allocated n) (size o) st2
         (mkFlags (contiguous (flags q)) (h_q =? 1) (col_contiguous (flags q))))
      [Malloc (nbytes o) (allocated n);
       SetDataStrided o (allocated n) (size o) st2
         (mkFlags (contiguous (flags q)) (h_q =? 1)
                  (col_contiguous (flags q)))].

(** The mask arguments of the vector kernels, bound from slot [slot] on. *)
Inductive vector_mask_events (slot : Z) : option array -> list event -> Prop :=
| vector_no_mask : vector_mask_events slot None []
| vector_with_mask (m : array) (s1 s2 s3 : Z) :
    mask_stride m 1 = Ok s1 ->
    mask_stride m 2 = Ok s2 ->
    mask_stride m 3 = Ok s3 ->
    vector_mask_events slot (Some m)
      [SetInputArray m slot;
       SetBytes (of_int32_t s1) (slot + 1);
       SetBytes (of_int32_t s2) (slot + 2);
       SetBytes (of_int32_t s3) (slot + 3)].

(** The mask arguments of the tiled kernel. *)
Inductive full_mask_events : option array -> list event -> Prop :=
| full_no_mask : full_mask_events None []
| full_with_mask (m : array) (m0 m1 m2 : Z) :
    strides_at m 0 = Ok m0 ->
    strides_at m 1 = Ok m1 ->
    strides_at m 2 = Ok m2 ->
    full_mask_events (Some m)
      [SetBytes (of_AttnMaskParams (mkAttnMaskParams (m0, m1, m2))) 5;
       SetInputArray m 6].

(** The tile sizes of lines 31-33. *)
Definition tile_bq : Z := 32.
Definition tile_bk (bd : Z) : Z := if bd <? 128 then 32 else 16.

(** The events of [sdpa_vector] (lines 175-206). *)
Inductive vector_launch (q k v out : array) (sc : float) (mask : option array)
  : list event -> Prop :=
| vector_launch_intro (kname hash : list name_part)
                      (consts : list FunctionConstant)
                      (gqa n ks1 ks2 vs1 vs2 : Z) (grid : MTLSize)
                      (mask_evs : list event) :
    vector_mask_events 11 mask mask_evs ->
    vector_launch q k v out sc mask
      (SetComputePipelineState
         (get_kernel (lit "sdpa_vector_" :: kname) "mlx" hash consts)
       :: SetInputArray q 0 :: SetInputArray k 1 :: SetInputArray v 2
       :: SetOutputArray out 3
       :: SetBytes (of_int gqa) 4 :: SetBytes (of_int n) 5
       :: SetBytes (of_size_t ks1) 6 :: SetBytes (of_size_t ks2) 7
       :: SetBytes (of_size_t vs1) 8 :: SetBytes (of_size_t vs2) 9
       :: SetBytes (of_float sc) 10
       :: mask_evs ++ [DispatchThreadgroups grid (mtl_size 1024 1 1)]).

(** The events of [sdpa_vector_2pass] (lines 251-324). *)
Inductive two_pass_launch (q k v out : array) (sc : float)
          (mask : option array) : list event -> Prop :=
| two_pass_launch_intro (kname hash kname2 : list name_part)
                        (consts : list FunctionConstant)
                        (i0 s0 m0 : array) (b1 b2 b3 : Buffer)
                        (gqa n ks1 ks2 vs1 vs2 : Z) (grid grid2 : MTLSize)
                        (mask_evs : list event) :
    vector_mask_events 13 mask mask_evs ->
    two_pass_launch q k v out sc mask
      (Malloc (nbytes i0) b1 :: SetData i0 b1
       :: Malloc (nbytes s0) b2 :: SetData s0 b2
       :: Malloc (nbytes m0) b3 :: SetData m0 b3
       :: AddTemporary (set_data i0 b1)
       :: AddTemporary (set_data s0 b2)
       :: AddTemporary (set_data m0 b3)
       :: SetComputePipelineState
            (get_kernel (lit "sdpa_vector_2pass_1_" :: kname) "mlx" hash consts)
       :: SetInputArray q 0 :: SetInputArray k 1 :: SetInputArray v 2
       :: SetOutputArray (set_data i0 b1) 3
       :: SetOutputArray (set_data s0 b2) 4
       :: SetOutputArray (set_data m0 b3) 5
       :: SetBytes (of_int gqa) 6 :: SetBytes (of_int n) 7
       :: SetBytes (of_size_t ks1) 8 :: SetBytes (of_size_t ks2) 9
       :: SetBytes (of_size_t vs1) 10 :: SetBytes (of_size_t vs2) 11
       :: SetBytes (of_float sc) 12
       :: mask_evs ++
          [DispatchThreadgroups grid (mtl_size (8 * 32) 1 1);
           SetComputePipelineState (get_kernel_by_name kname2);
           SetInputArray (set_data i0 b1) 0;
           SetInputArray (set_data s0 b2) 1;
           SetInputArray (set_data m0 b3) 2;
           SetOutputArray out 3;
           DispatchThreadgroups grid2 (mtl_size 1024 1 1)]).

(** What lines 31-47 and 79-104 compute from the extents [ql] and [kl] and
    the head dimension [bd], on a run without overflow. *)
Record tiling (ql kl bd : Z) (p : AttnParams) : Prop := mkTiling {
  tiling_qL : qL p = ql;
  tiling_kL : kL p = kl;
  tiling_q_range : ql + tile_bq <= INT_MAX;
  tiling_k_range : kl + tile_bk bd <= INT_MAX;
  tiling_NQ : NQ p = Z.quot (ql + tile_bq - 1) tile_bq;
  tiling_NK : NK p = Z.quot (kl + tile_bk bd - 1) (tile_bk bd);
  tiling_NQ_aligned : NQ_aligned p = Z.quot ql tile_bq;
  tiling_NK_aligned : NK_aligned p = Z.quot kl (tile_bk bd);
  tiling_qL_rem : qL_rem p = ql - NQ_aligned p * tile_bq;
  tiling_kL_rem : kL_rem p = kl - NK_aligned p * tile_bk bd;
  tiling_qL_off : qL_off p = kl - ql
}.

(** The events of [sdpa_full_self_attention_metal] (lines 75-130). *)
Inductive full_launch (q k v o : array) (sc : float) (mask : option array)
  : list event -> Prop :=
| full_launch_intro (ql kl bd : Z) (rest hash : list name_part)
                    (consts : list FunctionConstant) (p : AttnParams)
                    (mask_evs : list event) :
    shape_at q 2 = Ok ql ->
    shape_at k 2 = Ok kl ->
    shape_at q (-1) = Ok bd ->
    tiling ql kl bd p ->
    full_mask_events mask mask_evs ->
    full_launch q k v o sc mask
      (SetComputePipelineState
         (get_kernel
            (lit "steel_attention_" :: type_to_name (dtype q)
             :: lit "_bq" :: to_string tile_bq
             :: lit "_bk" :: to_string (tile_bk bd) :: rest)
            "mlx" hash consts)
       :: SetInputArray q 0 :: SetInputArray k 1 :: SetInputArray v 2
       :: SetOutputArray o 3
       :: SetBytes (of_AttnParams p) 4
       :: mask_evs ++
          [DispatchThreadgroups (mtl_size (NQ p) (H p) (B p))
                                (mtl_size 32 4 1)]).

(** A successful pass through [vector_mode], entered in state [reserved]:
    the normalised operands, the output after lines 380-396, the strategy
    chosen at lines 404-410, and the log. *)
Inductive vector_run (d : Device) (sc : float) (inputs : list array)
          (q_pre k_pre v_pre o : array) (o' : array) (s' : state) : Prop :=
| vector_run_intro (q k v : array) (eq ek ev out_evs launch_evs : list event)
                   (cq ck cv : list array) (devc : ascii) (two_pass : bool) :
    normalized is_contiguous_or_head_seq_transposed q_pre q eq cq ->
    normalized is_matrix_contiguous k_pre k ek ck ->
    normalized is_matrix_contiguous v_pre v ev cv ->
    vector_output q o o' out_evs ->
    string_back (get_architecture d) = Some devc ->
    route_2pass devc q k = Ok two_pass ->
    (if two_pass
     then two_pass_launch q k v o' sc (lookup inputs 3) launch_evs
     else vector_launch q k v o' sc (lookup inputs 3) launch_evs) ->
    log s' = eq ++ ek ++ ev ++ out_evs ++ launch_evs ->
    copies s' = cq ++ ck ++ cv ->
    vector_run d sc inputs q_pre k_pre v_pre o o' s'.

(** The output handle of full mode (lines 419-435), for the [n]-th buffer. *)
Definition full_output (o : array) (n : nat) (oh ol ob dsize : Z) : array :=
  set_data_strided o (allocated n) dsize [ob; oh; ol; 1]
                   (mkFlags true false false).

(** A successful pass through [full_mode], entered in state [reserved]. *)
Inductive full_run (d : Device) (sc : float) (inputs : list array)
          (q_pre k_pre v_pre o : array) (o' : array) (s' : state) : Prop :=
| full_run_intro (q k v : array) (eq ek ev em launch_evs : list event)
                 (cq ck cv cm : list array) (mask : option array)
                 (n : nat) (oh ol ob dsize : Z) :
    normalized is_matrix_contiguous q_pre q eq cq ->
    normalized is_matrix_contiguous k_pre k ek ck ->
    normalized is_matrix_contiguous v_pre v ev cv ->
    match lookup inputs 3 with
    | Some m_pre =>
        exists m, mask = Some m /\ normalized is_matrix_contiguous m_pre m em cm
    | None => mask = None /\ em = [] /\ cm = []
    end ->
    (List.length (cq ++ ck ++ cv ++ cm) <= 3)%nat ->
    o' = full_output o n oh ol ob dsize ->
    full_launch q k v o' sc mask launch_evs ->
    log s' = eq ++ ek ++ ev
             ++ [Malloc (nbytes o) (allocated n);
                 SetDataStrided o (allocated n) dsize [ob; oh; ol; 1]
                                (mkFlags true false false)]
             ++ em ++ launch_evs ->
    copies s' = cq ++ ck ++ cv ++ cm ->
    full_run d sc inputs q_pre k_pre v_pre o o' s'.

(** Events that are not commands to the encoder. *)
Definition is_encoder_event (e : event) : bool :=
  match e with
  | SetComputePipelineState _ | SetInputArray _ _ | SetOutputArray _ _
  | SetBytes _ _ | DispatchThreadgroups _ _ => true
  | _ => false
  end.

Definition quiet (l : list event) : Prop :=
  forallb (fun e => negb (is_encoder_event e)) l = true.

(** A successful evaluation: the operands, the query length, and the state
    in which the selected mode finished. *)
Inductive evaluation (d : Device) (sc : float) (inputs : list array)
          (out o : array) (l : list event) : Prop :=
| evaluation_intro (q_pre k_pre v_pre : array) (lq : Z) (s' : state) :
    vec_index inputs 0 = Ok q_pre ->
    vec_index inputs 1 = Ok k_pre ->
    vec_index inputs 2 = Ok v_pre ->
    shape_at q_pre 2 = Ok lq ->
    (if lq <=? 8
     then vector_run d sc inputs q_pre k_pre v_pre out o s'
     else full_run d sc inputs q_pre k_pre v_pre out o s') ->
    l = log s' ++ [AddTemporaries (copies s')] ->
    evaluation d sc inputs out o l.

End Trace.
Import Trace.

(* ================================================================= *)
(** ** The vocabulary of the specification *)

Module Spec.

(** The device class the two-pass heuristic looks for: an architecture
    string ending in ['d'] (line 404). *)
Definition high_capacity (d : Device) : Prop :=
  string_back (get_architecture d) = Some "d"%char.

(** [ceil(a/b)] and [floor(a/b)] over the integers. *)
Definition ceil_div (a b : Z) : Z := - ((- a) / b).
Definition floor_div (a b : Z) : Z := a / b.

(** The stride of the axis [k] places from the end of [m] if that axis
    exists and its extent exceeds 1, and 0 otherwise. *)
Definition broadcast_stride (m : array) (k : Z) : Z :=
  match lookup (shape m) (ndim m - k), lookup (strides m) (ndim m - k) with
  | Some e, Some s => if e >? 1 then s else 0
  | _, _ => 0
  end.

(** The first launch of log [l] reads [a] itself at input slot [slot] when
    [a]'s innermost stride is 1, and otherwise a row-major copy of [a] made
    before that launch. *)
Definition passed_or_copied (a : array) (slot : Z) (l : list event) : Prop :=
  (is_matrix_contiguous a = Ok true -> input_array slot l = Some a) /\
  (is_matrix_contiguous a = Ok false ->
   exists c, row_major_copy_of a c /\
             In (CopyGpu a c General) (before_dispatch l) /\
             input_array slot l = Some c).



(** The two ways vector mode gives the output storage of its own. *)
Definition plain_allocation (out o : array) (l : list event) : Prop :=
  exists n, o = set_data out (allocated n) /\
            In (Malloc (nbytes out) (allocated n)) l /\
            In (SetData out (allocated n)) l.

Definition interleaved_allocation (out o : array) (l : list event)
           (seq_stride head_stride : Z) (row_contig : bool) : Prop :=
  exists n st fl,
    o = set_data_strided out (allocated n) (size out) st fl /\
    In (Malloc (nbytes out) (allocated n)) l /\
    In (SetDataStrided out (allocated n) (size out) st fl) l /\
    lookup st 2 = Some seq_stride /\
    lookup st 1 = Some head_stride /\
    row_contiguous fl = row_contig.

(** The stride the first launch receives for the mask axis [k] places from
    the end ([1] key, [2] query, [3] head).  The vector kernels take the
    three as [int32_t] arguments after the mask; the tiled kernel takes the
    strides of a four-axis mask's head and query axes in [M_strides] and has
    no argument for the key axis. *)
Definition passed_mask_stride (k : Z) (l : list event) : option Z :=
  match selected l with
  | Some full_attention =>
      match bytes_at 5 l with
      | Some (of_AttnMaskParams p) =>
          let '(_, m1, m2) := M_strides p in
          if k =? 3 then Some m1 else if k =? 2 then Some m2 else None
      | _ => None
      end
  | Some st =>
      match bytes_at (mask_slot st + k) l with
      | Some (of_int32_t s) => Some s
      | _ => None
      end
  | None => None
  end.

(** The layout rule in the specification's words, where the output width
    per query row is the value head dimension [dv] and [h] the number of
    heads. *)
Definition layout_by_output_width (out o : array) (l : list event)
           (h dv : Z) : Prop :=
  (dv = 1 -> plain_allocation out o l) /\
  (dv <> 1 -> interleaved_allocation out o l (h * dv) dv (h =? 1)).

End Spec.
Import Spec.

(* ================================================================= *)
(** ** Concrete calls *)

Module Examples.

Definition dense (sh : list Z) (n : nat) : array :=
  mkArray sh (row_major sh) float16 (mkFlags true true false)
          (Some (external n)) (fold_right Z.mul 1 sh) false.

Definition strided (sh st : list Z) (n : nat) : array :=
  mkArray sh st float16 (mkFlags false false false)
          (Some (external n)) (fold_right Z.mul 1 sh) false.

Definition output (sh : list Z) : array := new_array sh float16.

Definition large_device : Device := mkDevice "applegpu_g14d".
Definition small_device : Device := mkDevice "applegpu_g14g".

(** B=1, H=1, Hk=1, Lq=1, Lk=2048, D=Dv=64. *)
Definition decode_inputs : list array :=
  [dense [1; 1; 1; 64] 0; dense [1; 1; 2048; 64] 1; dense [1; 1; 2048; 64] 2].
Definition decode_output : array := output [1; 1; 1; 64].

(** B=2, H=8, Hk=2, Lq=Lk=50, D=Dv=128. *)
Definition prefill_inputs : list array :=
  [dense [2; 8; 50; 128] 0; dense [2; 2; 50; 128] 1; dense [2; 2; 50; 128] 2].
Definition prefill_output : array := output [2; 8; 50; 128].

(** Lq = 8 and Lq = 9. *)
Definition inputs_of_length (lq : Z) : list array :=
  [dense [1; 1; lq; 64] 0; dense [1; 1; 16; 64] 1; dense [1; 1; 16; 64] 2].
Definition output_of_length (lq : Z) : array := output [1; 1; lq; 64].

(** Vector mode, H = 2, Lq = 1, Dv = 64, query not donatable. *)
Definition two_head_inputs : list array :=
  [dense [1; 2; 1; 64] 0; dense [1; 2; 16; 64] 1; dense [1; 2; 16; 64] 2].
Definition two_head_output : array := output [1; 2; 1; 64].

(** Vector mode, Lq = 2, with a donatable query handed over transposed. *)
Definition donatable_query : array :=
  mkArray [1; 2; 2; 64] [256; 64; 128; 1] float16 (mkFlags false false false)
          (Some (external 0)) 256 true.
Definition donation_inputs : list array :=
  [donatable_query; dense [1; 2; 16; 64] 1; dense [1; 2; 16; 64] 2].
Definition donation_output : array := output [1; 2; 2; 64].

(** A mask over [1, 1, Lq, Lk] whose key axis has stride 2. *)
Definition sparse_mask (lq lk : Z) : array :=
  strided [1; 1; lq; lk] [2 * lq * lk; 2 * lq * lk; 2 * lk; 2] 3.

(** A dense mask over [1, 1, Lq, Lk]. *)
Definition shared_mask (lq lk : Z) : array := dense [1; 1; lq; lk] 3.

(** A call with a mask: B = H = Hk = 1, D = Dv = 64. *)
Definition masked_inputs (lq lk : Z) (m : array) : list array :=
  [dense [1; 1; lq; 64] 0; dense [1; 1; lk; 64] 1; dense [1; 1; lk; 64] 2; m].
Definition masked_output (lq : Z) : array := output [1; 1; lq; 64].

(** Full mode, every operand with a non-unit innermost stride. *)
Definition transposed (sh : list Z) (n : nat) : array :=
  match sh with
  | [b; h; l; d] => strided sh [h * l * d; l * d; 1; l] n
  | _ => strided sh [] n
  end.

(** Full mode with Q, K, V and the mask all in need of a copy. *)
Definition four_copies_inputs : list array :=
  [transposed [1; 1; 9; 64] 0; transposed [1; 1; 9; 64] 1;
   transposed [1; 1; 9; 64] 2; sparse_mask 9 9].

(** Full mode with a query of 2^31 - 1 rows. *)
Definition longest_inputs : list array :=
  [dense [1; 1; 2147483647; 64] 0; dense [1; 1; 16; 64] 1;
   dense [1; 1; 16; 64] 2].
Definition longest_output : array := output [1; 1; 2147483647; 64].

End Examples.

(* ================================================================= *)
(** ** The log, launch by launch *)

Module Encoder.

(** What a buffer slot of the encoder holds. *)
Inductive binding : Type :=
| bound_input (a : array)
| bound_output (a : array)
| bound_bytes (v : bytes).

(** One launch: the pipeline state made current and the slots bound since
    the previous launch, in the order of the calls, and the two sizes
    handed to [dispatch_threadgroups]. *)
Record launch : Type := mkLaunch {
  pipeline : option Kernel;
  arguments : list (Z * binding);
  grid : MTLSize;
  threadgroup : MTLSize
}.

Fixpoint collect (k : option Kernel) (args : list (Z * binding))
         (l : list event) : list launch :=
  match l with
  | [] => []
  | SetComputePipelineState k' :: t => collect (Some k') args t
  | SetInputArray a i :: t => collect k (args ++ [(i, bound_input a)]) t
  | SetOutputArray a i :: t => collect k (args ++ [(i, bound_output a)]) t
  | SetBytes v i :: t => collect k (args ++ [(i, bound_bytes v)]) t
  | DispatchThreadgroups g tg :: t => mkLaunch k args g tg :: collect None [] t
  | _ :: t => collect k args t
  end.

Definition launches (l : list event) : list launch := collect None [] l.

Definition dispatches (l : list event) : list (MTLSize * MTLSize) :=
  map (fun L => (grid L, threadgroup L)) (launches l).

Definition slots (L : launch) : list Z := map fst (arguments L).

Definition inputs_of (L : launch) : list (Z * array) :=
  flat_map (fun x => match snd x with
                     | bound_input a => [(fst x, a)]
                     | _ => []
                     end) (arguments L).

Definition outputs_of (L : launch) : list (Z * array) :=
  flat_map (fun x => match snd x with
                     | bound_output a => [(fst x, a)]
                     | _ => []
                     end) (arguments L).

(** The slots [0, 1, ..., n - 1]. *)
Definition first_slots (n : nat) : list Z := map Z.of_nat (seq 0 n).

(** The function constant a kernel was specialised with at [idx]. *)
Definition function_constants (k : Kernel) : list FunctionConstant :=
  match k with
  | get_kernel _ _ _ consts => consts
  | get_kernel_by_name _ => []
  end.

Definition function_constant (idx : Z) (k : Kernel) : option bool :=
  match find (fun c => fc_index c =? idx) (function_constants k) with
  | Some c => Some (fc_value c)
  | None => None
  end.

Definition base_name_of (k : Kernel) : list name_part :=
  match k with
  | get_kernel base _ _ _ => base
  | get_kernel_by_name name => name
  end.

Definition hash_name_of (k : Kernel) : list name_part :=
  match k with
  | get_kernel _ _ hash _ => hash
  | get_kernel_by_name name => name
  end.

(** The slot of the first scalar argument of the vector kernels (lines 184
    and 281); the tiled kernel keeps its parameter block there. *)
Definition first_scalar_slot (st : strategy) : Z :=
  match st with
  | vector_two_pass => 6
  | _ => 4
  end.

(** The buffers the allocator handed out, the handles given to the device
    to keep alive until the command buffer completes, and the destinations
    of the copies made. *)
Fixpoint allocations (l : list event) : list Buffer :=
  match l with
  | [] => []
  | Malloc _ b :: t => b :: allocations t
  | _ :: t => allocations t
  end.

Fixpoint temporaries (l : list event) : list array :=
  match l with
  | [] => []
  | AddTemporary a :: t => a :: temporaries t
  | AddTemporaries cs :: t => cs ++ temporaries t
  | _ :: t => temporaries t
  end.

Fixpoint copy_destinations (l : list event) : list array :=
  match l with
  | [] => []
  | CopyGpu _ dst _ :: t => dst :: copy_destinations t
  | _ :: t => copy_destinations t
  end.

(** *** The events of each launch routine, from what it reads *)

Definition has_value (mask : option array) : bool :=
  match mask with Some _ => true | None => false end.

(** Lines 164-172 and 258-266. *)
Definition vector_constants (q : array) (mask : option array)
  : list FunctionConstant :=
  [ mkFC (has_value mask) DataTypeBool 20;
    mkFC (negb (row_contiguous (flags q))) DataTypeBool 21 ].

Definition vector_suffix (q : array) (mask : option array) : list name_part :=
  [ lit (if has_value mask then "_mask" else "_nomask");
    lit (if negb (row_contiguous (flags q)) then "_qt" else "_qnt") ].

(** A successful pass through [sdpa_vector]. *)
Inductive vector_encoded (q k v out : array) (sc : float)
          (mask : option array) : list event -> Prop :=
| vector_encoded_intro (dq dv b h lq hk n ks1 ks2 vs1 vs2 : Z)
                       (mask_evs : list event) :
    shape_at q (-1) = Ok dq -> shape_at v (-1) = Ok dv ->
    shape_at q 0 = Ok b -> shape_at q 1 = Ok h -> shape_at q 2 = Ok lq ->
    shape_at k 1 = Ok hk -> hk <> 0 -> shape_at k 2 = Ok n ->
    fits_int (b * h) = true ->
    vec_index (strides k) 1 = Ok ks1 -> vec_index (strides k) 2 = Ok ks2 ->
    vec_index (strides v) 1 = Ok vs1 -> vec_index (strides v) 2 = Ok vs2 ->
    vector_mask_events 11 mask mask_evs ->
    vector_encoded q k v out sc mask
      (SetComputePipelineState
         (get_kernel
            [ lit "sdpa_vector_"; get_type_string (dtype q);
              lit "_"; to_string dq; lit "_"; to_string dv ]
            "mlx"
            ([ lit "sdpa_vector_"; get_type_string (dtype q);
               lit "_"; to_string dq; lit "_"; to_string dv ]
             ++ vector_suffix q mask)
            (vector_constants q mask))
       :: SetInputArray q 0 :: SetInputArray k 1 :: SetInputArray v 2
       :: SetOutputArray out 3
       :: SetBytes (of_int (Z.quot h hk)) 4 :: SetBytes (of_int n) 5
       :: SetBytes (of_size_t (to_size_t ks1)) 6
       :: SetBytes (of_size_t (to_size_t ks2)) 7
       :: SetBytes (of_size_t (to_size_t vs1)) 8
       :: SetBytes (of_size_t (to_size_t vs2)) 9
       :: SetBytes (of_float sc) 10
       :: mask_evs
          ++ [DispatchThreadgroups (mtl_size (b * h) lq 1)
                                   (mtl_size 1024 1 1)]).

(** The three intermediates of [sdpa_vector_2pass] (lines 241-253), when
    the allocator's next buffer is the [n]-th. *)
Definition partials (lead : list Z) (last : Z) (n : nat) : array :=
  set_data (new_array (lead ++ [32; last]) float32) (allocated n).
Definition partial_sums (lead : list Z) (n : nat) : array :=
  set_data (new_array (lead ++ [32]) float32) (allocated (S n)).
Definition partial_maxs (lead : list Z) (n : nat) : array :=
  set_data (new_array (lead ++ [32]) float32) (allocated (S (S n))).

(** A successful pass through [sdpa_vector_2pass]. *)
Inductive two_pass_encoded (q k v out : array) (sc : float)
          (mask : option array) : list event -> Prop :=
| two_pass_encoded_intro (dq dv b h lq hk n ks1 ks2 vs1 vs2 last : Z)
                         (lead : list Z) (nb : nat) (mask_evs : list event) :
    shape_at q (-1) = Ok dq -> shape_at v (-1) = Ok dv ->
    shape_at q 0 = Ok b -> shape_at q 1 = Ok h -> shape_at q 2 = Ok lq ->
    shape_at k 1 = Ok hk -> hk <> 0 -> shape_at k 2 = Ok n ->
    fits_int (b * h) = true ->
    vec_index (strides k) 1 = Ok ks1 -> vec_index (strides k) 2 = Ok ks2 ->
    vec_index (strides v) 1 = Ok vs1 -> vec_index (strides v) 2 = Ok vs2 ->
    shape out = lead ++ [last] ->
    vector_mask_events 13 mask mask_evs ->
    two_pass_encoded q k v out sc mask
      (Malloc (nbytes (new_array (lead ++ [32; last]) float32)) (allocated nb)
       :: SetData (new_array (lead ++ [32; last]) float32) (allocated nb)
       :: Malloc (nbytes (new_array (lead ++ [32]) float32)) (allocated (S nb))
       :: SetData (new_array (lead ++ [32]) float32) (allocated (S nb))
       :: Malloc (nbytes (new_array (lead ++ [32]) float32))
                 (allocated (S (S nb)))
       :: SetData (new_array (lead ++ [32]) float32) (allocated (S (S nb)))
       :: AddTemporary (partials lead last nb)
       :: AddTemporary (partial_sums lead nb)
       :: AddTemporary (partial_maxs lead nb)
       :: SetComputePipelineState
            (get_kernel
               [ lit "sdpa_vector_2pass_1_"; get_type_string (dtype q);
                 lit "_"; to_string dq; lit "_"; to_string dv ]
               "mlx"
               ([ lit "sdpa_vector_2pass_1_"; get_type_string (dtype q);
                  lit "_"; to_string dq; lit "_"; to_string dv ]
                ++ vector_suffix q mask)
               (vector_constants q mask))
       :: SetInputArray q 0 :: SetInputArray k 1 :: SetInputArray v 2
       :: SetOutputArray (partials lead last nb) 3
       :: SetOutputArray (partial_sums lead nb) 4
       :: SetOutputArray (partial_maxs lead nb) 5
       :: SetBytes (of_int (Z.quot h hk)) 6 :: SetBytes (of_int n) 7
       :: SetBytes (of_size_t (to_size_t ks1)) 8
       :: SetBytes (of_size_t (to_size_t ks2)) 9
       :: SetBytes (of_size_t (to_size_t vs1)) 10
       :: SetBytes (of_size_t (to_size_t vs2)) 11
       :: SetBytes (of_float sc) 12
       :: mask_evs
          ++ [ DispatchThreadgroups (mtl_size (b * h) lq 32)
                                    (mtl_size (8 * 32) 1 1);
               SetComputePipelineState
                 (get_kernel_by_name
                    [ lit "sdpa_vector_2pass_2_"; get_type_string (dtype q);
                      lit "_"; to_string dv ]);
               SetInputArray (partials lead last nb) 0;
               SetInputArray (partial_sums lead nb) 1;
               SetInputArray (partial_maxs lead nb) 2;
               SetOutputArray out 3;
               DispatchThreadgroups (mtl_size (b * h) lq 1)
                                    (mtl_size 1024 1 1) ]).

(** Lines 43-71: the four specialisation constants of the tiled kernel and
    the letters that spell them in the hash name. *)
Definition full_constants (ql kl bd : Z) (causal : bool)
           (mask : option array) : list FunctionConstant :=
  [ mkFC (Z.rem ql 32 =? 0) DataTypeBool 200;
    mkFC (Z.rem kl (tile_bk bd) =? 0) DataTypeBool 201;
    mkFC (has_value mask) DataTypeBool 300;
    mkFC causal DataTypeBool 301 ].

Definition full_base_name (q : array) (bd : Z) (mask : option array)
  : list name_part :=
  [ lit "steel_attention_"; type_to_name (dtype q);
    lit "_bq"; to_string 32;
    lit "_bk"; to_string (tile_bk bd);
    lit "_bd"; to_string bd;
    lit "_wm"; to_string 4;
    lit "_wn"; to_string 1;
    lit "_mask";
    type_to_name (dtype (match mask with Some m => m | None => q end)) ].

Definition full_suffix (ql kl bd : Z) (causal : bool) (mask : option array)
  : list name_part :=
  [ lit "_align_Q_"; chr (tn (Z.rem ql 32 =? 0));
    lit "_align_K_"; chr (tn (Z.rem kl (tile_bk bd) =? 0));
    lit "_has_mask_"; chr (tn (has_value mask));
    lit "_do_causal_"; chr (tn causal) ].

(** Lines 79-109: the parameter block. *)
Definition full_params (b h d ql kl hk bd : Z) (sc : float)
           (qs ks vs os : Z * Z * Z) : AttnParams :=
  mkAttnParams b h d ql kl (Z.quot h hk) sc
    (Z.quot (ql + 32 - 1) 32)
    (Z.quot (kl + tile_bk bd - 1) (tile_bk bd))
    (Z.quot ql 32)
    (Z.quot kl (tile_bk bd))
    (ql - Z.quot ql 32 * 32)
    (kl - Z.quot kl (tile_bk bd) * tile_bk bd)
    (kl - ql)
    qs ks vs os.

(** The first three strides of a handle, read with the checked accessor. *)
Definition leading_strides (a : array) (s : Z * Z * Z) : Prop :=
  strides_at a 0 = Ok (fst (fst s)) /\
  strides_at a 1 = Ok (snd (fst s)) /\
  strides_at a 2 = Ok (snd s).

(** A successful pass through [sdpa_full_self_attention_metal]. *)
Inductive full_encoded (q k v o : array) (sc : float) (causal : bool)
          (mask : option array) : list event -> Prop :=
| full_encoded_intro (bd b h d ql kl hk : Z) (qs ks vs os : Z * Z * Z)
                     (mask_evs : list event) :
    shape_at q (-1) = Ok bd ->
    shape_at q 0 = Ok b -> shape_at q 1 = Ok h -> shape_at q 3 = Ok d ->
    shape_at q 2 = Ok ql ->
    shape_at k 1 = Ok hk -> hk <> 0 -> shape_at k 2 = Ok kl ->
    INT_MIN <= ql + 32 <= INT_MAX ->
    INT_MIN <= kl + tile_bk bd <= INT_MAX ->
    leading_strides q qs -> leading_strides k ks ->
    leading_strides v vs -> leading_strides o os ->
    full_mask_events mask mask_evs ->
    full_encoded q k v o sc causal mask
      (SetComputePipelineState
         (get_kernel (full_base_name q bd mask) "mlx"
                     (full_base_name q bd mask
                      ++ full_suffix ql kl bd causal mask)
                     (full_constants ql kl bd causal mask))
       :: SetInputArray q 0 :: SetInputArray k 1 :: SetInputArray v 2
       :: SetOutputArray o 3
       :: SetBytes (of_AttnParams (full_params b h d ql kl hk bd sc qs ks vs os))
                   4
       :: mask_evs
          ++ [DispatchThreadgroups
                (mtl_size (Z.quot (ql + 32 - 1) 32) h b) (mtl_size 32 4 1)]).

(** *** A successful evaluation, event by event *)

(** Vector mode (lines 375-411 and 444). *)
Inductive vector_evaluation (d : Device) (sc : float) (inputs : list array)
          (out o : array) (l : list event) (q_pre k_pre v_pre : array)
  : Prop :=
| vector_evaluation_intro (q k v : array)
                          (eq ek ev out_evs launch_evs : list event)
                          (cq ck cv : list array) (devc : ascii)
                          (two_pass : bool) :
    normalized is_contiguous_or_head_seq_transposed q_pre q eq cq ->
    normalized is_matrix_contiguous k_pre k ek ck ->
    normalized is_matrix_contiguous v_pre v ev cv ->
    vector_output q out o out_evs ->
    string_back (get_architecture d) = Some devc ->
    route_2pass devc q k = Ok two_pass ->
    (if two_pass
     then two_pass_encoded q k v o sc (lookup inputs 3) launch_evs
     else vector_encoded q k v o sc (lookup inputs 3) launch_evs) ->
    l = eq ++ ek ++ ev ++ out_evs ++ launch_evs
        ++ [AddTemporaries (cq ++ ck ++ cv)] ->
    vector_evaluation d sc inputs out o l q_pre k_pre v_pre.

(** Full mode (lines 414-444). *)
Inductive full_evaluation (d : Device) (sc : float) (causal : bool)
          (inputs : list array) (out o : array) (l : list event)
          (q_pre k_pre v_pre : array) : Prop :=
| full_evaluation_intro (q k v : array) (eq ek ev em launch_evs : list event)
                        (cq ck cv cm : list array) (mask : option array)
                        (n : nat) (bo ho lo dv : Z) :
    normalized is_matrix_contiguous q_pre q eq cq ->
    normalized is_matrix_contiguous k_pre k ek ck ->
    normalized is_matrix_contiguous v_pre v ev cv ->
    shape_at out 0 = Ok bo -> shape_at out 1 = Ok ho ->
    shape_at out 2 = Ok lo -> shape_at out 3 = Ok dv ->
    fits_int64 (ho * dv) = true ->
    fits_int64 (lo * (ho * dv)) = true ->
    fits_int64 (bo * (lo * (ho * dv))) = true ->
    o = set_data_strided out (allocated n)
          (to_size_t (bo * (lo * (ho * dv))))
          [lo * (ho * dv); dv; ho * dv; 1] (mkFlags true false false) ->
    match lookup inputs 3 with
    | Some m_pre =>
        exists m, mask = Some m /\ normalized is_matrix_contiguous m_pre m em cm
    | None => mask = None /\ em = [] /\ cm = []
    end ->
    (List.length (cq ++ ck ++ cv ++ cm) <= 3)%nat ->
    full_encoded q k v o sc causal mask launch_evs ->
    l = eq ++ ek ++ ev
        ++ [ Malloc (nbytes out) (allocated n);
             SetDataStrided out (allocated n)
               (to_size_t (bo * (lo * (ho * dv))))
               [lo * (ho * dv); dv; ho * dv; 1] (mkFlags true false false) ]
        ++ em ++ launch_evs
        ++ [AddTemporaries (cq ++ ck ++ cv ++ cm)] ->
    full_evaluation d sc causal inputs out o l q_pre k_pre v_pre.

(** [a] reaches the first launch at input slot [slot] as it is when
    [predicate] holds of it, and as a row-major copy made beforehand when
    it does not. *)
Definition passed_or_copied_by (predicate : array -> result bool)
           (a : array) (slot : Z) (l : list event) : Prop :=
  (predicate a = Ok true -> input_array slot l = Some a) /\
  (predicate a = Ok false ->
   exists c, row_major_copy_of a c /\
             In (CopyGpu a c General) (before_dispatch l) /\
             input_array slot l = Some c).

End Encoder.

(* ================================================================= *)
(** ** Two evaluations side by side *)

Module Relational.

(** Two calls are the same call, or make current the same kernel
    specialised for the causal flag [c1] in one and [c2] in the other: the
    flag is the last function constant, at index 301, and the last letter
    of the hash name. *)
Definition causal_variant (c1 c2 : bool) (e1 e2 : event) : Prop :=
  e1 = e2 \/
  exists base lib hash consts,
    e1 = SetComputePipelineState
           (get_kernel base lib (hash ++ [chr (tn c1)])
                       (consts ++ [mkFC c1 DataTypeBool 301])) /\
    e2 = SetComputePipelineState
           (get_kernel base lib (hash ++ [chr (tn c2)])
                       (consts ++ [mkFC c2 DataTypeBool 301])).

(** States that differ at most in such calls. *)
Definition similar (c1 c2 : bool) (s1 s2 : state) : Prop :=
  copies s1 = copies s2 /\
  copies_capacity s1 = copies_capacity s2 /\
  copies_epoch s1 = copies_epoch s2 /\
  next_buffer s1 = next_buffer s2 /\
  Forall2 (causal_variant c1 c2) (log s1) (log s2).

Definition same_outcome {A} (c1 c2 : bool) (r1 r2 : result (A * state))
  : Prop :=
  match r1, r2 with
  | Ok (a1, s1), Ok (a2, s2) => a1 = a2 /\ similar c1 c2 s1 s2
  | Fault f1, Fault f2 => f1 = f2
  | _, _ => False
  end.

Definition related {A} (c1 c2 : bool) (m1 m2 : M A) : Prop :=
  forall s1 s2, similar c1 c2 s1 s2 -> same_outcome c1 c2 (m1 s1) (m2 s2).

End Relational.

(* ================================================================= *)
(** ** More concrete calls *)

Module Scenarios.

(** A mask over [Lq, Lk] only. *)
Definition flat_mask (lq lk : Z) : array := Examples.dense [lq; lk] 3.

(** Vector mode, H = 2, Lq = 2, with a query whose innermost stride is
    not 1. *)
Definition strided_query_inputs : list array :=
  [ Examples.transposed [1; 2; 2; 64] 0;
    Examples.dense [1; 2; 16; 64] 1; Examples.dense [1; 2; 16; 64] 2 ].
Definition strided_query_output : array := Examples.output [1; 2; 2; 64].

(** Vector mode with a mask bound: Lq = 2, Lk = 16. *)
Definition masked_decode_inputs : list array :=
  Examples.masked_inputs 2 16 (Examples.shared_mask 2 16).
Definition masked_decode_output : array := Examples.masked_output 2.

(** Vector mode, Lq = 1, on [float32] operands the caller has given up:
    the query is donatable and densely packed. *)
Definition owned (sh : list Z) (n : nat) : array :=
  mkArray sh (row_major sh) float32 (mkFlags true true false)
          (Some (external n)) (fold_right Z.mul 1 sh) true.
Definition owned_decode_inputs : list array :=
  [ owned [1; 2; 1; 64] 0; owned [1; 2; 16; 64] 1; owned [1; 2; 16; 64] 2 ].
Definition owned_decode_output : array := new_array [1; 2; 1; 64] float32.

End Scenarios.

(* ================================================================= *)
(** ** Kernel names as strings *)

Module Names.

(** A name is the concatenation of its parts.  [std::to_string] and
    [operator<<] print an [int] in decimal; [type_to_name] and
    [get_type_string] are left open. *)
Definition decimal (n : Z) : list ascii :=
  list_ascii_of_string (DecimalString.NilZero.string_of_int (Z.to_int n)).

Definition render_part (type_name type_string : Dtype -> string)
           (p : name_part) : list ascii :=
  match p with
  | lit s => list_ascii_of_string s
  | chr c => [c]
  | to_string n => decimal n
  | type_to_name t => list_ascii_of_string (type_name t)
  | get_type_string t => list_ascii_of_string (type_string t)
  end.

Definition render (type_name type_string : Dtype -> string)
           (name : list name_part) : list ascii :=
  flat_map (render_part type_name type_string) name.

Definition is_digit (c : ascii) : bool :=
  ((48 <=? nat_of_ascii c) && (nat_of_ascii c <=? 57))%nat.

(** What follows the last digit of a string. *)
Fixpoint after_last_digit (l : list ascii) : list ascii :=
  match l with
  | [] => []
  | c :: t =>
      if existsb is_digit t then after_last_digit t
      else if is_digit c then t
      else c :: t
  end.

(** The letters the vector kernels and the tiled kernel append to the
    base name (lines 171-172, 265-266 and 68-71). *)
Definition vector_letters (has_mask transposed : bool) : list ascii :=
  list_ascii_of_string (if has_mask then "_mask" else "_nomask")
  ++ list_ascii_of_string (if transposed then "_qt" else "_qnt").

Definition tiled_letters (aq ak hm c : bool) : list ascii :=
  list_ascii_of_string "_align_Q_" ++ [tn aq]
  ++ list_ascii_of_string "_align_K_" ++ [tn ak]
  ++ list_ascii_of_string "_has_mask_" ++ [tn hm]
  ++ list_ascii_of_string "_do_causal_" ++ [tn c].

(** The kernels the three launch routines ask the device for: the vector
    kernels (lines 143-176 and 219-270), the second pass (lines 305-312)
    and the tiled kernel (lines 54-76). *)
Inductive requested : Kernel -> Prop :=
| vector_kernel (prefix : list name_part) (dv : Z) (has_mask transposed : bool) :
    requested
      (get_kernel (prefix ++ [to_string dv]) "mlx"
         ((prefix ++ [to_string dv])
          ++ [ lit (if has_mask then "_mask" else "_nomask");
               lit (if transposed then "_qt" else "_qnt") ])
         [ mkFC has_mask DataTypeBool 20; mkFC transposed DataTypeBool 21 ])
| second_pass_kernel (prefix : list name_part) (dv : Z) :
    requested (get_kernel_by_name (prefix ++ [to_string dv]))
| tiled_kernel (base : list name_part) (align_Q align_K has_mask causal : bool) :
    requested
      (get_kernel base "mlx"
         (base ++ [ lit "_align_Q_"; chr (tn align_Q);
                    lit "_align_K_"; chr (tn align_K);
                    lit "_has_mask_"; chr (tn has_mask);
                    lit "_do_causal_"; chr (tn causal) ])
         [ mkFC align_Q DataTypeBool 200; mkFC align_K DataTypeBool 201;
           mkFC has_mask DataTypeBool 300; mkFC causal DataTypeBool 301 ]).

End Names.

(* ================================================================= *)
(** ** Running the monad backwards *)

Lemma bind_inv {A B} (m : M A) (k : A -> M B) s r :
  bind m k s = Ok r -> exists a s1, m s = Ok (a, s1) /\ k a s1 = Ok r.
Proof.
  unfold bind. destruct (m s) as [[a s1]|f]; [eauto | discriminate].
Qed.

Lemma lift_inv {A} (r : result A) s a s' :
  lift r s = Ok (a, s') -> r = Ok a /\ s' = s.
Proof. unfold lift. destruct r; intros E; inversion E; auto. Qed.

Lemma rbind_inv {A B} (r : result A) (k : A -> result B) b :
  rbind r k = Ok b -> exists a, r = Ok a /\ k a = Ok b.
Proof. destruct r; simpl; [eauto | discriminate]. Qed.

Lemma ret_inv {A} (a : A) s b s' : ret a s = Ok (b, s') -> b = a /\ s' = s.
Proof. unfold ret; intros E; inversion E; auto. Qed.

Lemma emit_inv e s u s' : emit e s = Ok (u, s') -> s' = log_app s [e].
Proof. unfold emit. intros E; inversion E; reflexivity. Qed.

Lemma log_app_app s l1 l2 : log_app (log_app s l1) l2 = log_app s (l1 ++ l2).
Proof. unfold log_app; simpl. now rewrite app_assoc. Qed.

Lemma log_app_nil s : log_app s [] = s.
Proof. destruct s; unfold log_app; simpl. now rewrite app_nil_r. Qed.

Lemma allocator_malloc_inv n s b s' :
  allocator_malloc n s = Ok (b, s') ->
  b = allocated (next_buffer s) /\
  s' = mkState (copies s) (copies_capacity s) (copies_epoch s)
               (S (next_buffer s)) (log s ++ [Malloc n b]).
Proof. unfold allocator_malloc. intros E; inversion E; auto. Qed.

Ltac norm_state H :=
  cbn [copies copies_capacity copies_epoch next_buffer log] in H;
  repeat rewrite <- app_assoc in H;
  cbn [app] in H.

Ltac unfold_calls H :=
  unfold set_compute_pipeline_state, set_input_array, set_output_array,
    set_bytes, dispatch_threadgroups, add_temporary, add_temporaries,
    malloc_data in H.

(** One step of inversion on a successful run [H]. *)
Ltac minv_step H :=
  lazymatch type of H with
  | bind (lift _) _ _ = Ok _ =>
      let a := fresh "x" in
      let s1 := fresh "s" in
      let E := fresh "E" in
      apply bind_inv in H; destruct H as (a & s1 & E & H);
      apply lift_inv in E; destruct E as [E ->]
  | bind (emit _) _ _ = Ok _ =>
      let a := fresh "u" in
      let s1 := fresh "s" in
      let E := fresh "E" in
      apply bind_inv in H; destruct H as (a & s1 & E & H);
      apply emit_inv in E; unfold log_app in E; subst s1; norm_state H
  | bind (ret ?a) ?k ?s = Ok _ =>
      change (bind (ret a) k s) with (k a s) in H; cbv beta in H
  | bind (allocator_malloc _) _ _ = Ok _ =>
      let a := fresh "b" in
      let s1 := fresh "s" in
      let E := fresh "E" in
      apply bind_inv in H; destruct H as (a & s1 & E & H);
      apply allocator_malloc_inv in E; destruct E as [-> ->]; norm_state H
  | bind (bind _ _) _ _ = Ok _ =>
      let a := fresh "a" in
      let s1 := fresh "s" in
      let E := fresh "E" in
      apply bind_inv in H; destruct H as (a & s1 & E & H);
      repeat minv_step E; norm_state H
  | emit _ _ = Ok (_, _) =>
      apply emit_inv in H; unfold log_app in H; norm_state H
  | ret _ _ = Ok (_, _) =>
      apply ret_inv in H; destruct H as [? ?]; subst
  end.

Ltac minv H := unfold_calls H; repeat minv_step H.

Lemma vector_mask_inv mask slot s u s' :
  match mask with
  | Some m =>
      (emit (SetInputArray m slot) ;;
       kv_seq_stride <~ mask_stride m 1 ;;
       q_seq_stride <~ mask_stride m 2 ;;
       head_stride <~ mask_stride m 3 ;;
       emit (SetBytes (of_int32_t kv_seq_stride) (slot + 1)) ;;
       emit (SetBytes (of_int32_t q_seq_stride) (slot + 2)) ;;
       emit (SetBytes (of_int32_t head_stride) (slot + 3)))%monad
  | None => ret tt
  end s = Ok (u, s') ->
  exists evs, vector_mask_events slot mask evs /\ s' = log_app s evs.
Proof.
  intros H. destruct mask as [m|].
  - minv H. subst s'.
    eexists; split; [ econstructor; eassumption | reflexivity ].
  - apply ret_inv in H as [_ ->]. exists []. split; [constructor|].
    now rewrite log_app_nil.
Qed.

Lemma full_mask_inv mask s u s' :
  match mask with
  | Some m =>
      (m0 <~ strides_at m 0 ;; m1 <~ strides_at m 1 ;; m2 <~ strides_at m 2 ;;
       emit (SetBytes (of_AttnMaskParams (mkAttnMaskParams (m0, m1, m2))) 5) ;;
       emit (SetInputArray m 6))%monad
  | None => ret tt
  end s = Ok (u, s') ->
  exists evs, full_mask_events mask evs /\ s' = log_app s evs.
Proof.
  intros H. destruct mask as [m|].
  - minv H. subst s'.
    eexists; split; [ econstructor; eassumption | reflexivity ].
  - apply ret_inv in H as [_ ->]. exists []. split; [constructor|].
    now rewrite log_app_nil.
Qed.

Lemma sdpa_vector_inv d q k v out sc mask s u s' :
  sdpa_vector d q k v out sc mask s = Ok (u, s') ->
  exists evs, vector_launch q k v out sc mask evs /\ s' = log_app s evs.
Proof.
  unfold sdpa_vector. intros H. minv H.
  apply rbind_inv in E as (dq & _ & E). apply rbind_inv in E as (dv & _ & E).
  injection E as <-.
  apply bind_inv in H as (u' & s1 & Em & H). minv H. subst s'.
  unfold set_input_array, set_bytes in Em.
  apply (vector_mask_inv mask 11) in Em as (mask_evs & Hm & ->).
  eexists. split.
  - eapply vector_launch_intro with (mask_evs := mask_evs). exact Hm.
  - unfold log_app; cbn [copies copies_capacity copies_epoch next_buffer log].
    rewrite <- !app_assoc. reflexivity.
Qed.

Lemma sdpa_vector_2pass_inv d q k v out sc mask s u s' :
  sdpa_vector_2pass d q k v out sc mask s = Ok (u, s') ->
  exists evs,
    two_pass_launch q k v out sc mask evs /\
    s' = mkState (copies s) (copies_capacity s) (copies_epoch s)
                 (3 + next_buffer s) (log s ++ evs).
Proof.
  unfold sdpa_vector_2pass. intros H. minv H.
  apply rbind_inv in E as (dq & _ & E). apply rbind_inv in E as (dv & _ & E).
  injection E as <-.
  apply bind_inv in H as (u' & sm & Em & H). minv H.
  unfold set_input_array, set_bytes in Em.
  apply (vector_mask_inv mask 13) in Em as (mask_evs & Hm & ->).
  subst s'.
  eexists. split.
  - eapply two_pass_launch_intro with (mask_evs := mask_evs). exact Hm.
  - unfold log_app; cbn [copies copies_capacity copies_epoch next_buffer log].
    rewrite <- !app_assoc. reflexivity.
Qed.

(** *** Signed arithmetic *)

Lemma int_of_inv z x :
  int_of z = Ok x -> x = z /\ INT_MIN <= z <= INT_MAX.
Proof.
  unfold int_of, fits_int. destruct (INT_MIN <=? z) eqn:E1;
    destruct (z <=? INT_MAX) eqn:E2; simpl; try discriminate.
  intros [= <-]. apply Z.leb_le in E1, E2. auto.
Qed.

Lemma int_div_inv a b x :
  int_div a b = Ok x -> b <> 0 /\ x = Z.quot a b.
Proof.
  unfold int_div. destruct (b =? 0) eqn:E; [discriminate|].
  intros H. apply int_of_inv in H as [-> _]. apply Z.eqb_neq in E. auto.
Qed.

Lemma ceil_div_inv a b x :
  (let? s := int_add a b in let? t := int_sub s 1 in int_div t b) = Ok x ->
  a + b <= INT_MAX /\ x = Z.quot (a + b - 1) b.
Proof.
  intros H. apply rbind_inv in H as (s & Hs & H).
  apply rbind_inv in H as (t & Ht & H).
  apply int_of_inv in Hs as [-> [_ Hs]]. apply int_of_inv in Ht as [-> _].
  apply int_div_inv in H as [_ ->]. auto.
Qed.

Lemma tail_inv n b a x :
  (let? m := int_mul n b in int_sub a m) = Ok x -> x = a - n * b.
Proof.
  intros H. apply rbind_inv in H as (m & Hm & H).
  apply int_of_inv in Hm as [-> _]. apply int_of_inv in H as [-> _].
  reflexivity.
Qed.

Lemma sdpa_full_self_attention_metal_inv d q k v sc o causal mask s u s' :
  sdpa_full_self_attention_metal d q k v sc o causal mask s = Ok (u, s') ->
  exists evs, full_launch q k v o sc mask evs /\ s' = log_app s evs.
Proof.
  unfold sdpa_full_self_attention_metal. intros H. minv H.
  apply bind_inv in H as (u' & sm & Em & H). minv H. subst s'.
  apply full_mask_inv in Em as (mask_evs & Hm & ->).
  repeat match goal with
  | E : (let? a := int_add _ _ in _) = Ok _ |- _ =>
      apply ceil_div_inv in E as [? ->]
  | E : (let? a := int_mul _ _ in _) = Ok _ |- _ =>
      apply tail_inv in E as ->
  | E : int_div _ _ = Ok _ |- _ => apply int_div_inv in E as [_ ->]
  | E : int_sub _ _ = Ok _ |- _ => apply int_of_inv in E as [-> _]
  end.
  eexists. split; cycle 1.
  - unfold log_app; cbn [copies copies_capacity copies_epoch next_buffer log].
    rewrite <- !app_assoc. cbn [app].
    match goal with
    | |- context [SetBytes (of_AttnParams ?p0) 4] =>
        instantiate (1 :=
          SetComputePipelineState _ :: _ :: _ :: _ :: _
          :: SetBytes (of_AttnParams p0) 4
          :: mask_evs ++ [DispatchThreadgroups _ _])
    end.
    reflexivity.
  - eapply full_launch_intro; try eassumption.
    constructor; cbn [qL kL NQ NK NQ_aligned NK_aligned qL_rem kL_rem qL_off];
      unfold tile_bq, tile_bk; auto.
Qed.

(** *** [copy_unless] and the references it returns *)

Lemma copy_unless_inv predicate a s r s' :
  copy_unless predicate a s = Ok (r, s') ->
  (predicate a = Ok true /\ r = ref_array a /\ s' = s) \/
  (predicate a = Ok false /\
   let c := general_copy a (next_buffer s) in
   let n := List.length (copies s) in
   let full := negb (n <? copies_capacity s)%nat in
   r = ref_copies (if full then S (copies_epoch s) else copies_epoch s) n /\
   s' = mkState (copies s ++ [c])
                (if full then Nat.max (2 * copies_capacity s) (S n)
                 else copies_capacity s)
                (if full then S (copies_epoch s) else copies_epoch s)
                (S (next_buffer s))
                (log s ++ copy_events a (next_buffer s))).
Proof.
  unfold copy_unless. intros H. minv H. destruct x; cbn [negb] in H.
  - left. apply ret_inv in H as [-> ->]. auto.
  - right. split; [assumption|]. unfold copy_gpu in H. minv H.
    apply bind_inv in H as ([] & s1 & Ep & H).
    unfold push_back in Ep. cbn [copies copies_capacity copies_epoch
                                   next_buffer log] in Ep.
    unfold back in H.
    destruct (List.length (copies s) <? copies_capacity s)%nat eqn:Ecap;
      injection Ep as <-;
      cbn [copies copies_capacity copies_epoch next_buffer log] in H;
      rewrite length_app in H; cbn [List.length] in H;
      rewrite Nat.add_1_r in H; injection H as <- <-;
      cbn [negb]; split; reflexivity.
Qed.

Lemma donate_test_inv q o b :
  (Ok (is_donatable q)
   &&? ((let? l := shape_at q 2 in Ok (l =? 1))
        ||? Ok (negb (row_contiguous (flags q))))
   &&? Ok (size q =? size o)) = Ok b ->
  (b = true <-> donation_allowed q o).
Proof.
  unfold donation_allowed, rand, ror. cbn [rbind].
  destruct (is_donatable q); cbn [rbind].
  - destruct (shape_at q 2) as [l|f]; cbn [rbind]; [|discriminate].
    destruct (l =? 1) eqn:El; cbn [rbind].
    + intros [= <-]. apply Z.eqb_eq in El. subst l.
      rewrite Z.eqb_eq. intuition auto.
    + apply Z.eqb_neq in El.
      destruct (row_contiguous (flags q)); cbn [negb rbind].
      * intros [= <-]. split; [discriminate|].
        intros (_ & [[= Hl] | Hc] & _); [contradiction | discriminate].
      * intros [= <-]. rewrite Z.eqb_eq. intuition auto.
  - intros [= <-]. split; [discriminate|]. intros (Hd & _). discriminate.
Qed.

Lemma donate_or_allocate_inv q o s o' s' :
  donate_or_allocate q o s = Ok (o', s') ->
  exists evs n,
    vector_output q o o' evs /\
    s' = mkState (copies s) (copies_capacity s) (copies_epoch s) n
                 (log s ++ evs).
Proof.
  unfold donate_or_allocate. intros H. minv H.
  apply donate_test_inv in E. destruct x.
  - minv H. exists [CopySharedBuffer o q], (next_buffer s).
    split; [constructor; now apply E | reflexivity].
  - assert (Hn : ~ donation_allowed q o).
    { intros Hd. apply E in Hd. discriminate. }
    minv H. destruct (x =? 1) eqn:Ex.
    + apply Z.eqb_eq in Ex. subst x. minv H.
      eexists _, _. split; [ apply plain; assumption | reflexivity ].
    + apply Z.eqb_neq in Ex. minv H.
      match goal with
      | E : (let? a := shape_at o 1 in _) = Ok _ |- _ =>
          apply rbind_inv in E as (h_o & Eh & E);
          apply rbind_inv in E as (dv & Ed & E);
          pose proof E as Efit; apply int_of_inv in E as [-> _]
      end.
      unfold int_mul, int_of in Efit.
      destruct (fits_int (h_o * dv)) eqn:Ef; [|discriminate].
      match goal with
      | E : shape_at o 3 = Ok ?y, E' : shape_at o 3 = Ok dv |- _ =>
          rewrite E' in E; injection E as <-
      end.
      eexists _, _. split; [ eapply interleaved; eassumption | reflexivity ].
Qed.

Lemma mask_lookup_inv (inputs : list array) mask :
  (if zlength inputs >? 3
   then let? m := vec_index inputs 3 in Ok (Some m)
   else Ok None) = Ok mask ->
  mask = lookup inputs 3.
Proof.
  unfold vec_index, lookup.
  destruct (zlength inputs >? 3) eqn:E.
  - destruct ((0 <=? 3) && (3 <? zlength inputs)); cbn [rbind].
    + destruct (nth_error inputs (Z.to_nat 3)); cbn [rbind];
        [ now intros [= <-] | discriminate ].
    + discriminate.
  - intros [= <-].
    assert (Hl : (3 <? zlength inputs) = false).
    { rewrite Z.gtb_ltb in E. exact E. }
    rewrite Hl. reflexivity.
Qed.

Ltac run_state H :=
  cbn [reserved copies copies_capacity copies_epoch next_buffer log
       List.length app Nat.ltb Nat.leb negb Nat.max Nat.mul Nat.add] in H.

Ltac deref_step H :=
  match type of H with
  | bind (deref ?r) ?k ?s = Ok _ =>
      unfold bind at 1, deref at 1 in H;
      cbn [copies copies_epoch Nat.eqb nth_error] in H;
      try discriminate H
  end.

Ltac solve_normalized :=
  first [ apply passed_through; assumption | apply copied; assumption ].

Lemma vector_mode_inv d sc inputs q_pre k_pre v_pre o o' s' :
  vector_mode d sc inputs q_pre k_pre v_pre o reserved = Ok (o', s') ->
  vector_run d sc inputs q_pre k_pre v_pre o o' s'.
Proof.
  unfold vector_mode. intros H.
  apply bind_inv in H as (rq & s1 & Eq & H). apply copy_unless_inv in Eq.
  apply bind_inv in H as (rk & s2 & Ek & H). apply copy_unless_inv in Ek.
  apply bind_inv in H as (rv & s3 & Ev & H). apply copy_unless_inv in Ev.
  destruct Eq as [(Pq & -> & ->) | (Pq & -> & ->)]; run_state Ek;
    (destruct Ek as [(Pk & -> & ->) | (Pk & -> & ->)]; run_state Ev;
     (destruct Ev as [(Pv & -> & ->) | (Pv & -> & ->)]; run_state H;
      do 3 deref_step H;
      apply bind_inv in H as (o1 & s4 & Eo & H);
      apply donate_or_allocate_inv in Eo as (out_evs & n & Ho & ->);
      run_state H; minv H;
      match goal with
      | E : (if zlength inputs >? 3 then _ else _) = Ok _ |- _ =>
          apply mask_lookup_inv in E; subst
      end;
      (destruct (string_back (get_architecture d)) as [c|] eqn:Ed;
        [|discriminate]);
      match goal with
      | E : Ok c = Ok ?x |- _ => injection E as <-
      end;
      apply bind_inv in H as (u & s5 & El & H);
      apply ret_inv in H as [<- <-];
      match goal with
      | E : route_2pass c _ _ = Ok ?tp |- _ =>
          destruct tp;
          [ apply sdpa_vector_2pass_inv in El as (evs & Hl & ->);
            eapply vector_run_intro
              with (two_pass := true) (launch_evs := evs) (out_evs := out_evs)
          | apply sdpa_vector_inv in El as (evs & Hl & ->);
            eapply vector_run_intro
              with (two_pass := false) (launch_evs := evs) (out_evs := out_evs) ];
          try exact Hl; try exact Ho; try exact Ed; try eassumption;
          try solve_normalized;
          unfold log_app; cbn [log copies app]; reflexivity
      end)).
Qed.

Lemma vec_index_lookup {A} (l : list A) i a :
  vec_index l i = Ok a -> lookup l i = Some a.
Proof. unfold vec_index. destruct (lookup l i); [now intros [= <-] | discriminate]. Qed.

Lemma lookup_short {A} (l : list A) i :
  (zlength l >? i) = false -> lookup l i = None.
Proof.
  intros E. unfold lookup. rewrite Z.gtb_ltb in E. rewrite E.
  now rewrite andb_false_r.
Qed.

Lemma full_mode_inv d sc causal inputs q_pre k_pre v_pre o o' s' :
  full_mode d sc causal inputs q_pre k_pre v_pre o reserved = Ok (o', s') ->
  full_run d sc inputs q_pre k_pre v_pre o o' s'.
Proof.
  unfold full_mode. intros H.
  apply bind_inv in H as (rq & s1 & Eq & H). apply copy_unless_inv in Eq.
  apply bind_inv in H as (rk & s2 & Ek & H). apply copy_unless_inv in Ek.
  apply bind_inv in H as (rv & s3 & Ev & H). apply copy_unless_inv in Ev.
  destruct Eq as [(Pq & -> & ->) | (Pq & -> & ->)]; run_state Ek;
    (destruct Ek as [(Pk & -> & ->) | (Pk & -> & ->)]; run_state Ev;
     (destruct Ev as [(Pv & -> & ->) | (Pv & -> & ->)]; run_state H;
      minv H;
      apply bind_inv in H as (mask & s4 & Em & H);
      (destruct (zlength inputs >? 3) eqn:Elen;
       [ minv Em;
         match goal with
         | E : vec_index inputs 3 = Ok _ |- _ => apply vec_index_lookup in E
         end;
         apply bind_inv in Em as (rm & s5 & Ec & Em);
         apply copy_unless_inv in Ec; run_state Ec;
         (destruct Ec as [(Pm & -> & ->) | (Pm & -> & ->)]; run_state Em;
          deref_step Em; apply ret_inv in Em as [-> ->])
       | apply ret_inv in Em as [-> ->]; apply lookup_short in Elen ]);
      run_state H;
      do 3 deref_step H;
      apply bind_inv in H as (ul & sl & El & H);
      apply ret_inv in H as [-> ->];
      apply sdpa_full_self_attention_metal_inv in El as (evs & Hl & ->);
      eapply full_run_intro with (launch_evs := evs);
      try exact Hl; try solve_normalized;
      try (match goal with
           | E : lookup inputs 3 = _ |- _ => rewrite E
           end;
           first [ eexists; split; [reflexivity | solve_normalized]
                 | repeat split; reflexivity ]);
      try reflexivity;
      try (unfold log_app; cbn [log copies app]; reflexivity);
      try (cbn [List.length app]; lia))).
Qed.

Lemma run_inv d sc causal inputs out o l :
  run d sc causal inputs out = Ok (o, l) ->
  evaluation d sc inputs out o l.
Proof.
  unfold run.
  destruct (eval_gpu d sc causal inputs out initial) as [[o1 s1]|f] eqn:H;
    [|discriminate].
  intros [= -> <-]. unfold eval_gpu in H. minv H.
  apply bind_inv in H as ([] & s2 & Er & H).
  unfold reserve in Er. cbn in Er. injection Er as <-.
  minv H.
  apply bind_inv in H as (o2 & s3 & Em & H).
  apply bind_inv in H as (ts & s4 & Et & H).
  unfold take_copies in Et. injection Et as <- <-.
  minv H. cbn [log].
  eapply evaluation_intro; try eassumption; [|reflexivity].
  match goal with
  | |- context [?lq <=? 8] => destruct (lq <=? 8)
  end.
  - now apply vector_mode_inv.
  - now apply full_mode_inv in Em.
Qed.

(** *** Observers skip what is not an encoder command *)

Lemma first_kernel_quiet l1 l2 :
  quiet l1 -> first_kernel (l1 ++ l2) = first_kernel l2.
Proof.
  unfold quiet. induction l1 as [|e l1 IH]; cbn [app forallb]; [reflexivity|].
  intros H. apply andb_prop in H as [He H].
  destruct e; cbn in He; try discriminate; cbn [first_kernel]; auto.
Qed.

Lemma input_array_quiet idx l1 l2 :
  quiet l1 -> input_array idx (l1 ++ l2) = input_array idx l2.
Proof.
  unfold quiet. induction l1 as [|e l1 IH]; cbn [app forallb]; [reflexivity|].
  intros H. apply andb_prop in H as [He H].
  destruct e; cbn in He; try discriminate; cbn [input_array]; auto.
Qed.

Lemma bytes_at_quiet idx l1 l2 :
  quiet l1 -> bytes_at idx (l1 ++ l2) = bytes_at idx l2.
Proof.
  unfold quiet. induction l1 as [|e l1 IH]; cbn [app forallb]; [reflexivity|].
  intros H. apply andb_prop in H as [He H].
  destruct e; cbn in He; try discriminate; cbn [bytes_at]; auto.
Qed.

Lemma before_dispatch_quiet l1 l2 :
  quiet l1 -> before_dispatch (l1 ++ l2) = l1 ++ before_dispatch l2.
Proof.
  unfold quiet. induction l1 as [|e l1 IH]; cbn [app forallb]; [reflexivity|].
  intros H. apply andb_prop in H as [He H].
  destruct e; cbn in He; try discriminate; cbn [before_dispatch];
    now rewrite IH.
Qed.

Lemma normalized_quiet predicate a a' evs cs :
  normalized predicate a a' evs cs -> quiet evs.
Proof. intros []; reflexivity. Qed.

Lemma vector_output_quiet q o o' evs :
  vector_output q o o' evs -> quiet evs.
Proof. intros []; reflexivity. Qed.

Lemma quiet_app l1 l2 : quiet l1 -> quiet l2 -> quiet (l1 ++ l2).
Proof.
  unfold quiet. intros H1 H2. rewrite forallb_app, H1, H2. reflexivity.
Qed.

(** *** Normalisation keeps extents and element type *)

Lemma shape_at_general_copy a n i :
  shape_at (general_copy a n) i = shape_at a i.
Proof. reflexivity. Qed.

Lemma normalized_shape predicate a a' evs cs :
  normalized predicate a a' evs cs -> shape a' = shape a.
Proof. intros []; reflexivity. Qed.

Lemma normalized_shape_at predicate a a' evs cs i :
  normalized predicate a a' evs cs -> shape_at a' i = shape_at a i.
Proof. intros []; reflexivity. Qed.

(* ================================================================= *)
(** ** Facts about a successful evaluation *)

Lemma vector_run_selected d sc inputs q_pre k_pre v_pre o o' s' :
  vector_run d sc inputs q_pre k_pre v_pre o o' s' ->
  exists devc tp,
    string_back (get_architecture d) = Some devc /\
    route_2pass devc q_pre k_pre = Ok tp /\
    forall rest,
      selected (log s' ++ rest)
      = Some (if tp then vector_two_pass else vector_single_pass).
Proof.
  intros [q k v eq ek ev out_evs launch_evs cq ck cv devc tp
            Nq Nk Nv Ho Hd Hr Hl Hlog Hc].
  exists devc, tp. split; [assumption|]. split.
  - unfold route_2pass in *.
    now rewrite <- (normalized_shape_at _ _ _ _ _ 2 Nk),
                <- (normalized_shape_at _ _ _ _ _ 1 Nk),
                <- (normalized_shape_at _ _ _ _ _ 1 Nq).
  - intros rest. unfold selected. rewrite Hlog, <- !app_assoc.
    rewrite (first_kernel_quiet eq), (first_kernel_quiet ek),
            (first_kernel_quiet ev), (first_kernel_quiet out_evs);
      eauto using normalized_quiet, vector_output_quiet.
    destruct tp; destruct Hl; reflexivity.
Qed.

Lemma full_run_selected d sc inputs q_pre k_pre v_pre o o' s' :
  full_run d sc inputs q_pre k_pre v_pre o o' s' ->
  forall rest, selected (log s' ++ rest) = Some full_attention.
Proof.
  intros [q k v eq ek ev em launch_evs cq ck cv cm mask n oh ol ob dsize
            Nq Nk Nv Hm Hlen Ho Hl Hlog Hc] rest.
  assert (Qm : quiet em).
  { destruct (lookup inputs 3).
    - destruct Hm as (m & _ & Nm). eauto using normalized_quiet.
    - destruct Hm as (_ & -> & _). reflexivity. }
  unfold selected. rewrite Hlog, <- !app_assoc.
  rewrite (first_kernel_quiet eq), (first_kernel_quiet ek),
          (first_kernel_quiet ev); eauto using normalized_quiet.
  cbn [app first_kernel]. rewrite (first_kernel_quiet em) by assumption.
  destruct Hl. reflexivity.
Qed.

Lemma evaluation_operands d sc inputs out o l q_pre lq :
  evaluation d sc inputs out o l ->
  vec_index inputs 0 = Ok q_pre ->
  shape_at q_pre 2 = Ok lq ->
  exists k_pre v_pre s',
    vec_index inputs 1 = Ok k_pre /\
    vec_index inputs 2 = Ok v_pre /\
    (if lq <=? 8
     then vector_run d sc inputs q_pre k_pre v_pre out o s'
     else full_run d sc inputs q_pre k_pre v_pre out o s') /\
    l = log s' ++ [AddTemporaries (copies s')].
Proof.
  intros [q0 k_pre v_pre lq0 s' H0 H1 H2 Hq Hrun Hl] Eq El.
  rewrite Eq in H0. injection H0 as <-.
  rewrite El in Hq. injection Hq as <-.
  eauto 8.
Qed.

Lemma route_2pass_eq devc q k h hk lk :
  shape_at q 1 = Ok h ->
  shape_at k 1 = Ok hk ->
  shape_at k 2 = Ok lk ->
  route_2pass devc q k
  = Ok ((Ascii.eqb devc "d" && (lk >=? 1024)) || ((hk <? h) && (lk >=? 4096))).
Proof.
  intros Hh Hk Hl. unfold route_2pass, rand, ror. rewrite Hh, Hk, Hl.
  cbn [rbind].
  destruct (Ascii.eqb devc "d"); cbn [rbind andb orb].
  - destruct (lk >=? 1024); cbn [rbind orb]; [reflexivity|].
    destruct (hk <? h); reflexivity.
  - destruct (hk <? h); reflexivity.
Qed.

Lemma geb_ge a b : (a >=? b) = true <-> a >= b.
Proof. rewrite Z.geb_leb, Z.leb_le. lia. Qed.

Lemma quot_ceil a b :
  0 <= a -> 0 < b -> Z.quot (a + b - 1) b = ceil_div a b.
Proof.
  intros Ha Hb. unfold ceil_div.
  rewrite Z.quot_div_nonneg by lia.
  symmetry. apply Z.opp_inj. rewrite Z.opp_involutive.
  symmetry.
  apply Z.div_unique with (r := b * ((a + b - 1) / b) - a).
  - left.
    pose proof (Z.mul_div_le (a + b - 1) b Hb).
    pose proof (Z.mul_succ_div_gt (a + b - 1) b Hb). lia.
  - lia.
Qed.

Lemma quot_floor a b : 0 <= a -> 0 < b -> Z.quot a b = floor_div a b.
Proof. intros. unfold floor_div. now apply Z.quot_div_nonneg. Qed.

Lemma tile_bk_pos bd : 0 < tile_bk bd.
Proof. unfold tile_bk. destruct (bd <? 128); lia. Qed.

Lemma full_run_params d sc inputs q_pre k_pre v_pre o o' s' :
  full_run d sc inputs q_pre k_pre v_pre o o' s' ->
  exists p ql kl bd t rest hash consts,
    shape_at q_pre 2 = Ok ql /\
    shape_at k_pre 2 = Ok kl /\
    shape_at q_pre (-1) = Ok bd /\
    tiling ql kl bd p /\
    forall rest',
      bytes_at 4 (log s' ++ rest') = Some (of_AttnParams p) /\
      first_kernel (log s' ++ rest')
      = Some (get_kernel
                (lit "steel_attention_" :: type_to_name t
                 :: lit "_bq" :: to_string tile_bq
                 :: lit "_bk" :: to_string (tile_bk bd) :: rest)
                "mlx" hash consts).
Proof.
  intros [q k v eq ek ev em launch_evs cq ck cv cm mask n oh ol ob dsize
            Nq Nk Nv Hm Hlen Ho Hl Hlog Hc].
  assert (Qm : quiet em).
  { destruct (lookup inputs 3).
    - destruct Hm as (m & _ & Nm). eauto using normalized_quiet.
    - destruct Hm as (_ & -> & _). reflexivity. }
  destruct Hl as [ql kl bd rest hash consts p mask_evs Hql Hkl Hbd Ht Hme].
  rewrite (normalized_shape_at _ _ _ _ _ 2 Nq) in Hql.
  rewrite (normalized_shape_at _ _ _ _ _ 2 Nk) in Hkl.
  rewrite (normalized_shape_at _ _ _ _ _ (-1) Nq) in Hbd.
  exists p, ql, kl, bd, (dtype q), rest, hash, consts.
  repeat (split; [assumption|]).
  intros rest'. rewrite Hlog, <- !app_assoc.
  rewrite (bytes_at_quiet 4 eq), (bytes_at_quiet 4 ek), (bytes_at_quiet 4 ev),
          (first_kernel_quiet eq), (first_kernel_quiet ek),
          (first_kernel_quiet ev); eauto using normalized_quiet.
  cbn [app bytes_at first_kernel].
  rewrite (bytes_at_quiet 4 em), (first_kernel_quiet em) by assumption.
  split; reflexivity.
Qed.

Lemma normalized_no_donation predicate a a' evs cs x y :
  normalized predicate a a' evs cs -> ~ In (CopySharedBuffer x y) evs.
Proof.
  intros [] H; cbn in H; intuition discriminate.
Qed.

Lemma vector_mask_no_donation slot mask evs x y :
  vector_mask_events slot mask evs -> ~ In (CopySharedBuffer x y) evs.
Proof.
  intros [] H; cbn in H; intuition discriminate.
Qed.

Lemma vector_launch_no_donation q k v o sc mask evs x y :
  vector_launch q k v o sc mask evs -> ~ In (CopySharedBuffer x y) evs.
Proof.
  intros [] H. cbn [In] in H. rewrite in_app_iff in H. cbn [In] in H.
  pose proof (vector_mask_no_donation _ _ _ x y H0).
  intuition discriminate.
Qed.

Lemma two_pass_launch_no_donation q k v o sc mask evs x y :
  two_pass_launch q k v o sc mask evs -> ~ In (CopySharedBuffer x y) evs.
Proof.
  intros [] H. cbn [In] in H. rewrite in_app_iff in H. cbn [In] in H.
  pose proof (vector_mask_no_donation _ _ _ x y H0).
  intuition discriminate.
Qed.

Lemma vector_run_query d sc inputs q_pre k_pre v_pre o o' s' lq :
  vector_run d sc inputs q_pre k_pre v_pre o o' s' ->
  shape_at q_pre 2 = Ok lq ->
  exists q out_evs,
    shape_at q 2 = Ok lq /\
    shape_at q 1 = shape_at q_pre 1 /\
    vector_output q o o' out_evs /\
    forall rest,
      input_array 0 (log s' ++ rest) = Some q /\
      (forall e, In e out_evs -> In e (log s' ++ rest)) /\
      (forall x y, In (CopySharedBuffer x y) (log s' ++ rest) ->
                   In (CopySharedBuffer x y) out_evs \/
                   In (CopySharedBuffer x y) rest).
Proof.
  intros [q k v eq ek ev out_evs launch_evs cq ck cv devc tp
            Nq Nk Nv Ho Hd Hr Hl Hlog Hc] Hlq.
  exists q, out_evs.
  split; [now rewrite (normalized_shape_at _ _ _ _ _ 2 Nq)|].
  split; [now rewrite (normalized_shape_at _ _ _ _ _ 1 Nq)|].
  split; [assumption|].
  intros rest. rewrite Hlog, <- !app_assoc. split; [|split].
  - rewrite (input_array_quiet 0 eq), (input_array_quiet 0 ek),
            (input_array_quiet 0 ev), (input_array_quiet 0 out_evs);
      eauto using normalized_quiet, vector_output_quiet.
    destruct tp; destruct Hl; reflexivity.
  - intros e He. rewrite !in_app_iff. auto.
  - intros x y Hin. rewrite !in_app_iff in Hin.
    destruct Hin as [Hin | [Hin | [Hin | [Hin | [Hin | Hin]]]]]; auto.
    + now apply (normalized_no_donation _ _ _ _ _ x y Nq) in Hin.
    + now apply (normalized_no_donation _ _ _ _ _ x y Nk) in Hin.
    + now apply (normalized_no_donation _ _ _ _ _ x y Nv) in Hin.
    + destruct tp.
      * now apply (two_pass_launch_no_donation _ _ _ _ _ _ _ x y Hl) in Hin.
      * now apply (vector_launch_no_donation _ _ _ _ _ _ _ x y Hl) in Hin.
Qed.

Lemma update_same {A} (l l' : list A) n x :
  update l n x = Some l' -> nth_error l' n = Some x.
Proof.
  revert l' n. induction l as [|h t IH]; intros l' [|n]; cbn; try discriminate.
  - now intros [= <-].
  - destruct (update t n x) as [t'|] eqn:E; [|discriminate].
    intros [= <-]. cbn. now apply IH.
Qed.

Lemma update_other {A} (l l' : list A) n m x :
  update l n x = Some l' -> m <> n -> nth_error l' m = nth_error l m.
Proof.
  revert l' n m. induction l as [|h t IH]; intros l' [|n] [|m]; cbn;
    try discriminate; try congruence.
  - now intros [= <-] _.
  - destruct (update t n x) as [t'|]; [|discriminate]. now intros [= <-] _.
  - destruct (update t n x) as [t'|] eqn:E; [|discriminate].
    intros [= <-] Hm. cbn. apply (IH _ _ _ E). congruence.
Qed.

Lemma update_length {A} (l l' : list A) n x :
  update l n x = Some l' -> List.length l' = List.length l.
Proof.
  revert l' n. induction l as [|h t IH]; intros l' [|n]; cbn; try discriminate.
  - now intros [= <-].
  - destruct (update t n x) as [t'|] eqn:E; [|discriminate].
    intros [= <-]. cbn. f_equal. now apply (IH _ _ E).
Qed.

Lemma vec_assign_same {A} (l l' : list A) i x :
  vec_assign l i x = Ok l' -> lookup l' i = Some x.
Proof.
  unfold vec_assign, lookup. destruct (0 <=? i) eqn:Ei; [|discriminate].
  destruct (update l (Z.to_nat i) x) as [l1|] eqn:E; [|discriminate].
  intros [= <-]. cbn [andb].
  pose proof (update_same _ _ _ _ E) as Hn.
  assert (Hlt : (Z.to_nat i < List.length l1)%nat).
  { apply nth_error_Some. congruence. }
  apply Z.leb_le in Ei.
  assert (Hi : (i <? zlength l1) = true).
  { apply Z.ltb_lt. unfold zlength. lia. }
  now rewrite Hi.
Qed.

Lemma vec_assign_other {A} (l l' : list A) i j x :
  vec_assign l i x = Ok l' -> j <> i -> 0 <= j -> lookup l' j = lookup l j.
Proof.
  unfold vec_assign, lookup. destruct (0 <=? i) eqn:Ei; [|discriminate].
  destruct (update l (Z.to_nat i) x) as [l1|] eqn:E; [|discriminate].
  intros [= <-] Hj Hj0. apply Z.leb_le in Ei.
  unfold zlength. rewrite (update_length _ _ _ _ E).
  destruct ((0 <=? j) && (j <? Z.of_nat (List.length l))); [|reflexivity].
  apply (update_other _ _ _ _ _ E). lia.
Qed.

Lemma general_copy_row_major a n : row_major_copy_of a (general_copy a n).
Proof. repeat split. now exists n. Qed.

Lemma normalized_passed_or_copied a a' evs cs slot l :
  normalized is_matrix_contiguous a a' evs cs ->
  input_array slot l = Some a' ->
  (forall e, In e evs -> In e (before_dispatch l)) ->
  passed_or_copied a slot l.
Proof.
  intros [Hp | n Hp] Hin Hsub; split; intros Hq; try congruence.
  exists (general_copy a n). split; [apply general_copy_row_major|].
  split; [|assumption]. apply Hsub. right. left. reflexivity.
Qed.

Lemma vector_run_operands d sc inputs q_pre k_pre v_pre o o' s' :
  vector_run d sc inputs q_pre k_pre v_pre o o' s' ->
  exists st,
    (st = vector_single_pass \/ st = vector_two_pass) /\
    forall rest,
      let l := log s' ++ rest in
      selected l = Some st /\
      passed_or_copied k_pre 1 l /\
      passed_or_copied v_pre 2 l /\
      forall m, lookup inputs 3 = Some m ->
        input_array (mask_slot st) l = Some m /\
        exists s1 s2 s3,
          mask_stride m 1 = Ok s1 /\
          mask_stride m 2 = Ok s2 /\
          mask_stride m 3 = Ok s3 /\
          bytes_at (mask_slot st + 1) l = Some (of_int32_t s1) /\
          bytes_at (mask_slot st + 2) l = Some (of_int32_t s2) /\
          bytes_at (mask_slot st + 3) l = Some (of_int32_t s3).
Proof.
  intros [q k v eq ek ev out_evs launch_evs cq ck cv devc tp
            Nq Nk Nv Ho Hd Hr Hl Hlog Hc].
  exists (if tp then vector_two_pass else vector_single_pass).
  split; [destruct tp; auto|].
  intros rest l. subst l. rewrite Hlog, <- !app_assoc.
  pose proof (normalized_quiet _ _ _ _ _ Nq) as Qq.
  pose proof (normalized_quiet _ _ _ _ _ Nk) as Qk.
  pose proof (normalized_quiet _ _ _ _ _ Nv) as Qv.
  pose proof (vector_output_quiet _ _ _ _ Ho) as Qo.
  assert (Hbefore : forall e, In e ek \/ In e ev ->
            In e (before_dispatch
                    (eq ++ ek ++ ev ++ out_evs ++ launch_evs ++ rest))).
  { intros e He.
    rewrite (before_dispatch_quiet eq), (before_dispatch_quiet ek),
            (before_dispatch_quiet ev) by assumption.
    rewrite !in_app_iff. tauto. }
  assert (Hskip : forall idx,
            input_array idx (eq ++ ek ++ ev ++ out_evs ++ launch_evs ++ rest)
            = input_array idx (launch_evs ++ rest)).
  { intros idx.
    now rewrite (input_array_quiet idx eq), (input_array_quiet idx ek),
                (input_array_quiet idx ev), (input_array_quiet idx out_evs). }
  assert (Hskipb : forall idx,
            bytes_at idx (eq ++ ek ++ ev ++ out_evs ++ launch_evs ++ rest)
            = bytes_at idx (launch_evs ++ rest)).
  { intros idx.
    now rewrite (bytes_at_quiet idx eq), (bytes_at_quiet idx ek),
                (bytes_at_quiet idx ev), (bytes_at_quiet idx out_evs). }
  assert (Hsel : selected (eq ++ ek ++ ev ++ out_evs ++ launch_evs ++ rest)
                 = Some (if tp then vector_two_pass else vector_single_pass)).
  { unfold selected.
    rewrite (first_kernel_quiet eq), (first_kernel_quiet ek),
            (first_kernel_quiet ev), (first_kernel_quiet out_evs)
      by assumption.
    destruct tp; destruct Hl; reflexivity. }
  split; [exact Hsel|].
  split; [|split].
  - apply (normalized_passed_or_copied _ _ _ _ _ _ Nk); [|auto].
    rewrite Hskip. destruct tp; destruct Hl; reflexivity.
  - apply (normalized_passed_or_copied _ _ _ _ _ _ Nv); [|auto].
    rewrite Hskip. destruct tp; destruct Hl; reflexivity.
  - intros m Hm. rewrite Hm in Hl. rewrite !Hskip, !Hskipb.
    destruct tp; destruct Hl;
      match goal with
      | Hme : vector_mask_events _ (Some _) _ |- _ =>
          inversion Hme as [|m' s1 s2 s3 H1 H2 H3]; subst
      end;
      (split; [reflexivity|]);
      exists s1, s2, s3; repeat (split; [assumption|]);
      repeat split; reflexivity.
Qed.

Lemma full_run_operands d sc inputs q_pre k_pre v_pre o o' s' :
  full_run d sc inputs q_pre k_pre v_pre o o' s' ->
  forall rest,
    let l := log s' ++ rest in
    selected l = Some full_attention /\
    passed_or_copied k_pre 1 l /\
    passed_or_copied v_pre 2 l /\
    forall m_pre, lookup inputs 3 = Some m_pre ->
      passed_or_copied m_pre 6 l /\
      exists m s0 s1 s2,
        input_array 6 l = Some m /\
        strides_at m 0 = Ok s0 /\
        strides_at m 1 = Ok s1 /\
        strides_at m 2 = Ok s2 /\
        bytes_at 5 l
        = Some (of_AttnMaskParams (mkAttnMaskParams (s0, s1, s2))).
Proof.
  intros Hrun rest l.
  pose proof (full_run_selected _ _ _ _ _ _ _ _ _ Hrun rest) as Hsel.
  destruct Hrun as [q k v eq ek ev em launch_evs cq ck cv cm mask n
                      oh ol ob dsize Nq Nk Nv Hm Hlen Ho Hl Hlog Hc].
  subst l. split; [exact Hsel|]. clear Hsel.
  rewrite Hlog, <- !app_assoc.
  pose proof (normalized_quiet _ _ _ _ _ Nq) as Qq.
  pose proof (normalized_quiet _ _ _ _ _ Nk) as Qk.
  pose proof (normalized_quiet _ _ _ _ _ Nv) as Qv.
  assert (Qm : quiet em).
  { destruct (lookup inputs 3).
    - destruct Hm as (m & _ & Nm). eauto using normalized_quiet.
    - destruct Hm as (_ & -> & _). reflexivity. }
  set (oe := [Malloc (nbytes o) (allocated n);
              SetDataStrided o (allocated n) dsize [ob; oh; ol; 1]
                             (mkFlags true false false)]).
  assert (Qo : quiet oe) by reflexivity.
  assert (Hbefore : forall e, In e ek \/ In e ev \/ In e em ->
            In e (before_dispatch
                    (eq ++ ek ++ ev ++ oe ++ em ++ launch_evs ++ rest))).
  { intros e He.
    rewrite (before_dispatch_quiet eq), (before_dispatch_quiet ek),
            (before_dispatch_quiet ev), (before_dispatch_quiet oe),
            (before_dispatch_quiet em) by assumption.
    rewrite !in_app_iff. tauto. }
  assert (Hskip : forall idx,
            input_array idx (eq ++ ek ++ ev ++ oe ++ em ++ launch_evs ++ rest)
            = input_array idx (launch_evs ++ rest)).
  { intros idx.
    now rewrite (input_array_quiet idx eq), (input_array_quiet idx ek),
                (input_array_quiet idx ev), (input_array_quiet idx oe),
                (input_array_quiet idx em). }
  assert (Hskipb : forall idx,
            bytes_at idx (eq ++ ek ++ ev ++ oe ++ em ++ launch_evs ++ rest)
            = bytes_at idx (launch_evs ++ rest)).
  { intros idx.
    now rewrite (bytes_at_quiet idx eq), (bytes_at_quiet idx ek),
                (bytes_at_quiet idx ev), (bytes_at_quiet idx oe),
                (bytes_at_quiet idx em). }
  split; [|split].
  - apply (normalized_passed_or_copied _ _ _ _ _ _ Nk); [|auto].
    rewrite Hskip. destruct Hl; reflexivity.
  - apply (normalized_passed_or_copied _ _ _ _ _ _ Nv); [|auto].
    rewrite Hskip. destruct Hl; reflexivity.
  - intros m_pre Hmp. rewrite Hmp in Hm. destruct Hm as (m & -> & Nm).
    destruct Hl as [ql kl bd nrest hash consts p mask_evs _ _ _ _ Hme].
    inversion Hme as [|m' s0 s1 s2 H0 H1 H2]; subst.
    assert (Hin : input_array 6
                    (eq ++ ek ++ ev ++ oe ++ em ++
                     (SetComputePipelineState
                        (get_kernel
                           (lit "steel_attention_" :: type_to_name (dtype q)
                            :: lit "_bq" :: to_string tile_bq
                            :: lit "_bk" :: to_string (tile_bk bd) :: nrest)
                           "mlx" hash consts)
                      :: SetInputArray q 0 :: SetInputArray k 1
                      :: SetInputArray v 2
                      :: SetOutputArray
                           (full_output o n oh ol ob dsize) 3
                      :: SetBytes (of_AttnParams p) 4
                      :: [SetBytes
                            (of_AttnMaskParams
                               (mkAttnMaskParams (s0, s1, s2))) 5;
                          SetInputArray m 6] ++
                         [DispatchThreadgroups
                            (mtl_size (NQ p) (H p) (B p))
                            (mtl_size 32 4 1)]) ++ rest) = Some m).
    { rewrite Hskip. reflexivity. }
    split.
    + apply (normalized_passed_or_copied _ _ _ _ _ _ Nm); [exact Hin | auto].
    + exists m, s0, s1, s2. split; [exact Hin|].
      repeat (split; [assumption|]).
      rewrite Hskipb. reflexivity.
Qed.

Lemma to_int32_fits z : fits_int z = true -> to_int32 z = z.
Proof.
  unfold fits_int, to_int32, INT_MIN, INT_MAX. intros H.
  apply andb_prop in H as [H1 H2]. apply Z.leb_le in H1, H2.
  rewrite Z.mod_small by lia. lia.
Qed.

Lemma mask_stride_spec m k s :
  1 <= k -> mask_stride m k = Ok s -> s = to_int32 (broadcast_stride m k).
Proof.
  intros Hk. unfold mask_stride, broadcast_stride, rand, shape_at, vec_at,
               vec_index.
  cbn [rbind].
  assert (Hneg : (- k <? 0) = true) by (apply Z.ltb_lt; lia).
  rewrite Hneg.
  replace (- k + ndim m) with (ndim m - k) by lia.
  destruct (ndim m >=? k) eqn:Hnd.
  - destruct (lookup (shape m) (ndim m - k)) as [e|]; cbn [rbind];
      [|discriminate].
    destruct (e >? 1).
    + destruct (lookup (strides m) (ndim m - k)) as [st|]; cbn [rbind];
        [|discriminate].
      now intros [= <-].
    + cbn [rbind]. intros [= <-].
      destruct (lookup (strides m) (ndim m - k)); reflexivity.
  - cbn [rbind]. intros [= <-].
    assert (Hlt : ndim m - k < 0).
    { rewrite Z.geb_leb in Hnd. apply Z.leb_gt in Hnd. lia. }
    unfold lookup.
    assert (H0 : (0 <=? ndim m - k) = false) by (apply Z.leb_gt; lia).
    rewrite H0. reflexivity.
Qed.

(* ================================================================= *)
(** ** Where an evaluation has no defined outcome *)

Lemma normalized_copied_length predicate a a' evs cs :
  normalized predicate a a' evs cs ->
  predicate a = Ok false ->
  List.length cs = 1%nat.
Proof. intros [Hp | n Hp] Hf; [congruence | reflexivity]. Qed.

(** [copies.reserve(3)] leaves room for three elements.  When Q, K, V and
    the mask all need a copy in full mode, the fourth [push_back]
    reallocates the vector and the references [q], [k], [v] into it are
    dangling when the launch routine reads them. *)
Lemma four_copies_undefined d sc causal inputs out q_pre k_pre v_pre m lq :
  vec_index inputs 0 = Ok q_pre ->
  vec_index inputs 1 = Ok k_pre ->
  vec_index inputs 2 = Ok v_pre ->
  lookup inputs 3 = Some m ->
  shape_at q_pre 2 = Ok lq ->
  lq > 8 ->
  is_matrix_contiguous q_pre = Ok false ->
  is_matrix_contiguous k_pre = Ok false ->
  is_matrix_contiguous v_pre = Ok false ->
  is_matrix_contiguous m = Ok false ->
  forall o l, run d sc causal inputs out <> Ok (o, l).
Proof.
  intros Hq Hk Hv Hm Hlq Hfull Pq Pk Pv Pm o l Hrun.
  apply run_inv in Hrun.
  destruct (evaluation_operands _ _ _ _ _ _ _ _ Hrun Hq Hlq)
    as (k0 & v0 & s' & Hk0 & Hv0 & Hmode & _).
  rewrite Hk in Hk0. injection Hk0 as <-.
  rewrite Hv in Hv0. injection Hv0 as <-.
  assert (E : (lq <=? 8) = false) by (apply Z.leb_gt; lia).
  rewrite E in Hmode.
  destruct Hmode as [q k v eq ek ev em launch_evs cq ck cv cm mask n
                       oh ol ob dsize Nq Nk Nv Hmask Hlen _ _ _ _].
  rewrite Hm in Hmask. destruct Hmask as (m' & _ & Nm).
  rewrite !length_app in Hlen.
  rewrite (normalized_copied_length _ _ _ _ _ Nq Pq),
          (normalized_copied_length _ _ _ _ _ Nk Pk),
          (normalized_copied_length _ _ _ _ _ Nv Pv),
          (normalized_copied_length _ _ _ _ _ Nm Pm) in Hlen.
  cbn in Hlen. lia.
Qed.

Lemma four_copies_example :
  run Examples.small_device 0 false Examples.four_copies_inputs
      (Examples.masked_output 9) = Fault Undefined.
Proof. vm_compute. reflexivity. Qed.

(** The tile counts are computed in [int]: [qL + bq - 1] must not pass
    [INT_MAX]. *)
Lemma full_mode_range d sc causal inputs out o l q_pre k_pre lq lk bd :
  run d sc causal inputs out = Ok (o, l) ->
  vec_index inputs 0 = Ok q_pre ->
  vec_index inputs 1 = Ok k_pre ->
  shape_at q_pre 2 = Ok lq ->
  lq > 8 ->
  shape_at k_pre 2 = Ok lk ->
  shape_at q_pre (-1) = Ok bd ->
  lq + tile_bq <= INT_MAX /\ lk + tile_bk bd <= INT_MAX.
Proof.
  intros Hrun Hq Hk Hlq Hfull Hlk Hbd. apply run_inv in Hrun.
  destruct (evaluation_operands _ _ _ _ _ _ _ _ Hrun Hq Hlq)
    as (k0 & v_pre & s' & Hk0 & _ & Hmode & _).
  rewrite Hk in Hk0. injection Hk0 as <-.
  assert (E : (lq <=? 8) = false) by (apply Z.leb_gt; lia).
  rewrite E in Hmode.
  apply full_run_params in Hmode
    as (p & ql & kl & bd0 & t & rest & hash & consts
        & Hql & Hkl & Hbd0 & Ht & _).
  rewrite Hlq in Hql. injection Hql as <-.
  rewrite Hlk in Hkl. injection Hkl as <-.
  rewrite Hbd in Hbd0. injection Hbd0 as <-.
  destruct Ht. auto.
Qed.

Lemma longest_query_example :
  run Examples.small_device 0 false Examples.longest_inputs
      Examples.longest_output = Fault Undefined.
Proof. vm_compute. reflexivity. Qed.

(** Full mode does read the causal flag. *)
Lemma full_mode_reads_causal :
  run Examples.small_device 0 true Examples.prefill_inputs
      Examples.prefill_output
  <> run Examples.small_device 0 false Examples.prefill_inputs
         Examples.prefill_output.
Proof. vm_compute. discriminate. Qed.

(* ================================================================= *)
(** ** Where an evaluation is defined *)

Lemma int_of_ok z : INT_MIN <= z <= INT_MAX -> int_of z = Ok z.
Proof.
  intros [H1 H2]. unfold int_of, fits_int.
  apply Z.leb_le in H1, H2. now rewrite H1, H2.
Qed.

Lemma int64_of_ok z : INT64_MIN <= z <= INT64_MAX -> int64_of z = Ok z.
Proof.
  intros [H1 H2]. unfold int64_of, fits_int64.
  apply Z.leb_le in H1, H2. now rewrite H1, H2.
Qed.

Lemma int_div_ok a b :
  0 <= a <= INT_MAX -> 0 < b -> int_div a b = Ok (Z.quot a b).
Proof.
  intros Ha Hb. unfold int_div.
  assert (E : (b =? 0) = false) by (apply Z.eqb_neq; lia). rewrite E.
  apply int_of_ok. rewrite Z.quot_div_nonneg by lia.
  pose proof (Z.div_pos a b ltac:(lia) Hb).
  pose proof (Z.div_le_upper_bound a b a Hb ltac:(nia)).
  unfold INT_MIN, INT_MAX in *. lia.
Qed.

Lemma int_rem_ok a b :
  0 <= a <= INT_MAX -> 0 < b -> int_rem a b = Ok (Z.rem a b).
Proof.
  intros Ha Hb. unfold int_rem.
  assert (E : (b =? 0) = false) by (apply Z.eqb_neq; lia). rewrite E.
  assert (F : fits_int (Z.quot a b) = true).
  { pose proof (int_div_ok a b Ha Hb) as H. unfold int_div in H.
    rewrite E in H. unfold int_of in H.
    destruct (fits_int (Z.quot a b)); [reflexivity | discriminate]. }
  now rewrite F.
Qed.

Lemma bind_ok {A B} (m : M A) (k : A -> M B) s a s1 :
  m s = Ok (a, s1) -> bind m k s = k a s1.
Proof. intros E. unfold bind. now rewrite E. Qed.

Lemma copy_unless_keep predicate a s :
  predicate a = Ok true -> copy_unless predicate a s = Ok (ref_array a, s).
Proof. intros E. unfold copy_unless, bind, lift. now rewrite E. Qed.

Ltac monad_eval :=
  cbv beta iota zeta delta
      [reserved bind lift ret emit rbind allocator_malloc malloc_data
       set_compute_pipeline_state set_input_array set_output_array
       set_bytes dispatch_threadgroups add_temporary add_temporaries
       copies copies_capacity copies_epoch next_buffer log].

(** What a handle of four axes answers when asked for an extent or a
    stride. *)
Lemma shape_at_four a x0 x1 x2 x3 :
  shape a = [x0; x1; x2; x3] ->
  shape_at a 0 = Ok x0 /\ shape_at a 1 = Ok x1 /\ shape_at a 2 = Ok x2 /\
  shape_at a 3 = Ok x3 /\ shape_at a (-1) = Ok x3.
Proof.
  intros H. unfold shape_at, ndim. rewrite H. repeat split; reflexivity.
Qed.

Lemma strides_four a x0 x1 x2 x3 :
  shape a = [x0; x1; x2; x3] ->
  strides a = row_major (shape a) ->
  strides a = [x1 * (x2 * (x3 * 1)); x2 * (x3 * 1); x3 * 1; 1].
Proof. intros H ->. rewrite H. reflexivity. Qed.

Lemma strides_at_four a s0 s1 s2 s3 :
  strides a = [s0; s1; s2; s3] ->
  strides_at a 0 = Ok s0 /\ strides_at a 1 = Ok s1 /\ strides_at a 2 = Ok s2.
Proof.
  intros H. unfold strides_at. rewrite H. repeat split; reflexivity.
Qed.

Section DenseCall.

Variables (d : Device) (c : ascii) (sc : float).
Variables (nb nh nhk lq lk dq dv : Z).
Variables (q k v o : array).
Hypothesis Hc : string_back (get_architecture d) = Some c.
Hypothesis Hnb : 1 <= nb <= 1024.
Hypothesis Hnh : 1 <= nh <= 1024.
Hypothesis Hnhk : 1 <= nhk <= 1024.
Hypothesis Hdq : 1 <= dq <= 1024.
Hypothesis Hdv : 1 <= dv <= 1024.
Hypothesis Hlq : 1 <= lq <= 1073741824.
Hypothesis Hlk : 1 <= lk <= 1073741824.
Hypothesis Hq : shape q = [nb; nh; lq; dq].
Hypothesis Hk : shape k = [nb; nhk; lk; dq].
Hypothesis Hv : shape v = [nb; nhk; lk; dv].
Hypothesis Ho : shape o = [nb; nh; lq; dv].
Hypothesis Sq : strides q = row_major (shape q).
Hypothesis Sk : strides k = row_major (shape k).
Hypothesis Sv : strides v = row_major (shape v).
Hypothesis So : strides o = row_major (shape o).
Hypothesis Fq : row_contiguous (flags q) = true.

Ltac operand_reads :=
  destruct (shape_at_four _ _ _ _ _ Hq) as (Q0 & Q1 & Q2 & Q3 & Ql);
  destruct (shape_at_four _ _ _ _ _ Hk) as (K0 & K1 & K2 & K3 & Kl);
  destruct (shape_at_four _ _ _ _ _ Hv) as (V0 & V1 & V2 & V3 & Vl);
  pose proof (strides_four _ _ _ _ _ Hq Sq) as Eq;
  pose proof (strides_four _ _ _ _ _ Hk Sk) as Ek;
  pose proof (strides_four _ _ _ _ _ Hv Sv) as Ev;
  destruct (strides_at_four _ _ _ _ _ Eq) as (Tq0 & Tq1 & Tq2);
  destruct (strides_at_four _ _ _ _ _ Ek) as (Tk0 & Tk1 & Tk2);
  destruct (strides_at_four _ _ _ _ _ Ev) as (Tv0 & Tv1 & Tv2).

Lemma sdpa_vector_dense out s :
  exists s', sdpa_vector d q k v out sc None s = Ok (tt, s').
Proof.
  operand_reads. unfold sdpa_vector.
  rewrite ?Ql, ?Vl, ?Q0, ?Q1, ?Q2, ?K1, ?K2, Ek, Ev.
  change (vec_index [nhk * (lk * (dq * 1)); lk * (dq * 1); dq * 1; 1] 1)
    with (Ok (A := Z) (lk * (dq * 1))).
  change (vec_index [nhk * (lk * (dq * 1)); lk * (dq * 1); dq * 1; 1] 2)
    with (Ok (A := Z) (dq * 1)).
  change (vec_index [nhk * (lk * (dv * 1)); lk * (dv * 1); dv * 1; 1] 1)
    with (Ok (A := Z) (lk * (dv * 1))).
  change (vec_index [nhk * (lk * (dv * 1)); lk * (dv * 1); dv * 1; 1] 2)
    with (Ok (A := Z) (dv * 1)).
  cbv beta iota delta [rbind int_mul].
  rewrite int_div_ok by (unfold INT_MAX; lia).
  rewrite int_of_ok by (unfold INT_MIN, INT_MAX; nia).
  monad_eval. eexists. reflexivity.
Qed.

Lemma sdpa_vector_2pass_dense out s a b c0 e :
  shape out = [a; b; c0; e] ->
  exists s', sdpa_vector_2pass d q k v out sc None s = Ok (tt, s').
Proof.
  intros Hout. operand_reads.
  unfold sdpa_vector_2pass, vec_init, vec_back. rewrite Hout.
  rewrite ?Ql, ?Vl, ?Q0, ?Q1, ?Q2, ?K1, ?K2, Ek, Ev.
  change (vec_index [nhk * (lk * (dq * 1)); lk * (dq * 1); dq * 1; 1] 1)
    with (Ok (A := Z) (lk * (dq * 1))).
  change (vec_index [nhk * (lk * (dq * 1)); lk * (dq * 1); dq * 1; 1] 2)
    with (Ok (A := Z) (dq * 1)).
  change (vec_index [nhk * (lk * (dv * 1)); lk * (dv * 1); dv * 1; 1] 1)
    with (Ok (A := Z) (lk * (dv * 1))).
  change (vec_index [nhk * (lk * (dv * 1)); lk * (dv * 1); dv * 1; 1] 2)
    with (Ok (A := Z) (dv * 1)).
  cbv beta iota delta [rbind int_mul rev app removelast].
  rewrite int_div_ok by (unfold INT_MAX; lia).
  rewrite int_of_ok by (unfold INT_MIN, INT_MAX; nia).
  monad_eval. eexists. reflexivity.
Qed.

Lemma sdpa_full_dense out causal s o0 o1 o2 o3 :
  strides out = [o0; o1; o2; o3] ->
  exists s', sdpa_full_self_attention_metal d q k v sc out causal None s
             = Ok (tt, s').
Proof.
  intros Hout. operand_reads.
  destruct (strides_at_four _ _ _ _ _ Hout) as (To0 & To1 & To2).
  unfold sdpa_full_self_attention_metal.
  rewrite ?Ql, ?Q0, ?Q1, ?Q2, ?Q3, ?K1, ?K2,
    ?Tq0, ?Tq1, ?Tq2, ?Tk0, ?Tk1, ?Tk2, ?Tv0, ?Tv1, ?Tv2, ?To0, ?To1, ?To2.
  assert (Hq32 : 0 <= Z.quot lq 32 * 32 <= lq).
  { rewrite Z.quot_div_nonneg by lia.
    pose proof (Z.mul_div_le lq 32 ltac:(lia)).
    pose proof (Z.div_pos lq 32 ltac:(lia) ltac:(lia)). lia. }
  assert (Hk32 : 0 <= Z.quot lk 32 * 32 <= lk).
  { rewrite Z.quot_div_nonneg by lia.
    pose proof (Z.mul_div_le lk 32 ltac:(lia)).
    pose proof (Z.div_pos lk 32 ltac:(lia) ltac:(lia)). lia. }
  assert (Hk16 : 0 <= Z.quot lk 16 * 16 <= lk).
  { rewrite Z.quot_div_nonneg by lia.
    pose proof (Z.mul_div_le lk 16 ltac:(lia)).
    pose proof (Z.div_pos lk 16 ltac:(lia) ltac:(lia)). lia. }
  destruct (dq <? 128) eqn:Ebd;
    repeat (progress
              (monad_eval;
               cbv beta iota delta [rbind int_mul int_add int_sub];
               rewrite ?Ebd;
               rewrite ?int_div_ok by (unfold INT_MAX; lia);
               rewrite ?int_rem_ok by (unfold INT_MAX; lia);
               rewrite ?int_of_ok by (unfold INT_MIN, INT_MAX; lia)));
    eexists; reflexivity.
Qed.

(** Lines 380-396 on a dense query, donated or not. *)
Lemma donate_or_allocate_dense s :
  exists o' s',
    donate_or_allocate q o s = Ok (o', s') /\
    shape o' = [nb; nh; lq; dv].
Proof.
  operand_reads.
  destruct (shape_at_four _ _ _ _ _ Ho) as (O0 & O1 & O2 & O3 & Ol).
  pose proof (strides_four _ _ _ _ _ Ho So) as Eo.
  unfold donate_or_allocate.
  rewrite ?Q1, ?Q2, ?O1, ?O2, ?O3, Fq, Eo.
  cbv beta iota delta [rand ror rbind int_mul negb].
  destruct (is_donatable q); destruct (lq =? 1) eqn:El;
    destruct (size q =? size o); cbv beta iota;
    rewrite ?int_of_ok by (unfold INT_MIN, INT_MAX; nia);
    monad_eval; rewrite ?El;
    try change (vec_assign [nh * (lq * (dv * 1)); lq * (dv * 1); dv * 1; 1]
                           2 (nh * dv))
      with (Ok [nh * (lq * (dv * 1)); lq * (dv * 1); nh * dv; 1]);
    monad_eval;
    try change (vec_assign [nh * (lq * (dv * 1)); lq * (dv * 1); nh * dv; 1]
                           1 dv)
      with (Ok [nh * (lq * (dv * 1)); dv; nh * dv; 1]);
    monad_eval;
    eexists _, _; (split; [reflexivity | exact Ho]).
Qed.

Lemma operands_pass :
  is_contiguous_or_head_seq_transposed q = Ok true /\
  is_matrix_contiguous q = Ok true /\
  is_matrix_contiguous k = Ok true /\
  is_matrix_contiguous v = Ok true.
Proof.
  unfold is_contiguous_or_head_seq_transposed, is_matrix_contiguous,
    strides_at, ndim.
  rewrite Fq, (strides_four _ _ _ _ _ Hq Sq), (strides_four _ _ _ _ _ Hk Sk),
    (strides_four _ _ _ _ _ Hv Sv), Hq, Hk, Hv.
  repeat split; reflexivity.
Qed.

Lemma vector_mode_dense :
  exists o' s', vector_mode d sc [q; k; v] q k v o reserved = Ok (o', s').
Proof.
  destruct operands_pass as (Pq & _ & Pk & Pv).
  destruct (shape_at_four _ _ _ _ _ Hq) as (_ & Q1 & _).
  destruct (shape_at_four _ _ _ _ _ Hk) as (_ & K1 & K2 & _).
  unfold vector_mode.
  rewrite (bind_ok _ _ _ _ _ (copy_unless_keep _ q _ Pq)).
  rewrite (bind_ok _ _ _ _ _ (copy_unless_keep _ k _ Pk)).
  rewrite (bind_ok _ _ _ _ _ (copy_unless_keep _ v _ Pv)).
  cbv beta iota delta [bind deref].
  destruct (donate_or_allocate_dense reserved) as (o' & s1 & -> & Hsh).
  change (zlength [q; k; v] >? 3) with false.
  rewrite Hc. cbv beta iota delta [lift].
  rewrite (route_2pass_eq c q k nh nhk lk Q1 K1 K2).
  cbv beta iota.
  destruct ((Ascii.eqb c "d" && (lk >=? 1024)) || ((nhk <? nh) && (lk >=? 4096))).
  - destruct (sdpa_vector_2pass_dense o' s1 _ _ _ _ Hsh) as (s2 & ->).
    eexists _, _. reflexivity.
  - destruct (sdpa_vector_dense o' s1) as (s2 & ->).
    eexists _, _. reflexivity.
Qed.

Lemma full_mode_dense causal :
  exists o' s',
    full_mode d sc causal [q; k; v] q k v o reserved = Ok (o', s').
Proof.
  destruct operands_pass as (_ & Pq & Pk & Pv).
  destruct (shape_at_four _ _ _ _ _ Ho) as (O0 & O1 & O2 & O3 & _).
  unfold full_mode.
  rewrite (bind_ok _ _ _ _ _ (copy_unless_keep _ q _ Pq)).
  rewrite (bind_ok _ _ _ _ _ (copy_unless_keep _ k _ Pk)).
  rewrite (bind_ok _ _ _ _ _ (copy_unless_keep _ v _ Pv)).
  rewrite ?O0, ?O1, ?O2, ?O3.
  change (zlength [q; k; v] >? 3) with false.
  assert (H1 : 0 <= nh * dv <= 1048576) by nia.
  assert (H2 : 0 <= lq * (nh * dv) <= 1125899906842624) by nia.
  assert (H3 : 0 <= nb * (lq * (nh * dv)) <= 1152921504606846976) by nia.
  repeat (progress
            (monad_eval;
             cbv beta iota delta [rbind int64_mul deref];
             rewrite ?int64_of_ok by (unfold INT64_MIN, INT64_MAX; lia))).
  match goal with
  | |- context [sdpa_full_self_attention_metal d q k v sc ?o1 causal None ?s1] =>
      destruct (sdpa_full_dense o1 causal s1 _ _ _ _ eq_refl) as (s2 & ->)
  end.
  eexists _, _. reflexivity.
Qed.

(** Every call on densely packed operands of moderate extents, without a
    mask, on a device whose architecture string is not empty, evaluates. *)
Theorem dense_call_defined causal :
  exists o' l, run d sc causal [q; k; v] o = Ok (o', l).
Proof.
  destruct (shape_at_four _ _ _ _ _ Hq) as (_ & _ & Q2 & _).
  unfold run, eval_gpu.
  change (vec_index [q; k; v] 0) with (Ok q).
  change (vec_index [q; k; v] 1) with (Ok k).
  change (vec_index [q; k; v] 2) with (Ok v).
  cbv beta iota delta [bind lift reserve initial copies_capacity Nat.leb
                       copies copies_epoch next_buffer log].
  rewrite Q2. cbv beta iota.
  destruct (lq <=? 8).
  - destruct vector_mode_dense as (o' & s' & E).
    change reserved with (mkState [] 3 1 0 []) in E. rewrite E.
    eexists _, _. reflexivity.
  - destruct (full_mode_dense causal) as (o' & s' & E).
    change reserved with (mkState [] 3 1 0 []) in E. rewrite E.
    eexists _, _. reflexivity.
Qed.

End DenseCall.

(* ================================================================= *)
(** * The claims *)

(* ================================================================= *)
(** ** Strategy selection *)

(** C1.  The dispatcher selects vector mode exactly when the query length
    (the third extent of the query) is at most 8 and full mode exactly when
    it is greater than 8; in particular 8 selects vector mode and 9 selects
    full mode. *)
Theorem mode_selection d sc causal inputs out o l q_pre lq :
  run d sc causal inputs out = Ok (o, l) ->
  vec_index inputs 0 = Ok q_pre ->
  shape_at q_pre 2 = Ok lq ->
  (vector_mode_selected l <-> lq <= 8) /\
  (full_mode_selected l <-> lq > 8) /\
  (lq = 8 -> vector_mode_selected l) /\
  (lq = 9 -> full_mode_selected l).
Proof.
  intros Hrun Hq Hl. apply run_inv in Hrun.
  destruct (evaluation_operands _ _ _ _ _ _ _ _ Hrun Hq Hl)
    as (k_pre & v_pre & s' & _ & _ & Hmode & ->).
  unfold vector_mode_selected, full_mode_selected.
  destruct (lq <=? 8) eqn:E.
  - apply Z.leb_le in E.
    apply vector_run_selected in Hmode as (devc & tp & _ & _ & Hsel).
    rewrite Hsel.
    assert (Hv : Some (if tp then vector_two_pass else vector_single_pass)
                 = Some vector_single_pass \/
                 Some (if tp then vector_two_pass else vector_single_pass)
                 = Some vector_two_pass) by (destruct tp; auto).
    split; [split; [lia | auto] |].
    split; [split; [destruct tp; discriminate | lia] |].
    split; [auto | lia].
  - apply Z.leb_gt in E.
    rewrite (full_run_selected _ _ _ _ _ _ _ _ _ Hmode).
    split; [split; [intros [H | H]; discriminate | lia] |].
    split; [split; [lia | reflexivity] |].
    split; [lia | reflexivity].
Qed.

Lemma mode_selection_witness :
  exists o8 l8 o9 l9,
    run Examples.small_device 0 false (Examples.inputs_of_length 8)
        (Examples.output_of_length 8) = Ok (o8, l8) /\
    vector_mode_selected l8 /\
    run Examples.small_device 0 false (Examples.inputs_of_length 9)
        (Examples.output_of_length 9) = Ok (o9, l9) /\
    full_mode_selected l9.
Proof.
  eexists _, _, _, _.
  destruct (mode_selection Examples.small_device 0 false
              (Examples.inputs_of_length 8) (Examples.output_of_length 8)
              _ _ (Examples.dense [1; 1; 8; 64] 0) 8
              ltac:(vm_compute; reflexivity) ltac:(reflexivity)
              ltac:(reflexivity)) as (_ & _ & H8 & _).
  destruct (mode_selection Examples.small_device 0 false
              (Examples.inputs_of_length 9) (Examples.output_of_length 9)
              _ _ (Examples.dense [1; 1; 9; 64] 0) 9
              ltac:(vm_compute; reflexivity) ltac:(reflexivity)
              ltac:(reflexivity)) as (_ & _ & _ & H9).
  split; [vm_compute; reflexivity|]. split; [exact (H8 eq_refl)|].
  split; [vm_compute; reflexivity | exact (H9 eq_refl)].
Defined.

(** C2.  In vector mode the two-pass routine is launched if and only if
    the device is of the high-capacity class and the key length is at least
    1024, or there are fewer key/value heads than query heads and the key
    length is at least 4096; otherwise the single-pass routine is launched.
    For H = Hk = 1 and Lk = 2048 that is the two-pass routine on a
    high-capacity device and the single-pass routine on any other. *)
Theorem two_pass_selection d sc causal inputs out o l q_pre k_pre lq h hk lk :
  run d sc causal inputs out = Ok (o, l) ->
  vec_index inputs 0 = Ok q_pre ->
  vec_index inputs 1 = Ok k_pre ->
  shape_at q_pre 2 = Ok lq ->
  lq <= 8 ->
  shape_at q_pre 1 = Ok h ->
  shape_at k_pre 1 = Ok hk ->
  shape_at k_pre 2 = Ok lk ->
  (selected l = Some vector_two_pass <->
   (high_capacity d /\ lk >= 1024) \/ (hk < h /\ lk >= 4096)) /\
  (selected l = Some vector_single_pass <->
   ~ ((high_capacity d /\ lk >= 1024) \/ (hk < h /\ lk >= 4096))) /\
  (h = 1 -> hk = 1 -> lk = 2048 ->
   (high_capacity d -> selected l = Some vector_two_pass) /\
   (~ high_capacity d -> selected l = Some vector_single_pass)).
Proof.
  intros Hrun Hq Hk Hlq Hvec Hh Hhk Hlk. apply run_inv in Hrun.
  destruct (evaluation_operands _ _ _ _ _ _ _ _ Hrun Hq Hlq)
    as (k0 & v_pre & s' & Hk0 & _ & Hmode & ->).
  rewrite Hk in Hk0. injection Hk0 as <-.
  apply Z.leb_le in Hvec. rewrite Hvec in Hmode.
  apply vector_run_selected in Hmode as (devc & tp & Hd & Hr & Hsel).
  rewrite Hsel. rewrite (route_2pass_eq _ _ _ _ _ _ Hh Hhk Hlk) in Hr.
  injection Hr as Hr.
  assert (Hcap : high_capacity d <-> Ascii.eqb devc "d" = true).
  { unfold high_capacity. rewrite Hd, Ascii.eqb_eq.
    split; [now intros [= ->] | now intros ->]. }
  assert (Htp : tp = true <->
                (high_capacity d /\ lk >= 1024) \/ (hk < h /\ lk >= 4096)).
  { rewrite <- Hr, orb_true_iff, !andb_true_iff, !geb_ge, Z.ltb_lt, Hcap.
    reflexivity. }
  split; [|split].
  - rewrite <- Htp. destruct tp; split; intros; congruence.
  - rewrite <- Htp. destruct tp; split; intros; congruence.
  - intros -> -> ->. split.
    + intros Hc. assert (tp = true) as -> by (apply Htp; left; split; [auto|lia]).
      reflexivity.
    + intros Hc. destruct tp; [|reflexivity].
      destruct (proj1 Htp eq_refl) as [[? _] | [? _]]; [contradiction | lia].
Qed.

Lemma two_pass_selection_witness :
  exists o1 l1 o2 l2 o3 l3,
    run Examples.large_device 0 false Examples.decode_inputs
        Examples.decode_output = Ok (o1, l1) /\
    selected l1 = Some vector_two_pass /\
    run Examples.small_device 0 false Examples.decode_inputs
        Examples.decode_output = Ok (o2, l2) /\
    selected l2 = Some vector_single_pass /\
    run Examples.small_device 0 false
        [Examples.dense [1; 2; 1; 64] 0; Examples.dense [1; 1; 4096; 64] 1;
         Examples.dense [1; 1; 4096; 64] 2]
        (Examples.output [1; 2; 1; 64]) = Ok (o3, l3) /\
    selected l3 = Some vector_two_pass.
Proof.
  eexists _, _, _, _, _, _.
  destruct (two_pass_selection Examples.large_device 0 false
              Examples.decode_inputs Examples.decode_output
              _ _ (Examples.dense [1; 1; 1; 64] 0)
              (Examples.dense [1; 1; 2048; 64] 1) 1 1 1 2048
              ltac:(vm_compute; reflexivity) ltac:(reflexivity)
              ltac:(reflexivity) ltac:(reflexivity) ltac:(lia)
              ltac:(reflexivity) ltac:(reflexivity) ltac:(reflexivity))
    as ([_ Htwo] & _ & _).
  destruct (two_pass_selection Examples.small_device 0 false
              Examples.decode_inputs Examples.decode_output
              _ _ (Examples.dense [1; 1; 1; 64] 0)
              (Examples.dense [1; 1; 2048; 64] 1) 1 1 1 2048
              ltac:(vm_compute; reflexivity) ltac:(reflexivity)
              ltac:(reflexivity) ltac:(reflexivity) ltac:(lia)
              ltac:(reflexivity) ltac:(reflexivity) ltac:(reflexivity))
    as (_ & [_ Hone] & _).
  destruct (two_pass_selection Examples.small_device 0 false
              [Examples.dense [1; 2; 1; 64] 0;
               Examples.dense [1; 1; 4096; 64] 1;
               Examples.dense [1; 1; 4096; 64] 2]
              (Examples.output [1; 2; 1; 64])
              _ _ (Examples.dense [1; 2; 1; 64] 0)
              (Examples.dense [1; 1; 4096; 64] 1) 1 2 1 4096
              ltac:(vm_compute; reflexivity) ltac:(reflexivity)
              ltac:(reflexivity) ltac:(reflexivity) ltac:(lia)
              ltac:(reflexivity) ltac:(reflexivity) ltac:(reflexivity))
    as ([_ Hgqa] & _ & _).
  split; [vm_compute; reflexivity|]. split.
  { apply Htwo. left. split; [reflexivity | lia]. }
  split; [vm_compute; reflexivity|]. split.
  { apply Hone. intros [[Hcap _] | [Hlt _]]; [|lia].
    vm_compute in Hcap. discriminate. }
  split; [vm_compute; reflexivity|].
  apply Hgqa. right. lia.
Defined.

(** C8.  For a fixed device class and fixed head counts the two-pass test
    is monotone in the key length: selected at length [n], it is selected
    at every length [n' >= n]. *)
Theorem two_pass_monotone devc q k k' n n' :
  shape_at k' 1 = shape_at k 1 ->
  shape_at k 2 = Ok n ->
  shape_at k' 2 = Ok n' ->
  n <= n' ->
  route_2pass devc q k = Ok true ->
  route_2pass devc q k' = Ok true.
Proof.
  intros Hheads Hn Hn' Hle. unfold route_2pass, rand, ror.
  rewrite Hheads, Hn, Hn'. cbn [rbind].
  assert (H1 : (n >=? 1024) = true -> (n' >=? 1024) = true).
  { rewrite !geb_ge. lia. }
  assert (H2 : (n >=? 4096) = true -> (n' >=? 4096) = true).
  { rewrite !geb_ge. lia. }
  destruct (Ascii.eqb devc "d"); cbn [rbind].
  - destruct (n >=? 1024); cbn [rbind].
    + rewrite H1 by reflexivity. reflexivity.
    + destruct (n' >=? 1024); cbn [rbind]; [reflexivity|].
      destruct (shape_at k 1) as [hk|]; cbn [rbind]; [|discriminate].
      destruct (shape_at q 1) as [h|]; cbn [rbind]; [|discriminate].
      destruct (hk <? h); [|discriminate].
      destruct (n >=? 4096); [|discriminate].
      rewrite H2 by reflexivity. reflexivity.
  - destruct (shape_at k 1) as [hk|]; cbn [rbind]; [|discriminate].
    destruct (shape_at q 1) as [h|]; cbn [rbind]; [|discriminate].
    destruct (hk <? h); [|discriminate].
    destruct (n >=? 4096); [|discriminate].
    rewrite H2 by reflexivity. reflexivity.
Qed.

Lemma two_pass_monotone_witness :
  route_2pass "d" (Examples.dense [1; 1; 1; 64] 0)
              (Examples.dense [1; 1; 4096; 64] 1) = Ok true.
Proof.
  apply (two_pass_monotone "d" (Examples.dense [1; 1; 1; 64] 0)
           (Examples.dense [1; 1; 2048; 64] 1)
           (Examples.dense [1; 1; 4096; 64] 1) 2048 4096).
  - reflexivity.
  - reflexivity.
  - reflexivity.
  - vm_compute; discriminate.
  - reflexivity.
Defined.

(** C10.  In vector mode the evaluation does not depend on the causal flag:
    two calls that differ only in it make the same calls in the same order
    and populate the output alike (and fail alike). *)
Theorem vector_mode_ignores_causal d sc inputs out q_pre lq c1 c2 :
  vec_index inputs 0 = Ok q_pre ->
  shape_at q_pre 2 = Ok lq ->
  lq <= 8 ->
  run d sc c1 inputs out = run d sc c2 inputs out.
Proof.
  intros Hq Hl Hv. apply Z.leb_le in Hv.
  unfold run, eval_gpu, bind, lift. rewrite Hq.
  destruct (vec_index inputs 1) as [k_pre|]; [|reflexivity].
  destruct (vec_index inputs 2) as [v_pre|]; [|reflexivity].
  cbn [reserve initial copies_capacity Nat.leb].
  rewrite Hl, Hv. reflexivity.
Qed.

Lemma vector_mode_ignores_causal_witness :
  run Examples.small_device 0 true Examples.decode_inputs
      Examples.decode_output
  = run Examples.small_device 0 false Examples.decode_inputs
        Examples.decode_output.
Proof.
  apply (vector_mode_ignores_causal Examples.small_device 0
           Examples.decode_inputs Examples.decode_output
           (Examples.dense [1; 1; 1; 64] 0) 1 true false).
  - reflexivity.
  - reflexivity.
  - vm_compute; discriminate.
Defined.

(* ================================================================= *)
(** ** The parameter block of the tiled kernel *)

(** C3.  In full mode the tiles are bq = 32 by bk = 32 (head dimension
    below 128) or 16, and the parameter block bound at slot 4 carries
    NQ = ceil(Lq/bq), NK = ceil(Lk/bk), NQ_aligned = floor(Lq/bq),
    NK_aligned = floor(Lk/bk), qL_rem = Lq - NQ_aligned*bq,
    kL_rem = Lk - NK_aligned*bk and qL_off = Lk - Lq.  For Lq = Lk = 50 and
    head dimension 128: NQ = 2, NK = 4, qL_rem = 18, kL_rem = 2,
    qL_off = 0. *)
Theorem tile_parameters d sc causal inputs out o l q_pre k_pre lq lk bd :
  run d sc causal inputs out = Ok (o, l) ->
  vec_index inputs 0 = Ok q_pre ->
  vec_index inputs 1 = Ok k_pre ->
  shape_at q_pre 2 = Ok lq ->
  lq > 8 ->
  shape_at k_pre 2 = Ok lk ->
  0 <= lk ->
  shape_at q_pre (-1) = Ok bd ->
  let bq := 32 in
  let bk := if bd <? 128 then 32 else 16 in
  exists p,
    bytes_at 4 l = Some (of_AttnParams p) /\
    (exists t rest hash consts,
        first_kernel l
        = Some (get_kernel
                  (lit "steel_attention_" :: type_to_name t
                   :: lit "_bq" :: to_string bq
                   :: lit "_bk" :: to_string bk :: rest)
                  "mlx" hash consts)) /\
    NQ p = ceil_div lq bq /\
    NK p = ceil_div lk bk /\
    NQ_aligned p = floor_div lq bq /\
    NK_aligned p = floor_div lk bk /\
    qL_rem p = lq - NQ_aligned p * bq /\
    kL_rem p = lk - NK_aligned p * bk /\
    qL_off p = lk - lq /\
    (lq = 50 -> lk = 50 -> bd = 128 ->
     NQ p = 2 /\ NK p = 4 /\ qL_rem p = 18 /\ kL_rem p = 2 /\ qL_off p = 0).
Proof.
  intros Hrun Hq Hk Hlq Hfull Hlk Hnn Hbd bq bk. apply run_inv in Hrun.
  destruct (evaluation_operands _ _ _ _ _ _ _ _ Hrun Hq Hlq)
    as (k0 & v_pre & s' & Hk0 & _ & Hmode & ->).
  rewrite Hk in Hk0. injection Hk0 as <-.
  assert (E : (lq <=? 8) = false) by (apply Z.leb_gt; lia).
  rewrite E in Hmode.
  apply full_run_params in Hmode
    as (p & ql & kl & bd0 & t & rest & hash & consts
        & Hql & Hkl & Hbd0 & Ht & Hobs).
  rewrite Hlq in Hql. injection Hql as <-.
  rewrite Hlk in Hkl. injection Hkl as <-.
  rewrite Hbd in Hbd0. injection Hbd0 as <-.
  destruct (Hobs [AddTemporaries (copies s')]) as [Hbytes Hkern].
  destruct Ht as [_ _ _ _ HNQ HNK HNQa HNKa Hqr Hkr Hoff].
  fold bk in HNK, HNKa, Hkr. change (tile_bk bd) with bk in *.
  change tile_bq with bq in *.
  assert (Hbk : 0 < bk) by apply tile_bk_pos.
  rewrite quot_ceil in HNQ, HNK by (subst bq; lia).
  rewrite quot_floor in HNQa, HNKa by (subst bq; lia).
  exists p. split; [exact Hbytes|].
  split; [exists t, rest, hash, consts; exact Hkern|].
  repeat (split; [assumption|]).
  intros -> -> ->.
  rewrite Hqr, Hkr, Hoff, HNQ, HNK, HNQa, HNKa.
  subst bq bk. repeat split; reflexivity.
Qed.

Lemma tile_parameters_witness :
  exists o l p,
    run Examples.small_device 0 true Examples.prefill_inputs
        Examples.prefill_output = Ok (o, l) /\
    bytes_at 4 l = Some (of_AttnParams p) /\
    NQ p = 2 /\ NK p = 4 /\ qL_rem p = 18 /\ kL_rem p = 2 /\ qL_off p = 0.
Proof.
  eexists _, _.
  destruct (tile_parameters Examples.small_device 0 true
              Examples.prefill_inputs Examples.prefill_output
              _ _ (Examples.dense [2; 8; 50; 128] 0)
              (Examples.dense [2; 2; 50; 128] 1) 50 50 128
              ltac:(vm_compute; reflexivity) ltac:(reflexivity)
              ltac:(reflexivity) ltac:(reflexivity) ltac:(reflexivity)
              ltac:(reflexivity)
              ltac:(vm_compute; discriminate) ltac:(reflexivity))
    as (p & Hb & _ & _ & _ & _ & _ & _ & _ & _ & Hc).
  exists p. split; [vm_compute; reflexivity|].
  split; [exact Hb|]. apply Hc; reflexivity.
Defined.

(** C9.  In full mode with Lq >= 1 and Lk >= 1 the tile counts cover both
    sequences: NQ*bq >= Lq and NK*bk >= Lk. *)
Theorem tiles_cover d sc causal inputs out o l q_pre k_pre lq lk bd :
  run d sc causal inputs out = Ok (o, l) ->
  vec_index inputs 0 = Ok q_pre ->
  vec_index inputs 1 = Ok k_pre ->
  shape_at q_pre 2 = Ok lq ->
  lq > 8 ->
  shape_at k_pre 2 = Ok lk ->
  shape_at q_pre (-1) = Ok bd ->
  lq >= 1 ->
  lk >= 1 ->
  let bq := 32 in
  let bk := if bd <? 128 then 32 else 16 in
  exists p,
    bytes_at 4 l = Some (of_AttnParams p) /\
    NQ p * bq >= lq /\
    NK p * bk >= lk.
Proof.
  intros Hrun Hq Hk Hlq Hfull Hlk Hbd Hq1 Hk1 bq bk. apply run_inv in Hrun.
  destruct (evaluation_operands _ _ _ _ _ _ _ _ Hrun Hq Hlq)
    as (k0 & v_pre & s' & Hk0 & _ & Hmode & ->).
  rewrite Hk in Hk0. injection Hk0 as <-.
  assert (E : (lq <=? 8) = false) by (apply Z.leb_gt; lia).
  rewrite E in Hmode.
  apply full_run_params in Hmode
    as (p & ql & kl & bd0 & t & rest & hash & consts
        & Hql & Hkl & Hbd0 & Ht & Hobs).
  rewrite Hlq in Hql. injection Hql as <-.
  rewrite Hlk in Hkl. injection Hkl as <-.
  rewrite Hbd in Hbd0. injection Hbd0 as <-.
  destruct (Hobs [AddTemporaries (copies s')]) as [Hbytes _].
  destruct Ht as [_ _ _ _ HNQ HNK _ _ _ _ _].
  change (tile_bk bd) with bk in *. change tile_bq with bq in *.
  assert (Hbk : 0 < bk) by apply tile_bk_pos.
  exists p. split; [exact Hbytes|].
  rewrite HNQ, HNK, !Z.quot_div_nonneg by (subst bq; lia).
  pose proof (Z.mul_succ_div_gt (lq + bq - 1) bq ltac:(subst bq; lia)).
  pose proof (Z.mul_succ_div_gt (lk + bk - 1) bk Hbk).
  split; lia.
Qed.

Lemma tiles_cover_witness :
  exists o l p,
    run Examples.small_device 0 true Examples.prefill_inputs
        Examples.prefill_output = Ok (o, l) /\
    bytes_at 4 l = Some (of_AttnParams p) /\
    NQ p * 32 >= 50 /\ NK p * 16 >= 50.
Proof.
  eexists _, _.
  destruct (tiles_cover Examples.small_device 0 true
              Examples.prefill_inputs Examples.prefill_output
              _ _ (Examples.dense [2; 8; 50; 128] 0)
              (Examples.dense [2; 2; 50; 128] 1) 50 50 128
              ltac:(vm_compute; reflexivity) ltac:(reflexivity)
              ltac:(reflexivity) ltac:(reflexivity) ltac:(reflexivity)
              ltac:(reflexivity) ltac:(reflexivity)
              ltac:(vm_compute; discriminate) ltac:(vm_compute; discriminate))
    as (p & Hb & Hc).
  exists p. split; [vm_compute; reflexivity|].
  split; [exact Hb | exact Hc].
Defined.

(* ================================================================= *)
(** ** The output of vector mode *)

(** C6.  In vector mode, with [q] the query as dispatched (the handle bound
    at input slot 0), the output takes over the query's storage if and only
    if [q] is donatable, has as many elements as the output, and the query
    length is 1 or [q] is not row-contiguous; in every other case the
    output receives storage newly obtained from the allocator. *)
Theorem query_donation d sc causal inputs out o l q_pre lq :
  run d sc causal inputs out = Ok (o, l) ->
  vec_index inputs 0 = Ok q_pre ->
  shape_at q_pre 2 = Ok lq ->
  lq <= 8 ->
  exists q,
    input_array 0 l = Some q /\
    (In (CopySharedBuffer out q) l <->
     is_donatable q = true /\ size q = size out /\
     (lq = 1 \/ row_contiguous (flags q) = false)) /\
    (In (CopySharedBuffer out q) l ->
     o = copy_shared_buffer out q /\ data o = data q) /\
    (~ In (CopySharedBuffer out q) l ->
     exists n, In (Malloc (nbytes out) (allocated n)) l /\
               data o = Some (allocated n)).
Proof.
  intros Hrun Hq Hlq Hvec. apply run_inv in Hrun.
  destruct (evaluation_operands _ _ _ _ _ _ _ _ Hrun Hq Hlq)
    as (k_pre & v_pre & s' & _ & _ & Hmode & ->).
  apply Z.leb_le in Hvec. rewrite Hvec in Hmode.
  destruct (vector_run_query _ _ _ _ _ _ _ _ _ _ Hmode Hlq)
    as (q & out_evs & Hl2 & _ & Ho & Hobs).
  destruct (Hobs [AddTemporaries (copies s')]) as (Hin0 & Hsub & Hdon).
  assert (Hcond : donation_allowed q out <->
                  is_donatable q = true /\ size q = size out /\
                  (lq = 1 \/ row_contiguous (flags q) = false)).
  { unfold donation_allowed. rewrite Hl2. split.
    - intros (Hd & [[= ->] | Hc] & Hs); auto.
    - intros (Hd & Hs & [-> | Hc]); auto. }
  assert (Hiff : In (CopySharedBuffer out q) (log s' ++ [AddTemporaries (copies s')])
                 <-> donation_allowed q out).
  { split.
    - intros Hin. apply Hdon in Hin as [Hin | Hin].
      + destruct Ho; [assumption | |]; cbn in Hin; intuition discriminate.
      + cbn in Hin. intuition discriminate.
    - intros Hd. apply Hsub.
      destruct Ho; [left; reflexivity | contradiction | contradiction]. }
  exists q. split; [exact Hin0|]. split; [now rewrite Hiff, Hcond|].
  split.
  - intros Hin. apply Hiff in Hin.
    destruct Ho; [split; reflexivity | contradiction | contradiction].
  - intros Hnot. rewrite Hiff in Hnot.
    destruct Ho; [contradiction | |]; exists n;
      (split; [apply Hsub; left; reflexivity | reflexivity]).
Qed.

Lemma query_donation_witness :
  exists o l q,
    run Examples.small_device 0 false Examples.donation_inputs
        Examples.donation_output = Ok (o, l) /\
    input_array 0 l = Some q /\
    In (CopySharedBuffer Examples.donation_output q) l.
Proof.
  eexists _, _.
  destruct (query_donation Examples.small_device 0 false
              Examples.donation_inputs Examples.donation_output
              _ _ Examples.donatable_query 2
              ltac:(vm_compute; reflexivity) ltac:(reflexivity)
              ltac:(reflexivity) ltac:(vm_compute; discriminate))
    as (q & H0 & Hiff & _ & _).
  exists q. split; [vm_compute; reflexivity|]. split; [exact H0|].
  apply Hiff.
  cbv in H0. injection H0 as <-.
  split; [reflexivity | split; [vm_compute; reflexivity | right; reflexivity]].
Defined.

(** C7 (as the code has it).  In vector mode, when the query is not
    donated: if the output's query-length extent, [out.shape(2)], is 1 the
    output is given plain contiguous storage; otherwise it is given storage
    with the sequence-axis stride [out.shape(1) * Dv] and the head-axis
    stride [Dv], and its row-contiguous flag is set exactly when the query
    has a single head. *)
Theorem output_layout d sc causal inputs out o l q_pre lq :
  run d sc causal inputs out = Ok (o, l) ->
  vec_index inputs 0 = Ok q_pre ->
  shape_at q_pre 2 = Ok lq ->
  lq <= 8 ->
  (forall q, ~ In (CopySharedBuffer out q) l) ->
  exists lo,
    shape_at out 2 = Ok lo /\
    (lo = 1 -> plain_allocation out o l) /\
    (lo <> 1 ->
     exists h_o dv h_q,
       shape_at out 1 = Ok h_o /\
       shape_at out 3 = Ok dv /\
       shape_at q_pre 1 = Ok h_q /\
       interleaved_allocation out o l (h_o * dv) dv (h_q =? 1)).
Proof.
  intros Hrun Hq Hlq Hvec Hnot. apply run_inv in Hrun.
  destruct (evaluation_operands _ _ _ _ _ _ _ _ Hrun Hq Hlq)
    as (k_pre & v_pre & s' & _ & _ & Hmode & ->).
  apply Z.leb_le in Hvec. rewrite Hvec in Hmode.
  destruct (vector_run_query _ _ _ _ _ _ _ _ _ _ Hmode Hlq)
    as (q & out_evs & Hl2 & Hh & Ho & Hobs).
  destruct (Hobs [AddTemporaries (copies s')]) as (_ & Hsub & _).
  destruct Ho as [Hd | n Hd Hlo | n lo h_o dv h_q st1 st2 Hd Hlo Hne Hho Hdv
                                    Hfit Hs1 Hs2 Hhq].
  - exfalso. apply (Hnot q). apply Hsub. left. reflexivity.
  - exists 1. split; [assumption|]. split; [|congruence].
    intros _. exists n. split; [reflexivity|].
    split; apply Hsub; cbn; auto.
  - exists lo. split; [assumption|]. split; [congruence|].
    intros _. exists h_o, dv, h_q. rewrite <- Hh.
    repeat (split; [assumption|]).
    eexists n, st2, _. split; [reflexivity|].
    split; [apply Hsub; cbn; auto|].
    split; [apply Hsub; cbn; auto|].
    split; [|split; [|reflexivity]].
    + rewrite (vec_assign_other _ _ _ _ _ Hs2) by lia.
      exact (vec_assign_same _ _ _ _ Hs1).
    + exact (vec_assign_same _ _ _ _ Hs2).
Qed.

Lemma output_layout_witness :
  exists o l,
    run Examples.small_device 0 false Examples.two_head_inputs
        Examples.two_head_output = Ok (o, l) /\
    plain_allocation Examples.two_head_output o l.
Proof.
  eexists _, _. split; [vm_compute; reflexivity|].
  destruct (output_layout Examples.small_device 0 false
              Examples.two_head_inputs Examples.two_head_output
              _ _ (Examples.dense [1; 2; 1; 64] 0) 1
              ltac:(vm_compute; reflexivity) ltac:(reflexivity)
              ltac:(reflexivity) ltac:(vm_compute; discriminate))
    as (lo & Hlo & Hplain & _).
  - intros q Hin. cbv in Hin. intuition discriminate.
  - apply Hplain. cbv in Hlo. now injection Hlo as <-.
Defined.

(** C7 as the specification words it fails: with two heads, query length 1
    and output width 64 the output is given plain row-major storage (its
    sequence-axis stride is 64 and it is row-contiguous), not the
    interleaved layout the width rule asks for. *)
Lemma output_layout_counterexample :
  exists o l,
    run Examples.small_device 0 false Examples.two_head_inputs
        Examples.two_head_output = Ok (o, l) /\
    (forall q, ~ In (CopySharedBuffer Examples.two_head_output q) l) /\
    plain_allocation Examples.two_head_output o l /\
    ~ layout_by_output_width Examples.two_head_output o l 2 64.
Proof.
  eexists _, _. split; [vm_compute; reflexivity|]. split; [|split].
  - intros q Hin. cbv in Hin. intuition discriminate.
  - exists 0%nat. split; [reflexivity|]. split; cbv; auto.
  - intros [_ H]. destruct (H ltac:(discriminate))
      as (n & st & fl & Ho & _ & _ & Hs & _).
    cbv in Ho. injection Ho as <- _ _. cbv in Hs. discriminate.
Qed.

(* ================================================================= *)
(** ** Layout normalisation *)










(* ================================================================= *)
(** ** The mask strides *)

(** C5 (as the code has it).  In vector mode, single- or two-pass, the
    stride bound for each of the mask's three trailing axes is the mask's
    stride for that axis, narrowed to 32 bits, if the axis exists and its
    extent exceeds 1, and 0 otherwise; a stride that fits 32 bits is bound
    unchanged.  In full mode the strides bound are those of the first three
    axes of the mask as dispatched, whatever the extents, and no stride is
    bound for the key axis. *)
Theorem mask_strides d sc causal inputs out o l q_pre lq m :
  run d sc causal inputs out = Ok (o, l) ->
  vec_index inputs 0 = Ok q_pre ->
  shape_at q_pre 2 = Ok lq ->
  lookup inputs 3 = Some m ->
  (lq <= 8 ->
   forall k, 1 <= k <= 3 ->
     passed_mask_stride k l = Some (to_int32 (broadcast_stride m k)) /\
     (fits_int (broadcast_stride m k) = true ->
      passed_mask_stride k l = Some (broadcast_stride m k))) /\
  (lq > 8 ->
   exists m' s0 s1 s2,
     input_array 6 l = Some m' /\
     strides_at m' 0 = Ok s0 /\
     strides_at m' 1 = Ok s1 /\
     strides_at m' 2 = Ok s2 /\
     bytes_at 5 l = Some (of_AttnMaskParams (mkAttnMaskParams (s0, s1, s2))) /\
     passed_mask_stride 3 l = Some s1 /\
     passed_mask_stride 2 l = Some s2 /\
     passed_mask_stride 1 l = None).
Proof.
  intros Hrun Hq Hlq Hm. apply run_inv in Hrun.
  destruct (evaluation_operands _ _ _ _ _ _ _ _ Hrun Hq Hlq)
    as (k_pre & v_pre & s' & _ & _ & Hmode & ->).
  destruct (lq <=? 8) eqn:E.
  - apply Z.leb_le in E. split; [|lia]. intros _ k Hk.
    apply vector_run_operands in Hmode as (st & Hst & Hobs).
    destruct (Hobs [AddTemporaries (copies s')]) as (Hsel & _ & _ & HM).
    destruct (HM m Hm) as (_ & s1 & s2 & s3 & H1 & H2 & H3 & B1 & B2 & B3).
    apply mask_stride_spec in H1, H2, H3; try lia. subst s1 s2 s3.
    assert (Hp : passed_mask_stride k
                   (log s' ++ [AddTemporaries (copies s')])
                 = Some (to_int32 (broadcast_stride m k))).
    { unfold passed_mask_stride. rewrite Hsel.
      assert (Hk3 : k = 1 \/ k = 2 \/ k = 3) by lia.
      destruct Hst as [-> | ->];
        destruct Hk3 as [-> | [-> | ->]];
        first [ rewrite B1 | rewrite B2 | rewrite B3 ]; reflexivity. }
    split; [exact Hp|].
    intros Hfit. now rewrite Hp, to_int32_fits.
  - apply Z.leb_gt in E. split; [lia|]. intros _.
    destruct (full_run_operands _ _ _ _ _ _ _ _ _ Hmode
                [AddTemporaries (copies s')]) as (Hsel & _ & _ & HM).
    destruct (HM m Hm) as (_ & m' & s0 & s1 & s2 & Hi & H0 & H1 & H2 & Hb).
    exists m', s0, s1, s2. repeat (split; [assumption|]).
    unfold passed_mask_stride. rewrite Hsel, Hb. cbn.
    repeat split; reflexivity.
Qed.

Lemma mask_strides_witness :
  exists o l,
    run Examples.small_device 0 false
        (Examples.masked_inputs 2 16 (Examples.shared_mask 2 16))
        (Examples.masked_output 2) = Ok (o, l) /\
    passed_mask_stride 1 l = Some 1 /\
    passed_mask_stride 2 l = Some 16 /\
    passed_mask_stride 3 l = Some 0.
Proof.
  eexists _, _. split; [vm_compute; reflexivity|].
  destruct (mask_strides Examples.small_device 0 false
              (Examples.masked_inputs 2 16 (Examples.shared_mask 2 16))
              (Examples.masked_output 2) _ _
              (Examples.dense [1; 1; 2; 64] 0) 2
              (Examples.shared_mask 2 16)
              ltac:(vm_compute; reflexivity) ltac:(reflexivity)
              ltac:(reflexivity) ltac:(reflexivity))
    as (Hvec & _).
  assert (Hle : 2 <= 8) by (vm_compute; discriminate).
  split; [|split].
  - apply (Hvec Hle 1); [split; vm_compute; discriminate | reflexivity].
  - apply (Hvec Hle 2); [split; vm_compute; discriminate | reflexivity].
  - apply (Hvec Hle 3); [split; vm_compute; discriminate | reflexivity].
Defined.

(** C5 as the specification words it fails in full mode: for a dense mask
    of extents [1, 1, 9, 9] the head axis has extent 1, yet the stride bound
    for it is the mask's own 81, not 0; and nothing is bound for the key
    axis. *)
Lemma mask_strides_counterexample :
  exists o l,
    run Examples.small_device 0 false
        (Examples.masked_inputs 9 9 (Examples.shared_mask 9 9))
        (Examples.masked_output 9) = Ok (o, l) /\
    input_array 6 l = Some (Examples.shared_mask 9 9) /\
    broadcast_stride (Examples.shared_mask 9 9) 3 = 0 /\
    passed_mask_stride 3 l = Some 81 /\
    passed_mask_stride 3 l
    <> Some (broadcast_stride (Examples.shared_mask 9 9) 3) /\
    passed_mask_stride 1 l = None.
Proof.
  eexists _, _. split; [vm_compute; reflexivity|].
  repeat split; try reflexivity.
  vm_compute. discriminate.
Qed.

(* ================================================================= *)
(** * Further properties of the dispatch layer *)

Import Encoder.

(** ** Each routine, event by event *)

Lemma int_mul_inv a b x :
  int_mul a b = Ok x -> x = a * b /\ fits_int (a * b) = true.
Proof.
  unfold int_mul, int_of. destruct (fits_int (a * b)) eqn:E; [|discriminate].
  now intros [= <-].
Qed.

Lemma int64_mul_inv a b x :
  int64_mul a b = Ok x -> x = a * b /\ fits_int64 (a * b) = true.
Proof.
  unfold int64_mul, int64_of. destruct (fits_int64 (a * b)) eqn:E;
    [|discriminate].
  now intros [= <-].
Qed.

Lemma int_rem_inv a b x :
  int_rem a b = Ok x -> x = Z.rem a b.
Proof.
  unfold int_rem. destruct (b =? 0); [discriminate|].
  destruct (fits_int (Z.quot a b)); [|discriminate]. now intros [= <-].
Qed.

(** Inversion of the pure reads of a successful run. *)
Ltac rinv :=
  repeat match goal with
  | E : rbind _ _ = Ok _ |- _ =>
      let a := fresh "r" in
      let Ea := fresh "R" in
      apply rbind_inv in E; destruct E as (a & Ea & E)
  | E : int_div _ _ = Ok _ |- _ => apply int_div_inv in E; destruct E as [? ->]
  | E : int_mul _ _ = Ok _ |- _ => apply int_mul_inv in E; destruct E as [-> ?]
  | E : int64_mul _ _ = Ok _ |- _ =>
      apply int64_mul_inv in E; destruct E as [-> ?]
  | E : int_rem _ _ = Ok _ |- _ => apply int_rem_inv in E; subst
  | E : int_add _ _ = Ok _ |- _ => apply int_of_inv in E; destruct E as [-> ?]
  | E : int_sub _ _ = Ok _ |- _ => apply int_of_inv in E; destruct E as [-> ?]
  | E : Ok _ = Ok _ |- _ => injection E as E; subst
  end.

(** Two reads of the same place agree. *)
Ltac same_reads :=
  repeat match goal with
  | E1 : ?r = Ok ?a, E2 : ?r = Ok ?b |- _ =>
      rewrite E1 in E2; injection E2 as <-
  end.

Lemma sdpa_vector_encoded d q k v out sc mask s u s' :
  sdpa_vector d q k v out sc mask s = Ok (u, s') ->
  exists evs, vector_encoded q k v out sc mask evs /\ s' = log_app s evs.
Proof.
  unfold sdpa_vector. intros H. minv H. rinv. same_reads.
  apply bind_inv in H as (u' & s1 & Em & H). minv H. subst s'.
  unfold set_input_array, set_bytes in Em.
  apply (vector_mask_inv mask 11) in Em as (mask_evs & Hm & ->).
  eexists. split.
  - eapply vector_encoded_intro with (mask_evs := mask_evs); eassumption.
  - unfold log_app; cbn [copies copies_capacity copies_epoch next_buffer log].
    rewrite <- !app_assoc. reflexivity.
Qed.

Lemma vec_init_back {A} (l : list A) a lead :
  vec_init l = Ok lead -> vec_back l = Ok a -> l = lead ++ [a].
Proof.
  unfold vec_init, vec_back. destruct l as [|x l]; [discriminate|].
  intros H1 H.
  assert (Hlead : lead = removelast (x :: l)) by congruence.
  clear H1. subst lead.
  destruct (rev (x :: l)) as [|y r] eqn:E; [discriminate|].
  injection H as ->.
  assert (E' : x :: l = rev r ++ [a]).
  { rewrite <- (rev_involutive (x :: l)), E. reflexivity. }
  rewrite E'. now rewrite removelast_last.
Qed.

Lemma sdpa_vector_2pass_encoded d q k v out sc mask s u s' :
  sdpa_vector_2pass d q k v out sc mask s = Ok (u, s') ->
  exists evs,
    two_pass_encoded q k v out sc mask evs /\
    s' = mkState (copies s) (copies_capacity s) (copies_epoch s)
                 (3 + next_buffer s) (log s ++ evs).
Proof.
  unfold sdpa_vector_2pass. intros H. minv H.
  match goal with
  | E1 : vec_init (shape out) = Ok _, E2 : vec_back (shape out) = Ok _ |- _ =>
      pose proof (vec_init_back _ _ _ E1 E2) as Hshape; clear E1 E2
  end.
  rinv. same_reads.
  apply bind_inv in H as (u' & sm & Em & H). minv H.
  unfold set_input_array, set_bytes in Em.
  apply (vector_mask_inv mask 13) in Em as (mask_evs & Hm & ->).
  rinv. same_reads. subst.
  eexists. split.
  - eapply two_pass_encoded_intro
      with (mask_evs := mask_evs) (nb := next_buffer s); eassumption.
  - unfold log_app; cbn [copies copies_capacity copies_epoch next_buffer log].
    rewrite <- !app_assoc. reflexivity.
Qed.

Lemma sdpa_full_encoded d q k v sc o causal mask s u s' :
  sdpa_full_self_attention_metal d q k v sc o causal mask s = Ok (u, s') ->
  exists evs, full_encoded q k v o sc causal mask evs /\ s' = log_app s evs.
Proof.
  unfold sdpa_full_self_attention_metal. intros H. minv H.
  apply bind_inv in H as (u' & sm & Em & H). minv H. subst s'.
  apply full_mask_inv in Em as (mask_evs & Hm & ->).
  rinv. same_reads.
  eexists. split.
  - match goal with
    | Q0 : strides_at q 0 = Ok ?q0, Q1 : strides_at q 1 = Ok ?q1,
      Q2 : strides_at q 2 = Ok ?q2,
      K0 : strides_at k 0 = Ok ?k0, K1 : strides_at k 1 = Ok ?k1,
      K2 : strides_at k 2 = Ok ?k2,
      V0 : strides_at v 0 = Ok ?v0, V1 : strides_at v 1 = Ok ?v1,
      V2 : strides_at v 2 = Ok ?v2,
      O0 : strides_at o 0 = Ok ?o0, O1 : strides_at o 1 = Ok ?o1,
      O2 : strides_at o 2 = Ok ?o2 |- _ =>
        eapply full_encoded_intro
          with (mask_evs := mask_evs) (qs := (q0, q1, q2)) (ks := (k0, k1, k2))
               (vs := (v0, v1, v2)) (os := (o0, o1, o2))
    end;
      try eassumption;
      try (unfold leading_strides; cbn [fst snd]; repeat split; assumption).
  - unfold log_app; cbn [copies copies_capacity copies_epoch next_buffer log].
    rewrite <- !app_assoc. reflexivity.
Qed.

(** ** Each mode, event by event *)

Lemma vector_mode_encoded d sc inputs q_pre k_pre v_pre o o' s' :
  vector_mode d sc inputs q_pre k_pre v_pre o reserved = Ok (o', s') ->
  vector_evaluation d sc inputs o o'
                    (log s' ++ [AddTemporaries (copies s')])
                    q_pre k_pre v_pre.
Proof.
  unfold vector_mode. intros H.
  apply bind_inv in H as (rq & s1 & Eq & H). apply copy_unless_inv in Eq.
  apply bind_inv in H as (rk & s2 & Ek & H). apply copy_unless_inv in Ek.
  apply bind_inv in H as (rv & s3 & Ev & H). apply copy_unless_inv in Ev.
  destruct Eq as [(Pq & -> & ->) | (Pq & -> & ->)]; run_state Ek;
    (destruct Ek as [(Pk & -> & ->) | (Pk & -> & ->)]; run_state Ev;
     (destruct Ev as [(Pv & -> & ->) | (Pv & -> & ->)]; run_state H;
      do 3 deref_step H;
      apply bind_inv in H as (o1 & s4 & Eo & H);
      apply donate_or_allocate_inv in Eo as (out_evs & n & Ho & ->);
      run_state H; minv H;
      match goal with
      | E : (if zlength inputs >? 3 then _ else _) = Ok _ |- _ =>
          apply mask_lookup_inv in E; subst
      end;
      (destruct (string_back (get_architecture d)) as [c|] eqn:Ed;
        [|discriminate]);
      match goal with
      | E : Ok c = Ok ?x |- _ => injection E as <-
      end;
      apply bind_inv in H as (u & s5 & El & H);
      apply ret_inv in H as [<- <-];
      match goal with
      | E : route_2pass c _ _ = Ok ?tp |- _ =>
          destruct tp;
          [ apply sdpa_vector_2pass_encoded in El as (evs & Hl & ->);
            eapply vector_evaluation_intro
              with (two_pass := true) (launch_evs := evs) (out_evs := out_evs)
          | apply sdpa_vector_encoded in El as (evs & Hl & ->);
            eapply vector_evaluation_intro
              with (two_pass := false) (launch_evs := evs) (out_evs := out_evs) ];
          try exact Hl; try exact Ho; try exact Ed; try eassumption;
          try solve_normalized;
          unfold log_app; cbn [log copies]; rewrite <- ?app_assoc;
          cbn [app]; reflexivity
      end)).
Qed.

Lemma full_mode_encoded d sc causal inputs q_pre k_pre v_pre o o' s' :
  full_mode d sc causal inputs q_pre k_pre v_pre o reserved = Ok (o', s') ->
  full_evaluation d sc causal inputs o o'
                  (log s' ++ [AddTemporaries (copies s')])
                  q_pre k_pre v_pre.
Proof.
  unfold full_mode. intros H.
  apply bind_inv in H as (rq & s1 & Eq & H). apply copy_unless_inv in Eq.
  apply bind_inv in H as (rk & s2 & Ek & H). apply copy_unless_inv in Ek.
  apply bind_inv in H as (rv & s3 & Ev & H). apply copy_unless_inv in Ev.
  destruct Eq as [(Pq & -> & ->) | (Pq & -> & ->)]; run_state Ek;
    (destruct Ek as [(Pk & -> & ->) | (Pk & -> & ->)]; run_state Ev;
     (destruct Ev as [(Pv & -> & ->) | (Pv & -> & ->)]; run_state H;
      minv H;
      apply bind_inv in H as (mask & s4 & Em & H);
      (destruct (zlength inputs >? 3) eqn:Elen;
       [ minv Em;
         match goal with
         | E : vec_index inputs 3 = Ok _ |- _ => apply vec_index_lookup in E
         end;
         apply bind_inv in Em as (rm & s5 & Ec & Em);
         apply copy_unless_inv in Ec; run_state Ec;
         (destruct Ec as [(Pm & -> & ->) | (Pm & -> & ->)]; run_state Em;
          deref_step Em; apply ret_inv in Em as [-> ->])
       | apply ret_inv in Em as [-> ->]; apply lookup_short in Elen ]);
      run_state H;
      do 3 deref_step H;
      apply bind_inv in H as (ul & sl & El & H);
      apply ret_inv in H as [-> ->];
      apply sdpa_full_encoded in El as (evs & Hl & ->);
      rinv; same_reads;
      eapply full_evaluation_intro with (launch_evs := evs);
      try exact Hl; try eassumption; try solve_normalized;
      try (match goal with
           | E : lookup inputs 3 = _ |- _ => rewrite E
           end;
           first [ eexists; split; [reflexivity | solve_normalized]
                 | repeat split; reflexivity ]);
      try reflexivity;
      try (unfold log_app; cbn [log copies]; rewrite <- ?app_assoc;
           cbn [app]; reflexivity);
      try (cbn [List.length app]; lia))).
Qed.

Lemma run_encoded d sc causal inputs out o l :
  run d sc causal inputs out = Ok (o, l) ->
  exists q_pre k_pre v_pre lq,
    vec_index inputs 0 = Ok q_pre /\
    vec_index inputs 1 = Ok k_pre /\
    vec_index inputs 2 = Ok v_pre /\
    shape_at q_pre 2 = Ok lq /\
    if lq <=? 8
    then vector_evaluation d sc inputs out o l q_pre k_pre v_pre
    else full_evaluation d sc causal inputs out o l q_pre k_pre v_pre.
Proof.
  unfold run.
  destruct (eval_gpu d sc causal inputs out initial) as [[o1 s1]|f] eqn:H;
    [|discriminate].
  intros [= -> <-]. unfold eval_gpu in H. minv H.
  apply bind_inv in H as ([] & s2 & Er & H).
  unfold reserve in Er. cbn in Er. injection Er as <-.
  minv H.
  apply bind_inv in H as (o2 & s3 & Em & H).
  apply bind_inv in H as (ts & s4 & Et & H).
  unfold take_copies in Et. injection Et as <- <-.
  minv H. cbn [log].
  eexists _, _, _, _. repeat (split; [eassumption|]).
  match goal with
  | |- context [?lq <=? 8] => destruct (lq <=? 8)
  end.
  - now apply vector_mode_encoded.
  - now apply full_mode_encoded in Em.
Qed.

(** The evaluation of a call whose query is known. *)
Lemma run_vector d sc causal inputs out o l q_pre lq :
  run d sc causal inputs out = Ok (o, l) ->
  vec_index inputs 0 = Ok q_pre ->
  shape_at q_pre 2 = Ok lq ->
  lq <= 8 ->
  exists k_pre v_pre,
    vec_index inputs 1 = Ok k_pre /\
    vec_index inputs 2 = Ok v_pre /\
    vector_evaluation d sc inputs out o l q_pre k_pre v_pre.
Proof.
  intros Hrun Hq Hlq Hv.
  apply run_encoded in Hrun
    as (q0 & k_pre & v_pre & lq0 & Hq0 & Hk & Hv0 & Hl0 & Hmode).
  rewrite Hq in Hq0. injection Hq0 as <-.
  rewrite Hlq in Hl0. injection Hl0 as <-.
  apply Z.leb_le in Hv. rewrite Hv in Hmode. eauto.
Qed.

Lemma run_full d sc causal inputs out o l q_pre lq :
  run d sc causal inputs out = Ok (o, l) ->
  vec_index inputs 0 = Ok q_pre ->
  shape_at q_pre 2 = Ok lq ->
  lq > 8 ->
  exists k_pre v_pre,
    vec_index inputs 1 = Ok k_pre /\
    vec_index inputs 2 = Ok v_pre /\
    full_evaluation d sc causal inputs out o l q_pre k_pre v_pre.
Proof.
  intros Hrun Hq Hlq Hv.
  apply run_encoded in Hrun
    as (q0 & k_pre & v_pre & lq0 & Hq0 & Hk & Hv0 & Hl0 & Hmode).
  rewrite Hq in Hq0. injection Hq0 as <-.
  rewrite Hlq in Hl0. injection Hl0 as <-.
  assert (E : (lq <=? 8) = false) by (apply Z.leb_gt; lia).
  rewrite E in Hmode. eauto.
Qed.

(** ** Observers and the parts of a log *)

Lemma collect_quiet k args l1 l2 :
  quiet l1 -> collect k args (l1 ++ l2) = collect k args l2.
Proof.
  unfold quiet. revert k args.
  induction l1 as [|e l1 IH]; intros k args; cbn [app forallb];
    [reflexivity|].
  intros H. apply andb_prop in H as [He H].
  destruct e; cbn in He; try discriminate; cbn [collect]; auto.
Qed.

Lemma allocations_app l1 l2 :
  allocations (l1 ++ l2) = allocations l1 ++ allocations l2.
Proof.
  induction l1 as [|e l1 IH]; [reflexivity|].
  destruct e; cbn [app allocations]; rewrite ?IH; reflexivity.
Qed.

Lemma temporaries_app l1 l2 :
  temporaries (l1 ++ l2) = temporaries l1 ++ temporaries l2.
Proof.
  induction l1 as [|e l1 IH]; [reflexivity|].
  destruct e; cbn [app temporaries]; rewrite ?IH, <- ?app_assoc; reflexivity.
Qed.

Lemma copy_destinations_app l1 l2 :
  copy_destinations (l1 ++ l2) = copy_destinations l1 ++ copy_destinations l2.
Proof.
  induction l1 as [|e l1 IH]; [reflexivity|].
  destruct e; cbn [app copy_destinations]; rewrite ?IH; reflexivity.
Qed.

Lemma selected_quiet l1 l2 : quiet l1 -> selected (l1 ++ l2) = selected l2.
Proof. intros Q. unfold selected. now rewrite first_kernel_quiet. Qed.

(** The events that precede the launch routine are not encoder commands. *)
Lemma full_mask_quiet (inputs : list array) mask em cm :
  match lookup inputs 3 with
  | Some m_pre =>
      exists m, mask = Some m /\ normalized is_matrix_contiguous m_pre m em cm
  | None => mask = None /\ em = [] /\ cm = []
  end ->
  quiet em.
Proof.
  intros Hm. destruct (lookup inputs 3).
  - destruct Hm as (m & _ & Nm). eauto using normalized_quiet.
  - destruct Hm as (_ & -> & _). reflexivity.
Qed.

Ltac quiet_facts :=
  repeat match goal with
  | N : normalized _ _ _ ?evs _ |- _ =>
      lazymatch goal with
      | Q : quiet evs |- _ => fail
      | _ => pose proof (normalized_quiet _ _ _ _ _ N)
      end
  | N : vector_output _ _ _ ?evs |- _ =>
      lazymatch goal with
      | Q : quiet evs |- _ => fail
      | _ => pose proof (vector_output_quiet _ _ _ _ N)
      end
  | N : match lookup _ 3 with Some _ => _ | None => _ end |- _ =>
      pose proof (full_mask_quiet _ _ _ _ N); revert N
  end; intros.

Ltac quiet_side := first [assumption | reflexivity].

Ltac skip_quiet :=
  repeat match goal with
  | |- context [collect ?k ?a (?l1 ++ ?l2)] =>
      rewrite (collect_quiet k a l1 l2) by quiet_side
  | |- context [first_kernel (?l1 ++ ?l2)] =>
      rewrite (first_kernel_quiet l1 l2) by quiet_side
  | |- context [selected (?l1 ++ ?l2)] =>
      rewrite (selected_quiet l1 l2) by quiet_side
  | |- context [input_array ?i (?l1 ++ ?l2)] =>
      rewrite (input_array_quiet i l1 l2) by quiet_side
  | |- context [bytes_at ?i (?l1 ++ ?l2)] =>
      rewrite (bytes_at_quiet i l1 l2) by quiet_side
  | |- context [before_dispatch (?l1 ++ ?l2)] =>
      rewrite (before_dispatch_quiet l1 l2) by quiet_side
  end.

(** The strategy a vector-mode evaluation reports. *)
Lemma vector_encoded_first q k v out sc mask evs rest :
  vector_encoded q k v out sc mask evs ->
  selected (evs ++ rest) = Some vector_single_pass.
Proof. intros []. reflexivity. Qed.

Lemma two_pass_encoded_first q k v out sc mask evs rest :
  two_pass_encoded q k v out sc mask evs ->
  selected (evs ++ rest) = Some vector_two_pass.
Proof. intros []. reflexivity. Qed.

(** ** Launch geometry *)

(** X1.  Full mode makes exactly one launch, over a grid of
    ceil(Lq / 32) by H by B threadgroups of 32 x 4 x 1 threads. *)
Theorem full_mode_grid d sc causal inputs out o l q_pre b h lq :
  run d sc causal inputs out = Ok (o, l) ->
  vec_index inputs 0 = Ok q_pre ->
  shape_at q_pre 0 = Ok b ->
  shape_at q_pre 1 = Ok h ->
  shape_at q_pre 2 = Ok lq ->
  lq > 8 ->
  dispatches l = [(mtl_size (ceil_div lq 32) h b, mtl_size 32 4 1)].
Proof.
  intros Hrun Hq Hb Hh Hlq Hfull.
  destruct (run_full _ _ _ _ _ _ _ _ _ Hrun Hq Hlq Hfull)
    as (k_pre & v_pre & _ & _ & He).
  destruct He as [q k v eq ek ev em launch_evs cq ck cv cm mask n bo ho lo dv
                    Nq Nk Nv Ho0 Ho1 Ho2 Ho3 F1 F2 F3 Ho Hm Hlen Hl ->].
  quiet_facts. unfold dispatches, launches. skip_quiet.
  destruct Hl as [bd b' h' d' ql kl hk qs ks vs os mask_evs
                    Hbd Hb' Hh' Hd' Hql Hhk Hnz Hkl Rq Rk Sq Sk Sv So Hme].
  rewrite (normalized_shape_at _ _ _ _ _ 0 Nq), Hb in Hb'.
  rewrite (normalized_shape_at _ _ _ _ _ 1 Nq), Hh in Hh'.
  rewrite (normalized_shape_at _ _ _ _ _ 2 Nq), Hlq in Hql.
  injection Hb' as <-. injection Hh' as <-. injection Hql as <-.
  rewrite <- (quot_ceil lq 32) by lia.
  destruct Hme; reflexivity.
Qed.

Lemma full_mode_grid_witness :
  exists o l,
    run Examples.small_device 0 true Examples.prefill_inputs
        Examples.prefill_output = Ok (o, l) /\
    dispatches l = [(mtl_size (ceil_div 50 32) 8 2, mtl_size 32 4 1)].
Proof.
  eexists _, _. split.
  - vm_compute. reflexivity.
  - eapply (full_mode_grid Examples.small_device 0 true
             Examples.prefill_inputs Examples.prefill_output _ _
             (Examples.dense [2; 8; 50; 128] 0) 2 8 50).
    + vm_compute. reflexivity.
    + reflexivity.
    + reflexivity.
    + reflexivity.
    + reflexivity.
    + lia.
Defined.

Lemma vector_evaluation_selected d sc inputs out o l q_pre k_pre v_pre :
  vector_evaluation d sc inputs out o l q_pre k_pre v_pre ->
  selected l = Some vector_single_pass \/ selected l = Some vector_two_pass.
Proof.
  intros [q k v eq ek ev out_evs launch_evs cq ck cv devc tp
            Nq Nk Nv Ho Hd Hr Hl ->].
  quiet_facts. skip_quiet.
  destruct tp.
  - right. eapply two_pass_encoded_first; eassumption.
  - left. eapply vector_encoded_first; eassumption.
Qed.

(** X2.  Vector mode launches over B*H by Lq threadgroups.  The
    single-pass routine makes one launch with 1024 threads per group; the
    two-pass routine makes two, the first 32 deep with 256 threads per
    group, the second with 1024. *)
Theorem vector_mode_grid d sc causal inputs out o l q_pre b h lq :
  run d sc causal inputs out = Ok (o, l) ->
  vec_index inputs 0 = Ok q_pre ->
  shape_at q_pre 0 = Ok b ->
  shape_at q_pre 1 = Ok h ->
  shape_at q_pre 2 = Ok lq ->
  lq <= 8 ->
  (selected l = Some vector_single_pass ->
   dispatches l = [(mtl_size (b * h) lq 1, mtl_size 1024 1 1)]) /\
  (selected l = Some vector_two_pass ->
   dispatches l = [(mtl_size (b * h) lq 32, mtl_size 256 1 1);
                   (mtl_size (b * h) lq 1, mtl_size 1024 1 1)]).
Proof.
  intros Hrun Hq Hb Hh Hlq Hvec.
  destruct (run_vector _ _ _ _ _ _ _ _ _ Hrun Hq Hlq Hvec)
    as (k_pre & v_pre & _ & _ & He).
  destruct He as [q k v eq ek ev out_evs launch_evs cq ck cv devc tp
                    Nq Nk Nv Ho Hd Hr Hl ->].
  quiet_facts. unfold dispatches, launches. skip_quiet.
  rewrite <- (normalized_shape_at _ _ _ _ _ 0 Nq) in Hb.
  rewrite <- (normalized_shape_at _ _ _ _ _ 1 Nq) in Hh.
  rewrite <- (normalized_shape_at _ _ _ _ _ 2 Nq) in Hlq.
  destruct tp.
  - rewrite (two_pass_encoded_first _ _ _ _ _ _ _ _ Hl).
    split; [discriminate | intros _].
    destruct Hl. same_reads.
    match goal with
    | Hme : vector_mask_events _ _ _ |- _ => destruct Hme; reflexivity
    end.
  - rewrite (vector_encoded_first _ _ _ _ _ _ _ _ Hl).
    split; [intros _ | discriminate].
    destruct Hl. same_reads.
    match goal with
    | Hme : vector_mask_events _ _ _ |- _ => destruct Hme; reflexivity
    end.
Qed.

Lemma vector_mode_grid_witness :
  exists o l,
    run Examples.large_device 0 false Examples.decode_inputs
        Examples.decode_output = Ok (o, l) /\
    dispatches l = [(mtl_size (1 * 1) 1 32, mtl_size 256 1 1);
                    (mtl_size (1 * 1) 1 1, mtl_size 1024 1 1)].
Proof.
  eexists _, _. split.
  - vm_compute. reflexivity.
  - apply (proj2 (vector_mode_grid Examples.large_device 0 false
                    Examples.decode_inputs Examples.decode_output _ _
                    (Examples.dense [1; 1; 1; 64] 0) 1 1 1
                    ltac:(vm_compute; reflexivity) ltac:(reflexivity)
                    ltac:(reflexivity) ltac:(reflexivity) ltac:(reflexivity)
                    ltac:(lia))).
    vm_compute. reflexivity.
Defined.

Lemma vector_output_shape q out o evs :
  vector_output q out o evs -> shape o = shape out /\ dtype o = dtype out.
Proof. intros []; split; reflexivity. Qed.

Ltac in_list := cbn [In]; repeat (first [left; reflexivity | right]).

(** ** The two passes *)

(** X3.  The two-pass routine allocates three [float32] intermediates: the
    partial outputs, shaped like the output with a block axis of extent 32
    before the last axis, and the partial sums and maxima, shaped like the
    output with its last axis replaced by the block axis.  The first launch
    writes them at slots 3, 4 and 5; the second reads them at slots 0, 1
    and 2 and writes the output at slot 3.  Each is handed to the device
    as a temporary. *)
Theorem two_pass_intermediates d sc causal inputs out o l q_pre lq :
  run d sc causal inputs out = Ok (o, l) ->
  vec_index inputs 0 = Ok q_pre ->
  shape_at q_pre 2 = Ok lq ->
  lq <= 8 ->
  selected l = Some vector_two_pass ->
  exists lead dv nb acc sums maxs L1 L2,
    shape out = lead ++ [dv] /\
    shape acc = lead ++ [32; dv] /\
    shape sums = lead ++ [32] /\
    shape maxs = lead ++ [32] /\
    (dtype acc = float32 /\ dtype sums = float32 /\ dtype maxs = float32) /\
    (data acc = Some (allocated nb) /\
     data sums = Some (allocated (S nb)) /\
     data maxs = Some (allocated (S (S nb)))) /\
    (In (Malloc (nbytes acc) (allocated nb)) l /\
     In (Malloc (nbytes sums) (allocated (S nb))) l /\
     In (Malloc (nbytes maxs) (allocated (S (S nb)))) l) /\
    (In (AddTemporary acc) l /\ In (AddTemporary sums) l /\
     In (AddTemporary maxs) l) /\
    launches l = [L1; L2] /\
    outputs_of L1 = [(3, acc); (4, sums); (5, maxs)] /\
    inputs_of L2 = [(0, acc); (1, sums); (2, maxs)] /\
    outputs_of L2 = [(3, o)].
Proof.
  intros Hrun Hq Hlq Hvec Hsel.
  destruct (run_vector _ _ _ _ _ _ _ _ _ Hrun Hq Hlq Hvec)
    as (k_pre & v_pre & _ & _ & He).
  destruct He as [q k v eq ek ev out_evs launch_evs cq ck cv devc tp
                    Nq Nk Nv Ho Hd Hr Hl ->].
  quiet_facts. revert Hsel. skip_quiet.
  destruct tp;
    [| rewrite (vector_encoded_first _ _ _ _ _ _ _ _ Hl); discriminate ].
  intros _.
  destruct Hl as [dq dv b h lq' hk n ks1 ks2 vs1 vs2 last lead nb mask_evs
                    _ _ _ _ _ _ _ _ _ _ _ _ _ Hshape Hme].
  rewrite (proj1 (vector_output_shape _ _ _ _ Ho)) in Hshape.
  exists lead, last, nb, (partials lead last nb), (partial_sums lead nb),
         (partial_maxs lead nb).
  unfold launches. skip_quiet.
  destruct Hme;
    eexists _, _;
    (split; [exact Hshape|]);
    do 3 (split; [reflexivity|]);
    do 2 (split; [repeat split; reflexivity|]);
    do 2 (split; [ repeat split; rewrite !in_app_iff; do 4 right; left;
                   in_list |]);
    (split; [cbv [collect app]; reflexivity|]);
    repeat split; reflexivity.
Qed.

Lemma two_pass_intermediates_witness :
  exists o l acc sums maxs L1 L2,
    run Examples.large_device 0 false Examples.decode_inputs
        Examples.decode_output = Ok (o, l) /\
    launches l = [L1; L2] /\
    outputs_of L1 = [(3, acc); (4, sums); (5, maxs)] /\
    inputs_of L2 = [(0, acc); (1, sums); (2, maxs)] /\
    outputs_of L2 = [(3, o)].
Proof.
  eexists _, _.
  destruct (two_pass_intermediates Examples.large_device 0 false
              Examples.decode_inputs Examples.decode_output _ _
              (Examples.dense [1; 1; 1; 64] 0) 1
              ltac:(vm_compute; reflexivity) ltac:(reflexivity)
              ltac:(reflexivity) ltac:(lia) ltac:(vm_compute; reflexivity))
    as (lead & dv & nb & acc & sums & maxs & L1 & L2
        & _ & _ & _ & _ & _ & _ & _ & _ & HL & H1 & H2 & H3).
  exists acc, sums, maxs, L1, L2.
  split; [vm_compute; reflexivity|]. auto.
Defined.

(** ** The argument table *)

(** X4.  Every launch binds the buffer slots 0, 1, 2, ... in increasing
    order, each exactly once and without a gap, whichever strategy runs and
    whether or not a mask is present. *)
Theorem argument_slots d sc causal inputs out o l :
  run d sc causal inputs out = Ok (o, l) ->
  launches l <> [] /\
  Forall (fun L => slots L = first_slots (List.length (arguments L)))
         (launches l).
Proof.
  intros Hrun.
  apply run_encoded in Hrun
    as (q_pre & k_pre & v_pre & lq & _ & _ & _ & _ & He).
  destruct (lq <=? 8).
  - destruct He as [q k v eq ek ev out_evs launch_evs cq ck cv devc tp
                      Nq Nk Nv Ho Hd Hr Hl ->].
    quiet_facts. unfold launches. skip_quiet.
    destruct tp; destruct Hl;
      match goal with
      | Hme : vector_mask_events _ _ _ |- _ => destruct Hme
      end;
      (split; [discriminate | repeat constructor]).
  - destruct He as [q k v eq ek ev em launch_evs cq ck cv cm mask n bo ho lo dv
                      Nq Nk Nv Ho0 Ho1 Ho2 Ho3 F1 F2 F3 Ho Hm Hlen Hl ->].
    quiet_facts. unfold launches. skip_quiet.
    destruct Hl;
      match goal with
      | Hme : full_mask_events _ _ |- _ => destruct Hme
      end;
      (split; [discriminate | repeat constructor]).
Qed.

Lemma argument_slots_witness :
  exists o l,
    run Examples.small_device 0 false Scenarios.masked_decode_inputs
        Scenarios.masked_decode_output = Ok (o, l) /\
    Forall (fun L => slots L = first_slots (List.length (arguments L)))
           (launches l).
Proof.
  eexists _, _.
  destruct (argument_slots Examples.small_device 0 false
              Scenarios.masked_decode_inputs Scenarios.masked_decode_output
              _ _ ltac:(vm_compute; reflexivity)) as [_ H].
  split; [vm_compute; reflexivity | exact H].
Defined.

(** ** Copies and allocations *)

Lemma normalized_parts predicate a a' evs cs :
  normalized predicate a a' evs cs ->
  copy_destinations evs = cs /\
  temporaries evs = [] /\
  (forall cs', ~ In (AddTemporaries cs') evs) /\
  (forall b, In b (allocations evs) -> exists c, In c cs /\ data c = Some b) /\
  (List.length cs <= 1)%nat.
Proof.
  intros [Hp | n Hp]; cbn; repeat split; auto.
  - intros b [].
  - intros cs' [H | [H | []]]; discriminate.
  - intros b [<- | []]. eexists. split; [left; reflexivity | reflexivity].
Qed.

Lemma vector_output_parts q out o evs :
  vector_output q out o evs ->
  copy_destinations evs = [] /\
  temporaries evs = [] /\
  (forall cs', ~ In (AddTemporaries cs') evs) /\
  (forall b, In b (allocations evs) -> data o = Some b).
Proof.
  intros []; cbn; repeat split; auto;
    try (intros cs' H'; cbn in H'; intuition discriminate);
    intros b0 H'; cbn in H'; intuition (subst; auto).
Qed.

Lemma vector_mask_parts slot mask evs :
  vector_mask_events slot mask evs ->
  copy_destinations evs = [] /\ temporaries evs = [] /\ allocations evs = [] /\
  (forall cs', ~ In (AddTemporaries cs') evs).
Proof.
  intros []; cbn; repeat split; auto; intros cs' H'; cbn in H';
    intuition discriminate.
Qed.

Lemma full_mask_parts mask evs :
  full_mask_events mask evs ->
  copy_destinations evs = [] /\ temporaries evs = [] /\ allocations evs = [] /\
  (forall cs', ~ In (AddTemporaries cs') evs).
Proof.
  intros []; cbn; repeat split; auto; intros cs' H'; cbn in H';
    intuition discriminate.
Qed.

Lemma vector_encoded_parts q k v out sc mask evs :
  vector_encoded q k v out sc mask evs ->
  copy_destinations evs = [] /\ temporaries evs = [] /\ allocations evs = [] /\
  (forall cs', ~ In (AddTemporaries cs') evs).
Proof.
  intros [].
  match goal with
  | Hme : vector_mask_events _ _ _ |- _ =>
      destruct (vector_mask_parts _ _ _ Hme) as (C & T & A & N)
  end.
  cbn [copy_destinations temporaries allocations].
  rewrite copy_destinations_app, temporaries_app, allocations_app, C, T, A.
  repeat split; try reflexivity.
  intros cs' H'. cbn [In] in H'. rewrite in_app_iff in H'. cbn [In] in H'.
  pose proof (N cs'). intuition discriminate.
Qed.

Lemma two_pass_encoded_parts q k v out sc mask evs :
  two_pass_encoded q k v out sc mask evs ->
  copy_destinations evs = [] /\
  (forall cs', ~ In (AddTemporaries cs') evs) /\
  (forall b, In b (allocations evs) ->
             exists a, In a (temporaries evs) /\ data a = Some b).
Proof.
  intros [].
  match goal with
  | Hme : vector_mask_events _ _ _ |- _ =>
      destruct (vector_mask_parts _ _ _ Hme) as (C & T & A & N)
  end.
  cbn [copy_destinations temporaries allocations].
  rewrite copy_destinations_app, temporaries_app, allocations_app, C, T, A.
  repeat split; try reflexivity.
  - intros cs' H'. cbn [In] in H'. rewrite in_app_iff in H'. cbn [In] in H'.
    pose proof (N cs'). intuition discriminate.
  - cbn [In app]. intros b0 [<- | [<- | [<- | []]]].
    + exists (partials lead last nb). split; [in_list | reflexivity].
    + exists (partial_sums lead nb). split; [in_list | reflexivity].
    + exists (partial_maxs lead nb). split; [in_list | reflexivity].
Qed.

Lemma full_encoded_parts q k v o sc causal mask evs :
  full_encoded q k v o sc causal mask evs ->
  copy_destinations evs = [] /\ temporaries evs = [] /\ allocations evs = [] /\
  (forall cs', ~ In (AddTemporaries cs') evs).
Proof.
  intros [].
  match goal with
  | Hme : full_mask_events _ _ |- _ =>
      destruct (full_mask_parts _ _ Hme) as (C & T & A & N)
  end.
  cbn [copy_destinations temporaries allocations].
  rewrite copy_destinations_app, temporaries_app, allocations_app, C, T, A.
  repeat split; try reflexivity.
  intros cs' H'. cbn [In] in H'. rewrite in_app_iff in H'. cbn [In] in H'.
  pose proof (N cs'). intuition discriminate.
Qed.

Lemma full_mask_normalized_parts (inputs : list array) mask em cm :
  match lookup inputs 3 with
  | Some m_pre =>
      exists m, mask = Some m /\ normalized is_matrix_contiguous m_pre m em cm
  | None => mask = None /\ em = [] /\ cm = []
  end ->
  copy_destinations em = cm /\
  temporaries em = [] /\
  (forall cs', ~ In (AddTemporaries cs') em) /\
  (forall b, In b (allocations em) -> exists c, In c cm /\ data c = Some b).
Proof.
  intros Hm. destruct (lookup inputs 3).
  - destruct Hm as (m & _ & Nm).
    destruct (normalized_parts _ _ _ _ _ Nm) as (C & T & N & A & _). auto.
  - destruct Hm as (_ & -> & ->). cbn. repeat split; auto.
    intros b [].
Qed.

(** X5.  The last call of an evaluation hands the device the copies made
    while normalising the operands: all of them, in the order they were
    made, and at most three. *)
Theorem copies_become_temporaries d sc causal inputs out o l :
  run d sc causal inputs out = Ok (o, l) ->
  exists l0 cs,
    l = l0 ++ [AddTemporaries cs] /\
    cs = copy_destinations l0 /\
    (List.length cs <= 3)%nat /\
    (forall cs', ~ In (AddTemporaries cs') l0).
Proof.
  intros Hrun.
  apply run_encoded in Hrun
    as (q_pre & k_pre & v_pre & lq & _ & _ & _ & _ & He).
  destruct (lq <=? 8).
  - destruct He as [q k v eq ek ev out_evs launch_evs cq ck cv devc tp
                      Nq Nk Nv Ho Hd Hr Hl ->].
    destruct (normalized_parts _ _ _ _ _ Nq) as (Cq & _ & Tq & _ & Lq).
    destruct (normalized_parts _ _ _ _ _ Nk) as (Ck & _ & Tk & _ & Lk).
    destruct (normalized_parts _ _ _ _ _ Nv) as (Cv & _ & Tv & _ & Lv).
    destruct (vector_output_parts _ _ _ _ Ho) as (Co & _ & To & _).
    assert (Hlaunch : copy_destinations launch_evs = [] /\
                      forall cs', ~ In (AddTemporaries cs') launch_evs).
    { destruct tp.
      - destruct (two_pass_encoded_parts _ _ _ _ _ _ _ Hl) as (C & N & _).
        auto.
      - destruct (vector_encoded_parts _ _ _ _ _ _ _ Hl) as (C & _ & _ & N).
        auto. }
    destruct Hlaunch as (Cl & Tl).
    exists (eq ++ ek ++ ev ++ out_evs ++ launch_evs), (cq ++ ck ++ cv).
    split; [now rewrite <- !app_assoc|].
    split; [|split].
    + rewrite !copy_destinations_app, Cq, Ck, Cv, Co, Cl.
      now rewrite !app_nil_r.
    + rewrite !length_app. lia.
    + intros cs' H'. rewrite !in_app_iff in H'.
      pose proof (Tq cs'). pose proof (Tk cs'). pose proof (Tv cs').
      pose proof (To cs'). pose proof (Tl cs'). tauto.
  - destruct He as [q k v eq ek ev em launch_evs cq ck cv cm mask n bo ho lo dv
                      Nq Nk Nv Ho0 Ho1 Ho2 Ho3 F1 F2 F3 Ho Hm Hlen Hl ->].
    destruct (normalized_parts _ _ _ _ _ Nq) as (Cq & _ & Tq & _ & Lq).
    destruct (normalized_parts _ _ _ _ _ Nk) as (Ck & _ & Tk & _ & Lk).
    destruct (normalized_parts _ _ _ _ _ Nv) as (Cv & _ & Tv & _ & Lv).
    destruct (full_mask_normalized_parts _ _ _ _ Hm) as (Cm & _ & Tm & _).
    destruct (full_encoded_parts _ _ _ _ _ _ _ _ Hl) as (Cl & _ & _ & Tl).
    eexists (eq ++ ek ++ ev ++ [_; _] ++ em ++ launch_evs),
            (cq ++ ck ++ cv ++ cm).
    split; [now rewrite <- !app_assoc|].
    split; [|split].
    + rewrite !copy_destinations_app, Cq, Ck, Cv, Cm, Cl.
      cbn [copy_destinations app]. now rewrite !app_nil_r.
    + exact Hlen.
    + intros cs' H'. rewrite !in_app_iff in H'. cbn [In] in H'.
      pose proof (Tq cs'). pose proof (Tk cs'). pose proof (Tv cs').
      pose proof (Tm cs'). pose proof (Tl cs').
      intuition discriminate.
Qed.

Lemma copies_become_temporaries_witness :
  exists o l l0 cs,
    run Examples.small_device 0 false Scenarios.strided_query_inputs
        Scenarios.strided_query_output = Ok (o, l) /\
    l = l0 ++ [AddTemporaries cs] /\
    cs = copy_destinations l0 /\
    (List.length cs <= 3)%nat.
Proof.
  eexists _, _.
  destruct (copies_become_temporaries Examples.small_device 0 false
              Scenarios.strided_query_inputs Scenarios.strided_query_output
              _ _ ltac:(vm_compute; reflexivity)) as (l0 & cs & H1 & H2 & H3 & _).
  exists l0, cs. split; [vm_compute; reflexivity | auto].
Defined.

(** X6.  Every buffer the allocator hands out during an evaluation ends up
    either as the storage of the output or as the storage of a handle
    given to the device as a temporary. *)
Theorem allocations_accounted d sc causal inputs out o l :
  run d sc causal inputs out = Ok (o, l) ->
  Forall (fun b => data o = Some b \/
                   exists a, In a (temporaries l) /\ data a = Some b)
         (allocations l).
Proof.
  intros Hrun.
  apply run_encoded in Hrun
    as (q_pre & k_pre & v_pre & lq & _ & _ & _ & _ & He).
  apply Forall_forall. intros b Hb.
  destruct (lq <=? 8).
  - destruct He as [q k v eq ek ev out_evs launch_evs cq ck cv devc tp
                      Nq Nk Nv Ho Hd Hr Hl ->].
    destruct (normalized_parts _ _ _ _ _ Nq) as (_ & _ & _ & Aq & _).
    destruct (normalized_parts _ _ _ _ _ Nk) as (_ & _ & _ & Ak & _).
    destruct (normalized_parts _ _ _ _ _ Nv) as (_ & _ & _ & Av & _).
    destruct (vector_output_parts _ _ _ _ Ho) as (_ & _ & _ & Ao).
    assert (Al : In b (allocations launch_evs) ->
                 exists a, In a (temporaries launch_evs) /\ data a = Some b).
    { destruct tp.
      - destruct (two_pass_encoded_parts _ _ _ _ _ _ _ Hl) as (_ & _ & A).
        apply A.
      - destruct (vector_encoded_parts _ _ _ _ _ _ _ Hl) as (_ & _ & A & _).
        rewrite A. intros []. }
    rewrite !allocations_app in Hb. rewrite !temporaries_app.
    cbn [allocations temporaries] in *.
    rewrite !in_app_iff in Hb. cbn [In] in Hb.
    assert (Hin : forall a,
              In a cq \/ In a ck \/ In a cv \/ In a (temporaries launch_evs) ->
              In a (temporaries eq ++ temporaries ek ++ temporaries ev ++
                    temporaries out_evs ++ temporaries launch_evs ++
                    (cq ++ ck ++ cv) ++ [])).
    { intros a Ha. rewrite !in_app_iff. tauto. }
    destruct Hb as [Hb | [Hb | [Hb | [Hb | [Hb | []]]]]].
    + apply Aq in Hb as (c & Hc & Hd'). right. exists c. split; [apply Hin; tauto | assumption].
    + apply Ak in Hb as (c & Hc & Hd'). right. exists c. split; [apply Hin; tauto | assumption].
    + apply Av in Hb as (c & Hc & Hd'). right. exists c. split; [apply Hin; tauto | assumption].
    + left. auto.
    + apply Al in Hb as (c & Hc & Hd'). right. exists c. split; [apply Hin; tauto | assumption].
  - destruct He as [q k v eq ek ev em launch_evs cq ck cv cm mask n bo ho lo dv
                      Nq Nk Nv Ho0 Ho1 Ho2 Ho3 F1 F2 F3 Ho Hm Hlen Hl ->].
    destruct (normalized_parts _ _ _ _ _ Nq) as (_ & _ & _ & Aq & _).
    destruct (normalized_parts _ _ _ _ _ Nk) as (_ & _ & _ & Ak & _).
    destruct (normalized_parts _ _ _ _ _ Nv) as (_ & _ & _ & Av & _).
    destruct (full_mask_normalized_parts _ _ _ _ Hm) as (_ & _ & _ & Am).
    destruct (full_encoded_parts _ _ _ _ _ _ _ _ Hl) as (_ & _ & Al & _).
    rewrite !allocations_app in Hb. rewrite !temporaries_app.
    cbn [allocations temporaries] in *.
    rewrite Al in Hb. rewrite !in_app_iff in Hb. cbn [In] in Hb.
    assert (Hin : forall a,
              In a cq \/ In a ck \/ In a cv \/ In a cm ->
              In a (temporaries eq ++ temporaries ek ++ temporaries ev ++
                    [] ++ temporaries em ++ temporaries launch_evs ++
                    (cq ++ ck ++ cv ++ cm) ++ [])).
    { intros a Ha. rewrite !in_app_iff. tauto. }
    destruct Hb as [Hb | [Hb | [Hb | [[<- | []] | [Hb | [[] | []]]]]]].
    + apply Aq in Hb as (c & Hc & Hd'). right. exists c. split; [apply Hin; tauto | assumption].
    + apply Ak in Hb as (c & Hc & Hd'). right. exists c. split; [apply Hin; tauto | assumption].
    + apply Av in Hb as (c & Hc & Hd'). right. exists c. split; [apply Hin; tauto | assumption].
    + left. rewrite Ho. reflexivity.
    + apply Am in Hb as (c & Hc & Hd'). right. exists c. split; [apply Hin; tauto | assumption].
Qed.

Lemma allocations_accounted_witness :
  exists o l,
    run Examples.large_device 0 false Examples.decode_inputs
        Examples.decode_output = Ok (o, l) /\
    Forall (fun b => data o = Some b \/
                     exists a, In a (temporaries l) /\ data a = Some b)
           (allocations l).
Proof.
  eexists _, _. split.
  - vm_compute. reflexivity.
  - apply (allocations_accounted Examples.large_device 0 false
             Examples.decode_inputs Examples.decode_output).
    vm_compute. reflexivity.
Defined.

(** ** The output of full mode *)

Lemma full_mask_no_donation mask evs x y :
  full_mask_events mask evs -> ~ In (CopySharedBuffer x y) evs.
Proof. intros [] H; cbn in H; intuition discriminate. Qed.

Lemma full_encoded_no_donation q k v o sc causal mask evs x y :
  full_encoded q k v o sc causal mask evs -> ~ In (CopySharedBuffer x y) evs.
Proof.
  intros [] H'. cbn [In] in H'. rewrite in_app_iff in H'. cbn [In] in H'.
  match goal with
  | Hme : full_mask_events _ _ |- _ =>
      pose proof (full_mask_no_donation _ _ x y Hme)
  end.
  intuition discriminate.
Qed.

(** X7.  In full mode the output never takes over the query's storage.  It
    receives a fresh allocation of [nbytes] bytes and the strides
    [Lq*H*Dv, Dv, H*Dv, 1] over its extents [B, H, Lq, Dv]: sequence-major
    with the heads interleaved.  It is flagged contiguous, not
    row-contiguous, and is what the launch writes at slot 3. *)
Theorem full_mode_output d sc causal inputs out o l q_pre lq b h lo dv :
  run d sc causal inputs out = Ok (o, l) ->
  vec_index inputs 0 = Ok q_pre ->
  shape_at q_pre 2 = Ok lq ->
  lq > 8 ->
  shape_at out 0 = Ok b ->
  shape_at out 1 = Ok h ->
  shape_at out 2 = Ok lo ->
  shape_at out 3 = Ok dv ->
  exists n L,
    o = set_data_strided out (allocated n)
          (to_size_t (b * (lo * (h * dv))))
          [lo * (h * dv); dv; h * dv; 1] (mkFlags true false false) /\
    In (Malloc (nbytes out) (allocated n)) l /\
    (forall x y, ~ In (CopySharedBuffer x y) l) /\
    launches l = [L] /\
    outputs_of L = [(3, o)].
Proof.
  intros Hrun Hq Hlq Hfull Hb Hh Hlo Hdv.
  destruct (run_full _ _ _ _ _ _ _ _ _ Hrun Hq Hlq Hfull)
    as (k_pre & v_pre & _ & _ & He).
  destruct He as [q k v eq ek ev em launch_evs cq ck cv cm mask n bo ho lo' dv'
                    Nq Nk Nv Ho0 Ho1 Ho2 Ho3 F1 F2 F3 Ho Hm Hlen Hl ->].
  same_reads. quiet_facts.
  exists n. unfold launches. skip_quiet.
  assert (Hnd : forall x y,
            ~ In (CopySharedBuffer x y)
                 (eq ++ ek ++ ev
                  ++ [Malloc (nbytes out) (allocated n);
                      SetDataStrided out (allocated n)
                        (to_size_t (b * (lo * (h * dv))))
                        [lo * (h * dv); dv; h * dv; 1]
                        (mkFlags true false false)]
                  ++ em ++ launch_evs
                  ++ [AddTemporaries (cq ++ ck ++ cv ++ cm)])).
  { intros x y H'. rewrite !in_app_iff in H'. cbn [In] in H'.
    pose proof (normalized_no_donation _ _ _ _ _ x y Nq).
    pose proof (normalized_no_donation _ _ _ _ _ x y Nk).
    pose proof (normalized_no_donation _ _ _ _ _ x y Nv).
    pose proof (full_encoded_no_donation _ _ _ _ _ _ _ _ x y Hl).
    assert (Hem : ~ In (CopySharedBuffer x y) em).
    { destruct (lookup inputs 3).
      - destruct Hm as (m & _ & Nm).
        apply (normalized_no_donation _ _ _ _ _ x y Nm).
      - destruct Hm as (_ & -> & _). intros []. }
    intuition discriminate. }
  destruct Hl;
    match goal with
    | Hme : full_mask_events _ _ |- _ => destruct Hme
    end;
    eexists;
    (split; [exact Ho|]);
    (split; [rewrite !in_app_iff; do 3 right; left; left; reflexivity|]);
    (split; [exact Hnd|]);
    (split; [cbv [collect app]; reflexivity|]);
    rewrite Ho; reflexivity.
Qed.

Lemma full_mode_output_witness :
  exists o l n,
    run Examples.small_device 0 true Examples.prefill_inputs
        Examples.prefill_output = Ok (o, l) /\
    o = set_data_strided Examples.prefill_output (allocated n)
          (to_size_t (2 * (50 * (8 * 128))))
          [50 * (8 * 128); 128; 8 * 128; 1] (mkFlags true false false).
Proof.
  eexists _, _.
  destruct (full_mode_output Examples.small_device 0 true
              Examples.prefill_inputs Examples.prefill_output _ _
              (Examples.dense [2; 8; 50; 128] 0) 50 2 8 50 128
              ltac:(vm_compute; reflexivity) ltac:(reflexivity)
              ltac:(reflexivity) ltac:(lia) ltac:(reflexivity)
              ltac:(reflexivity) ltac:(reflexivity) ltac:(reflexivity))
    as (n & L & Ho & _).
  exists n. split; [vm_compute; reflexivity | exact Ho].
Defined.

(** ** The arguments of the kernels *)

Lemma normalized_dtype predicate a a' evs cs :
  normalized predicate a a' evs cs -> dtype a' = dtype a.
Proof. intros []; reflexivity. Qed.

(** X8.  The parameter block of the tiled kernel describes the handles
    bound with it: its stride triples are the first three strides of the
    arrays at slots 0, 1, 2 and of the output at slot 3 (of the copies,
    where an operand was copied), its [B], [H], [D] are the query's
    extents, its scale is the primitive's, and its [gqa_factor] is the
    truncated quotient of the query heads by the key/value heads, which
    must not be zero. *)
Theorem full_mode_parameters d sc causal inputs out o l q_pre k_pre lq :
  run d sc causal inputs out = Ok (o, l) ->
  vec_index inputs 0 = Ok q_pre ->
  vec_index inputs 1 = Ok k_pre ->
  shape_at q_pre 2 = Ok lq ->
  lq > 8 ->
  exists p q k v hk,
    bytes_at 4 l = Some (of_AttnParams p) /\
    input_array 0 l = Some q /\
    input_array 1 l = Some k /\
    input_array 2 l = Some v /\
    leading_strides q (Q_strides p) /\
    leading_strides k (K_strides p) /\
    leading_strides v (V_strides p) /\
    leading_strides o (O_strides p) /\
    shape_at q_pre 0 = Ok (B p) /\
    shape_at q_pre 1 = Ok (H p) /\
    shape_at q_pre 3 = Ok (D p) /\
    scale p = sc /\
    shape_at k_pre 1 = Ok hk /\ hk <> 0 /\
    gqa_factor p = Z.quot (H p) hk.
Proof.
  intros Hrun Hq Hk Hlq Hfull.
  destruct (run_full _ _ _ _ _ _ _ _ _ Hrun Hq Hlq Hfull)
    as (k0 & v_pre & Hk0 & _ & He).
  rewrite Hk in Hk0. injection Hk0 as <-.
  destruct He as [q k v eq ek ev em launch_evs cq ck cv cm mask n bo ho lo dv
                    Nq Nk Nv Ho0 Ho1 Ho2 Ho3 F1 F2 F3 Ho Hm Hlen Hl ->].
  quiet_facts. skip_quiet.
  destruct Hl as [bd b h d0 ql kl hk qs ks vs os mask_evs
                    Hbd Hb Hh Hd Hql Hhk Hnz Hkl Rq Rk Sq Sk Sv So Hme].
  rewrite (normalized_shape_at _ _ _ _ _ 0 Nq) in Hb.
  rewrite (normalized_shape_at _ _ _ _ _ 1 Nq) in Hh.
  rewrite (normalized_shape_at _ _ _ _ _ 3 Nq) in Hd.
  rewrite (normalized_shape_at _ _ _ _ _ 1 Nk) in Hhk.
  exists (full_params b h d0 ql kl hk bd sc qs ks vs os), q, k, v, hk.
  cbn [full_params Q_strides K_strides V_strides O_strides B H D scale
       gqa_factor].
  repeat (split; [first [assumption | reflexivity]|]).
  reflexivity.
Qed.

Lemma full_mode_parameters_witness :
  exists o l p hk,
    run Examples.small_device 0 true Examples.prefill_inputs
        Examples.prefill_output = Ok (o, l) /\
    bytes_at 4 l = Some (of_AttnParams p) /\
    leading_strides o (O_strides p) /\
    shape_at (Examples.dense [2; 2; 50; 128] 1) 1 = Ok hk /\
    gqa_factor p = Z.quot (H p) hk.
Proof.
  eexists _, _.
  destruct (full_mode_parameters Examples.small_device 0 true
              Examples.prefill_inputs Examples.prefill_output _ _
              (Examples.dense [2; 8; 50; 128] 0)
              (Examples.dense [2; 2; 50; 128] 1) 50
              ltac:(vm_compute; reflexivity) ltac:(reflexivity)
              ltac:(reflexivity) ltac:(reflexivity) ltac:(lia))
    as (p & q & k & v & hk & Hp & _ & _ & _ & _ & _ & _ & Ho & _ & _ & _ & _
        & Hhk & _ & Hg).
  exists p, hk. split; [vm_compute; reflexivity | auto].
Defined.

(** X9.  The scalar arguments of the vector kernels describe the handles
    bound with them.  After the output (slot 3 in the single-pass kernel,
    slots 3 to 5 in the first pass) come, in this order: the truncated
    quotient of the query heads by the key/value heads, which must not be
    zero; the key length; the head and sequence strides of the array at
    slot 1 and of the array at slot 2, as [size_t]; and the scale. *)
Theorem vector_mode_arguments d sc causal inputs out o l q_pre k_pre lq :
  run d sc causal inputs out = Ok (o, l) ->
  vec_index inputs 0 = Ok q_pre ->
  vec_index inputs 1 = Ok k_pre ->
  shape_at q_pre 2 = Ok lq ->
  lq <= 8 ->
  exists st k v h hk lk ks1 ks2 vs1 vs2,
    selected l = Some st /\
    input_array 1 l = Some k /\
    input_array 2 l = Some v /\
    shape_at q_pre 1 = Ok h /\
    shape_at k_pre 1 = Ok hk /\ hk <> 0 /\
    shape_at k_pre 2 = Ok lk /\
    vec_index (strides k) 1 = Ok ks1 /\ vec_index (strides k) 2 = Ok ks2 /\
    vec_index (strides v) 1 = Ok vs1 /\ vec_index (strides v) 2 = Ok vs2 /\
    let base := first_scalar_slot st in
    bytes_at base l = Some (of_int (Z.quot h hk)) /\
    bytes_at (base + 1) l = Some (of_int lk) /\
    bytes_at (base + 2) l = Some (of_size_t (to_size_t ks1)) /\
    bytes_at (base + 3) l = Some (of_size_t (to_size_t ks2)) /\
    bytes_at (base + 4) l = Some (of_size_t (to_size_t vs1)) /\
    bytes_at (base + 5) l = Some (of_size_t (to_size_t vs2)) /\
    bytes_at (base + 6) l = Some (of_float sc).
Proof.
  intros Hrun Hq Hk Hlq Hvec.
  destruct (run_vector _ _ _ _ _ _ _ _ _ Hrun Hq Hlq Hvec)
    as (k0 & v_pre & Hk0 & _ & He).
  rewrite Hk in Hk0. injection Hk0 as <-.
  destruct He as [q k v eq ek ev out_evs launch_evs cq ck cv devc tp
                    Nq Nk Nv Ho Hd Hr Hl ->].
  quiet_facts.
  exists (if tp then vector_two_pass else vector_single_pass), k, v.
  destruct tp.
  - pose proof (two_pass_encoded_first _ _ _ _ _ _ _
                  [AddTemporaries (cq ++ ck ++ cv)] Hl) as Hsel.
    destruct Hl as [dq dv b h lq' hk n ks1 ks2 vs1 vs2 last lead nb mask_evs
                      Hdq Hdv Hb Hh Hlq' Hhk Hnz Hn Hfit K1 K2 V1 V2 Hshape Hme].
    rewrite (normalized_shape_at _ _ _ _ _ 1 Nq) in Hh.
    rewrite (normalized_shape_at _ _ _ _ _ 1 Nk) in Hhk.
    rewrite (normalized_shape_at _ _ _ _ _ 2 Nk) in Hn.
    exists h, hk, n, ks1, ks2, vs1, vs2.
    cbv zeta. skip_quiet.
    split; [exact Hsel|].
    repeat (split; [first [assumption | reflexivity]|]). reflexivity.
  - pose proof (vector_encoded_first _ _ _ _ _ _ _
                  [AddTemporaries (cq ++ ck ++ cv)] Hl) as Hsel.
    destruct Hl as [dq dv b h lq' hk n ks1 ks2 vs1 vs2 mask_evs
                      Hdq Hdv Hb Hh Hlq' Hhk Hnz Hn Hfit K1 K2 V1 V2 Hme].
    rewrite (normalized_shape_at _ _ _ _ _ 1 Nq) in Hh.
    rewrite (normalized_shape_at _ _ _ _ _ 1 Nk) in Hhk.
    rewrite (normalized_shape_at _ _ _ _ _ 2 Nk) in Hn.
    exists h, hk, n, ks1, ks2, vs1, vs2.
    cbv zeta. skip_quiet.
    split; [exact Hsel|].
    repeat (split; [first [assumption | reflexivity]|]). reflexivity.
Qed.

Lemma vector_mode_arguments_witness :
  exists o l st hk,
    run Examples.small_device 0 false Examples.decode_inputs
        Examples.decode_output = Ok (o, l) /\
    selected l = Some st /\
    shape_at (Examples.dense [1; 1; 2048; 64] 1) 1 = Ok hk /\
    bytes_at (first_scalar_slot st) l = Some (of_int (Z.quot 1 hk)) /\
    bytes_at (first_scalar_slot st + 1) l = Some (of_int 2048) /\
    bytes_at (first_scalar_slot st + 6) l = Some (of_float 0).
Proof.
  eexists _, _.
  destruct (vector_mode_arguments Examples.small_device 0 false
              Examples.decode_inputs Examples.decode_output _ _
              (Examples.dense [1; 1; 1; 64] 0)
              (Examples.dense [1; 1; 2048; 64] 1) 1
              ltac:(vm_compute; reflexivity) ltac:(reflexivity)
              ltac:(reflexivity) ltac:(reflexivity) ltac:(lia))
    as (st & k & v & h & hk & lk & ks1 & ks2 & vs1 & vs2
        & Hsel & _ & _ & Hh & Hhk & _ & Hlk & _ & _ & _ & _
        & Hg & Hn & _ & _ & _ & _ & Hs).
  injection Hh as <-. injection Hlk as <-.
  exists st, hk. split; [vm_compute; reflexivity | auto].
Defined.

(** ** The query *)

(** X10.  The query reaches the kernel at slot 0 as it is when it passes
    the mode's layout test, and as a row-major copy made beforehand when it
    does not.  Vector mode tests for a row-contiguous query or one with
    its head and sequence axes transposed; full mode tests for a unit
    innermost stride. *)
Theorem query_normalisation d sc causal inputs out o l q_pre lq :
  run d sc causal inputs out = Ok (o, l) ->
  vec_index inputs 0 = Ok q_pre ->
  shape_at q_pre 2 = Ok lq ->
  passed_or_copied_by
    (if lq <=? 8 then is_contiguous_or_head_seq_transposed
     else is_matrix_contiguous) q_pre 0 l.
Proof.
  intros Hrun Hq Hlq.
  apply run_encoded in Hrun
    as (q0 & k_pre & v_pre & lq0 & Hq0 & _ & _ & Hlq0 & He).
  rewrite Hq in Hq0. injection Hq0 as <-.
  rewrite Hlq in Hlq0. injection Hlq0 as <-.
  unfold passed_or_copied_by.
  destruct (lq <=? 8).
  - destruct He as [q k v eq ek ev out_evs launch_evs cq ck cv devc tp
                      Nq Nk Nv Ho Hd Hr Hl ->].
    assert (Hin : forall pre,
              quiet pre ->
              input_array 0
                (pre ++ ek ++ ev ++ out_evs ++ launch_evs
                 ++ [AddTemporaries (cq ++ ck ++ cv)]) = Some q).
    { intros pre Qp. quiet_facts. skip_quiet.
      destruct tp; destruct Hl; reflexivity. }
    destruct Nq as [Hp | n Hp]; split; intros Hpred; try congruence.
    + apply (Hin []). reflexivity.
    + exists (general_copy q_pre n).
      split; [apply general_copy_row_major|]. split.
      * cbn [copy_events app before_dispatch]. right. left. reflexivity.
      * apply (Hin (copy_events q_pre n)). reflexivity.
  - destruct He as [q k v eq ek ev em launch_evs cq ck cv cm mask n bo ho lo dv
                      Nq Nk Nv Ho0 Ho1 Ho2 Ho3 F1 F2 F3 Ho Hm Hlen Hl ->].
    assert (Hin : forall pre,
              quiet pre ->
              input_array 0
                (pre ++ ek ++ ev
                 ++ [Malloc (nbytes out) (allocated n);
                     SetDataStrided out (allocated n)
                       (to_size_t (bo * (lo * (ho * dv))))
                       [lo * (ho * dv); dv; ho * dv; 1]
                       (mkFlags true false false)]
                 ++ em ++ launch_evs
                 ++ [AddTemporaries (cq ++ ck ++ cv ++ cm)]) = Some q).
    { intros pre Qp. quiet_facts. skip_quiet.
      destruct Hl; reflexivity. }
    destruct Nq as [Hp | n' Hp]; split; intros Hpred; try congruence.
    + apply (Hin []). reflexivity.
    + exists (general_copy q_pre n').
      split; [apply general_copy_row_major|]. split.
      * cbn [copy_events app before_dispatch]. right. left. reflexivity.
      * apply (Hin (copy_events q_pre n')). reflexivity.
Qed.

Lemma query_normalisation_witness :
  exists o l c,
    run Examples.small_device 0 false Scenarios.strided_query_inputs
        Scenarios.strided_query_output = Ok (o, l) /\
    row_major_copy_of (Examples.transposed [1; 2; 2; 64] 0) c /\
    input_array 0 l = Some c.
Proof.
  eexists _, _.
  destruct (query_normalisation Examples.small_device 0 false
              Scenarios.strided_query_inputs Scenarios.strided_query_output
              _ _ (Examples.transposed [1; 2; 2; 64] 0) 2
              ltac:(vm_compute; reflexivity) ltac:(reflexivity)
              ltac:(reflexivity)) as [_ Hcopy].
  destruct (Hcopy ltac:(vm_compute; reflexivity)) as (c & Hc & _ & Hin).
  exists c. split; [vm_compute; reflexivity | auto].
Defined.

(** ** Kernel specialisation *)

(** X11.  The vector kernels are named after the family, the query's
    element type and the two head dimensions, and are specialised by two
    constants, which the hash name spells out: constant 20 says whether a
    fourth input, the mask, is present; constant 21 says whether the query
    is read transposed, which is the case exactly when the caller's query
    is not flagged row-contiguous and yet passes the layout test, so that
    it is bound without a copy. *)
Theorem vector_kernel_specialisation d sc causal inputs out o l
        q_pre v_pre lq dq dv :
  run d sc causal inputs out = Ok (o, l) ->
  vec_index inputs 0 = Ok q_pre ->
  vec_index inputs 2 = Ok v_pre ->
  shape_at q_pre 2 = Ok lq ->
  lq <= 8 ->
  shape_at q_pre (-1) = Ok dq ->
  shape_at v_pre (-1) = Ok dv ->
  exists kernel family (has_mask query_transposed : bool),
    first_kernel l = Some kernel /\
    (family = "sdpa_vector_"%string \/
     family = "sdpa_vector_2pass_1_"%string) /\
    base_name_of kernel
    = [ lit family; get_type_string (dtype q_pre);
        lit "_"; to_string dq; lit "_"; to_string dv ] /\
    hash_name_of kernel
    = base_name_of kernel
      ++ [ lit (if has_mask then "_mask" else "_nomask");
           lit (if query_transposed then "_qt" else "_qnt") ] /\
    function_constants kernel
    = [ mkFC has_mask DataTypeBool 20;
        mkFC query_transposed DataTypeBool 21 ] /\
    (has_mask = true <-> exists m, lookup inputs 3 = Some m) /\
    (query_transposed = true <->
     row_contiguous (flags q_pre) = false /\
     is_contiguous_or_head_seq_transposed q_pre = Ok true).
Proof.
  intros Hrun Hq Hv Hlq Hvec Hdq Hdv.
  destruct (run_vector _ _ _ _ _ _ _ _ _ Hrun Hq Hlq Hvec)
    as (k_pre & v0 & _ & Hv0 & He).
  rewrite Hv in Hv0. injection Hv0 as <-.
  destruct He as [q k v eq ek ev out_evs launch_evs cq ck cv devc tp
                    Nq Nk Nv Ho Hd Hr Hl ->].
  quiet_facts. skip_quiet.
  assert (Hmask : has_value (lookup inputs 3) = true <->
                  exists m, lookup inputs 3 = Some m).
  { destruct (lookup inputs 3) as [m|]; cbn; split; eauto; try discriminate.
    intros (m & [=]). }
  assert (Hqt : negb (row_contiguous (flags q)) = true <->
                row_contiguous (flags q_pre) = false /\
                is_contiguous_or_head_seq_transposed q_pre = Ok true).
  { destruct Nq as [Hp | n Hp].
    - destruct (row_contiguous (flags q_pre)); cbn; intuition congruence.
    - cbn. split; [discriminate | intros [_ Hc]; congruence]. }
  pose proof (normalized_dtype _ _ _ _ _ Nq) as Tq.
  rewrite <- (normalized_shape_at _ _ _ _ _ (-1) Nq) in Hdq.
  rewrite <- (normalized_shape_at _ _ _ _ _ (-1) Nv) in Hdv.
  destruct tp; destruct Hl; same_reads; rewrite Tq;
    [ eexists _, "sdpa_vector_2pass_1_"%string,
              (has_value (lookup inputs 3)), (negb (row_contiguous (flags q)))
    | eexists _, "sdpa_vector_"%string,
              (has_value (lookup inputs 3)), (negb (row_contiguous (flags q))) ];
    (split; [reflexivity|]);
    (split; [first [left; reflexivity | right; reflexivity]|]);
    repeat (split; [reflexivity|]); split; assumption.
Qed.

Lemma vector_kernel_specialisation_witness :
  exists o l kernel,
    run Examples.small_device 0 false Examples.donation_inputs
        Examples.donation_output = Ok (o, l) /\
    first_kernel l = Some kernel /\
    function_constants kernel
    = [mkFC false DataTypeBool 20; mkFC true DataTypeBool 21].
Proof.
  eexists _, _.
  destruct (vector_kernel_specialisation Examples.small_device 0 false
              Examples.donation_inputs Examples.donation_output _ _
              Examples.donatable_query (Examples.dense [1; 2; 16; 64] 2)
              2 64 64
              ltac:(vm_compute; reflexivity) ltac:(reflexivity)
              ltac:(reflexivity) ltac:(reflexivity) ltac:(lia)
              ltac:(reflexivity) ltac:(reflexivity))
    as (kernel & family & hm & qt & Hk & _ & _ & _ & Hc & Hm & Hq).
  exists kernel. split; [vm_compute; reflexivity|]. split; [exact Hk|].
  rewrite Hc.
  assert (Eq : qt = true).
  { apply Hq. split; vm_compute; reflexivity. }
  assert (Em : hm = false).
  { destruct hm; [|reflexivity].
    destruct (proj1 Hm eq_refl) as (m & Hlk). vm_compute in Hlk.
    discriminate Hlk. }
  now rewrite Eq, Em.
Defined.

Lemma rem_zero_divide a b : b <> 0 -> (Z.rem a b =? 0) = true <-> (b | a).
Proof. intros Hb. rewrite Z.eqb_eq. now apply Z.rem_divide. Qed.

(** X12.  The tiled kernel is specialised by four constants, which the
    hash name spells out with the letters t and n: constant 200 says that
    the query length is a multiple of the query tile, 201 that the key
    length is a multiple of the key tile, 300 that a mask is present and
    301 is the causal flag.  The base name carries the query's element
    type, the tile sizes, the head dimension and the element type of the
    mask, or of the query when there is no mask. *)
Theorem full_kernel_specialisation d sc causal inputs out o l
        q_pre k_pre lq lk bd :
  run d sc causal inputs out = Ok (o, l) ->
  vec_index inputs 0 = Ok q_pre ->
  vec_index inputs 1 = Ok k_pre ->
  shape_at q_pre 2 = Ok lq ->
  lq > 8 ->
  shape_at k_pre 2 = Ok lk ->
  shape_at q_pre (-1) = Ok bd ->
  let bk := if bd <? 128 then 32 else 16 in
  exists kernel (align_Q align_K has_mask : bool),
    first_kernel l = Some kernel /\
    base_name_of kernel
    = [ lit "steel_attention_"; type_to_name (dtype q_pre);
        lit "_bq"; to_string 32; lit "_bk"; to_string bk;
        lit "_bd"; to_string bd; lit "_wm"; to_string 4;
        lit "_wn"; to_string 1; lit "_mask";
        type_to_name (dtype (match lookup inputs 3 with
                             | Some m => m
                             | None => q_pre
                             end)) ] /\
    hash_name_of kernel
    = base_name_of kernel
      ++ [ lit "_align_Q_"; chr (tn align_Q);
           lit "_align_K_"; chr (tn align_K);
           lit "_has_mask_"; chr (tn has_mask);
           lit "_do_causal_"; chr (tn causal) ] /\
    function_constants kernel
    = [ mkFC align_Q DataTypeBool 200; mkFC align_K DataTypeBool 201;
        mkFC has_mask DataTypeBool 300; mkFC causal DataTypeBool 301 ] /\
    (align_Q = true <-> (32 | lq)) /\
    (align_K = true <-> (bk | lk)) /\
    (has_mask = true <-> exists m, lookup inputs 3 = Some m).
Proof.
  intros Hrun Hq Hk Hlq Hfull Hlk Hbd bk.
  destruct (run_full _ _ _ _ _ _ _ _ _ Hrun Hq Hlq Hfull)
    as (k0 & v_pre & Hk0 & _ & He).
  rewrite Hk in Hk0. injection Hk0 as <-.
  destruct He as [q k v eq ek ev em launch_evs cq ck cv cm mask n bo ho lo dv
                    Nq Nk Nv Ho0 Ho1 Ho2 Ho3 F1 F2 F3 Ho Hm Hlen Hl ->].
  quiet_facts. skip_quiet.
  assert (Hmask : (has_value mask = true <->
                   exists m, lookup inputs 3 = Some m) /\
                  dtype (match mask with Some m => m | None => q end)
                  = dtype (match lookup inputs 3 with
                           | Some m => m
                           | None => q_pre
                           end)).
  { destruct (lookup inputs 3) as [m_pre|].
    - destruct Hm as (m & -> & Nm). cbn. split.
      + split; eauto.
      + eapply normalized_dtype; eassumption.
    - destruct Hm as (-> & _ & _). cbn. split.
      + split; [discriminate | intros (m & [=])].
      + eapply normalized_dtype; eassumption. }
  destruct Hmask as (Hmask & Tm).
  pose proof (normalized_dtype _ _ _ _ _ Nq) as Tq.
  rewrite <- (normalized_shape_at _ _ _ _ _ (-1) Nq) in Hbd.
  rewrite <- (normalized_shape_at _ _ _ _ _ 2 Nq) in Hlq.
  rewrite <- (normalized_shape_at _ _ _ _ _ 2 Nk) in Hlk.
  destruct Hl as [bd' b h d0 ql kl hk qs ks vs os mask_evs
                    Hbd' Hb Hh Hd Hql Hhk Hnz Hkl Rq Rk Sq Sk Sv So Hme].
  same_reads.
  exists (get_kernel (full_base_name q bd mask) "mlx"
            (full_base_name q bd mask ++ full_suffix lq lk bd causal mask)
            (full_constants lq lk bd causal mask)),
         (Z.rem lq 32 =? 0), (Z.rem lk (tile_bk bd) =? 0), (has_value mask).
  split; [reflexivity|].
  split; [unfold base_name_of, full_base_name; rewrite Tq, Tm; reflexivity|].
  split; [reflexivity|].
  split; [reflexivity|].
  split; [apply rem_zero_divide; lia|].
  split; [|exact Hmask].
  subst bk. apply rem_zero_divide. unfold tile_bk.
  destruct (bd <? 128); lia.
Qed.

Lemma full_kernel_specialisation_witness :
  exists o l kernel,
    run Examples.small_device 0 true Examples.prefill_inputs
        Examples.prefill_output = Ok (o, l) /\
    first_kernel l = Some kernel /\
    function_constants kernel
    = [ mkFC false DataTypeBool 200; mkFC false DataTypeBool 201;
        mkFC false DataTypeBool 300; mkFC true DataTypeBool 301 ].
Proof.
  eexists _, _.
  destruct (full_kernel_specialisation Examples.small_device 0 true
              Examples.prefill_inputs Examples.prefill_output _ _
              (Examples.dense [2; 8; 50; 128] 0)
              (Examples.dense [2; 2; 50; 128] 1) 50 50 128
              ltac:(vm_compute; reflexivity) ltac:(reflexivity)
              ltac:(reflexivity) ltac:(reflexivity) ltac:(lia)
              ltac:(reflexivity) ltac:(reflexivity))
    as (kernel & aq & ak & hm & Hk & _ & _ & Hc & Hq & Hkk & Hm).
  exists kernel. split; [vm_compute; reflexivity|]. split; [exact Hk|].
  rewrite Hc.
  assert (Eq : aq = false).
  { destruct aq; [|reflexivity]. destruct (proj1 Hq eq_refl) as (z & Hz). lia. }
  assert (Ek : ak = false).
  { destruct ak; [|reflexivity].
    destruct (proj1 Hkk eq_refl) as (z & Hz). cbn in Hz. lia. }
  assert (Em : hm = false).
  { destruct hm; [|reflexivity].
    destruct (proj1 Hm eq_refl) as (m & Hlk). vm_compute in Hlk.
    discriminate Hlk. }
  now rewrite Eq, Ek, Em.
Defined.

(** ** Tiles *)

Lemma ragged_count a b :
  0 <= a -> 0 < b ->
  Z.quot (a + b - 1) b
  = Z.quot a b + (if a - Z.quot a b * b =? 0 then 0 else 1).
Proof.
  intros Ha Hb. rewrite !Z.quot_div_nonneg by lia.
  pose proof (Z.div_mod a b ltac:(lia)) as Hdm.
  pose proof (Z.mod_pos_bound a b Hb) as Hm.
  replace (a - a / b * b) with (a mod b) by lia.
  destruct (a mod b =? 0) eqn:E.
  - apply Z.eqb_eq in E. symmetry.
    apply (Z.div_unique (a + b - 1) b (a / b + 0) (b - 1)); lia.
  - apply Z.eqb_neq in E. symmetry.
    apply (Z.div_unique (a + b - 1) b (a / b + 1) (a mod b - 1)); lia.
Qed.

Lemma quot_remainder a b :
  0 <= a -> 0 < b ->
  Z.quot a b * b + (a - Z.quot a b * b) = a /\ 0 <= a - Z.quot a b * b < b.
Proof.
  intros Ha Hb. rewrite !Z.quot_div_nonneg by lia.
  pose proof (Z.div_mod a b ltac:(lia)) as Hdm.
  pose proof (Z.mod_pos_bound a b Hb) as Hm.
  replace (a - a / b * b) with (a mod b) by lia. lia.
Qed.

(** X13.  The parameter block splits each sequence into whole tiles and a
    remainder shorter than a tile: [NQ_aligned * bq + qL_rem = Lq] with
    [0 <= qL_rem < bq], and the grid has one more row of tiles than
    [NQ_aligned] exactly when the remainder is not zero; likewise for the
    keys. *)
Theorem tile_remainders d sc causal inputs out o l q_pre k_pre lq lk bd :
  run d sc causal inputs out = Ok (o, l) ->
  vec_index inputs 0 = Ok q_pre ->
  vec_index inputs 1 = Ok k_pre ->
  shape_at q_pre 2 = Ok lq ->
  lq > 8 ->
  shape_at k_pre 2 = Ok lk ->
  0 <= lk ->
  shape_at q_pre (-1) = Ok bd ->
  let bk := if bd <? 128 then 32 else 16 in
  exists p,
    bytes_at 4 l = Some (of_AttnParams p) /\
    (NQ_aligned p * 32 + qL_rem p = lq /\ 0 <= qL_rem p < 32) /\
    (NK_aligned p * bk + kL_rem p = lk /\ 0 <= kL_rem p < bk) /\
    NQ p = NQ_aligned p + (if qL_rem p =? 0 then 0 else 1) /\
    NK p = NK_aligned p + (if kL_rem p =? 0 then 0 else 1).
Proof.
  intros Hrun Hq Hk Hlq Hfull Hlk Hpos Hbd bk.
  destruct (run_full _ _ _ _ _ _ _ _ _ Hrun Hq Hlq Hfull)
    as (k0 & v_pre & Hk0 & _ & He).
  rewrite Hk in Hk0. injection Hk0 as <-.
  destruct He as [q k v eq ek ev em launch_evs cq ck cv cm mask n bo ho lo dv
                    Nq Nk Nv Ho0 Ho1 Ho2 Ho3 F1 F2 F3 Ho Hm Hlen Hl ->].
  quiet_facts. skip_quiet.
  rewrite <- (normalized_shape_at _ _ _ _ _ (-1) Nq) in Hbd.
  rewrite <- (normalized_shape_at _ _ _ _ _ 2 Nq) in Hlq.
  rewrite <- (normalized_shape_at _ _ _ _ _ 2 Nk) in Hlk.
  destruct Hl as [bd' b h d0 ql kl hk qs ks vs os mask_evs
                    Hbd' Hb Hh Hd Hql Hhk Hnz Hkl Rq Rk Sq Sk Sv So Hme].
  same_reads.
  exists (full_params b h d0 lq lk hk bd sc qs ks vs os).
  split; [reflexivity|].
  cbn [full_params NQ NK NQ_aligned NK_aligned qL_rem kL_rem].
  assert (Hbk : 0 < tile_bk bd) by apply tile_bk_pos.
  change bk with (tile_bk bd).
  split; [apply quot_remainder; lia|].
  split; [apply quot_remainder; lia|].
  split; apply ragged_count; lia.
Qed.

Lemma tile_remainders_witness :
  exists o l p,
    run Examples.small_device 0 true Examples.prefill_inputs
        Examples.prefill_output = Ok (o, l) /\
    bytes_at 4 l = Some (of_AttnParams p) /\
    NQ_aligned p * 32 + qL_rem p = 50 /\
    NK_aligned p * 16 + kL_rem p = 50.
Proof.
  eexists _, _.
  destruct (tile_remainders Examples.small_device 0 true
              Examples.prefill_inputs Examples.prefill_output _ _
              (Examples.dense [2; 8; 50; 128] 0)
              (Examples.dense [2; 2; 50; 128] 1) 50 50 128
              ltac:(vm_compute; reflexivity) ltac:(reflexivity)
              ltac:(reflexivity) ltac:(reflexivity) ltac:(lia)
              ltac:(reflexivity) ltac:(lia) ltac:(reflexivity))
    as (p & Hp & [Hq _] & [Hk _] & _).
  exists p. split; [vm_compute; reflexivity | auto].
Defined.

(** ** The mask *)

Lemma row_major_length sh : List.length (row_major sh) = List.length sh.
Proof. induction sh; cbn; congruence. Qed.

Lemma strides_at_short a i :
  0 <= i -> zlength (strides a) <= i -> strides_at a i = Fault OutOfRange.
Proof.
  intros Hi Hlen. unfold strides_at, vec_at, lookup.
  assert (E : (i <? 0) = false) by (apply Z.ltb_ge; lia). rewrite E.
  assert (E' : (i <? zlength (strides a)) = false) by (apply Z.ltb_ge; lia).
  rewrite E', andb_false_r. reflexivity.
Qed.

(** X14.  Full mode reads the strides of the mask's first three axes with
    the checked accessor: an evaluation whose mask has fewer than three
    axes does not complete. *)
Theorem full_mode_mask_rank d sc causal inputs out q_pre lq m :
  vec_index inputs 0 = Ok q_pre ->
  shape_at q_pre 2 = Ok lq ->
  lq > 8 ->
  lookup inputs 3 = Some m ->
  zlength (strides m) = ndim m ->
  ndim m < 3 ->
  exists f, run d sc causal inputs out = Fault f.
Proof.
  intros Hq Hlq Hfull Hmask Hwf Hrank.
  destruct (run d sc causal inputs out) as [[o l]|f] eqn:Hrun; [|eauto].
  exfalso.
  destruct (run_full _ _ _ _ _ _ _ _ _ Hrun Hq Hlq Hfull)
    as (k_pre & v_pre & _ & _ & He).
  destruct He as [q k v eq ek ev em launch_evs cq ck cv cm mask n bo ho lo dv
                    Nq Nk Nv Ho0 Ho1 Ho2 Ho3 F1 F2 F3 Ho Hm Hlen Hl _].
  rewrite Hmask in Hm. destruct Hm as (m' & -> & Nm).
  destruct Hl as [bd' b h d0 ql kl hk qs ks vs os mask_evs
                    _ _ _ _ _ _ _ _ _ _ _ _ _ _ Hme].
  inversion Hme as [|m0 s0 s1 s2 _ _ H2]; subst.
  assert (Hshort : zlength (strides m') <= 2).
  { destruct Nm as [_ | nb _]; [lia|].
    unfold general_copy, zlength. cbn [strides set_data new_array].
    rewrite row_major_length. unfold ndim, zlength in Hrank. lia. }
  rewrite (strides_at_short m' 2) in H2 by lia. discriminate.
Qed.

Lemma full_mode_mask_rank_witness :
  exists f,
    run Examples.small_device 0 false
        (Examples.masked_inputs 9 9 (Scenarios.flat_mask 9 9))
        (Examples.masked_output 9) = Fault f.
Proof.
  apply (full_mode_mask_rank Examples.small_device 0 false
           (Examples.masked_inputs 9 9 (Scenarios.flat_mask 9 9))
           (Examples.masked_output 9)
           (Examples.dense [1; 1; 9; 64] 0) 9 (Scenarios.flat_mask 9 9)).
  - reflexivity.
  - reflexivity.
  - lia.
  - reflexivity.
  - reflexivity.
  - vm_compute. reflexivity.
Defined.

(** X15.  The vector kernels accept a mask of any rank: for a handle with
    as many strides as axes the stride argument of every trailing axis is
    defined, and it is 0 for an axis the mask does not have. *)
Theorem mask_stride_defined m k :
  zlength (strides m) = ndim m ->
  1 <= k ->
  exists s, mask_stride m k = Ok s /\ (ndim m < k -> s = 0).
Proof.
  intros Hwf Hk. unfold mask_stride, rand, shape_at, vec_at, vec_index.
  cbn [rbind].
  assert (Hneg : (- k <? 0) = true) by (apply Z.ltb_lt; lia).
  rewrite Hneg. replace (- k + ndim m) with (ndim m - k) by lia.
  destruct (ndim m >=? k) eqn:Hnd.
  - apply geb_ge in Hnd.
    assert (Hin : (0 <=? ndim m - k) && (ndim m - k <? ndim m) = true).
    { apply andb_true_iff. rewrite Z.leb_le, Z.ltb_lt. lia. }
    assert (Hsh : exists e, lookup (shape m) (ndim m - k) = Some e).
    { unfold lookup. fold (ndim m). rewrite Hin.
      destruct (nth_error (shape m) (Z.to_nat (ndim m - k))) eqn:E; eauto.
      apply nth_error_None in E. unfold ndim, zlength in *. lia. }
    assert (Hst : exists s, lookup (strides m) (ndim m - k) = Some s).
    { unfold lookup. rewrite Hwf, Hin.
      destruct (nth_error (strides m) (Z.to_nat (ndim m - k))) eqn:E; eauto.
      apply nth_error_None in E. unfold ndim, zlength in *. lia. }
    destruct Hsh as (e & ->). destruct Hst as (s & ->). cbn [rbind].
    destruct (e >? 1); cbn [rbind]; eexists; (split; [reflexivity | lia]).
  - cbn [rbind]. exists (to_int32 0). split; reflexivity.
Qed.

Lemma mask_stride_defined_witness :
  exists s, mask_stride (Scenarios.flat_mask 9 9) 3 = Ok s /\ s = 0.
Proof.
  destruct (mask_stride_defined (Scenarios.flat_mask 9 9) 3
              ltac:(reflexivity) ltac:(lia)) as (s & Hs & H0).
  exists s. split; [exact Hs|]. apply H0. vm_compute. reflexivity.
Defined.

(** ** The inputs *)

Lemma zlength_cons {A} (x : A) l : zlength (x :: l) = 1 + zlength l.
Proof. unfold zlength. cbn [List.length]. lia. Qed.

Lemma zlength_nonneg {A} (l : list A) : 0 <= zlength l.
Proof. unfold zlength. lia. Qed.

Lemma vec_index_head {A} (x : A) l : vec_index (x :: l) 0 = Ok x.
Proof.
  unfold vec_index, lookup. rewrite zlength_cons.
  pose proof (zlength_nonneg l).
  assert (E : (0 <? 1 + zlength l) = true) by (apply Z.ltb_lt; lia).
  rewrite E. reflexivity.
Qed.

Lemma vec_index_tail {A} (x : A) l i :
  0 < i -> vec_index (x :: l) i = vec_index l (i - 1).
Proof.
  intros Hi. unfold vec_index, lookup. rewrite zlength_cons.
  assert (E1 : (0 <=? i) = true) by (apply Z.leb_le; lia).
  assert (E2 : (0 <=? i - 1) = true) by (apply Z.leb_le; lia).
  rewrite E1, E2. cbn [andb].
  destruct (i <? 1 + zlength l) eqn:E3.
  - assert (E4 : (i - 1 <? zlength l) = true).
    { apply Z.ltb_lt. apply Z.ltb_lt in E3. lia. }
    rewrite E4. replace (Z.to_nat i) with (S (Z.to_nat (i - 1))) by lia.
    reflexivity.
  - assert (E4 : (i - 1 <? zlength l) = false).
    { apply Z.ltb_ge. apply Z.ltb_ge in E3. lia. }
    rewrite E4. reflexivity.
Qed.

(** X16.  Only the first four inputs are ever read: whatever follows the
    mask has no influence on the evaluation, neither on its outcome nor on
    the calls it makes. *)
Theorem extra_inputs_ignored d sc causal q k v m rest out :
  run d sc causal (q :: k :: v :: m :: rest) out
  = run d sc causal [q; k; v; m] out.
Proof.
  assert (Hlen : forall r : list array,
            (zlength (q :: k :: v :: m :: r) >? 3) = true).
  { intros r. rewrite !zlength_cons. pose proof (zlength_nonneg r).
    apply Z.gtb_lt. lia. }
  assert (H3 : forall r : list array,
            vec_index (q :: k :: v :: m :: r) 3 = Ok m).
  { intros r. rewrite !vec_index_tail by lia. apply vec_index_head. }
  assert (H2 : forall r : list array,
            vec_index (q :: k :: v :: m :: r) 2 = Ok v).
  { intros r. rewrite !vec_index_tail by lia. apply vec_index_head. }
  assert (H1 : forall r : list array,
            vec_index (q :: k :: v :: m :: r) 1 = Ok k).
  { intros r. rewrite !vec_index_tail by lia. apply vec_index_head. }
  unfold run, eval_gpu, vector_mode, full_mode.
  rewrite !vec_index_head, !H1, !H2, !H3, !Hlen. reflexivity.
Qed.

(** X17.  An evaluation completes only on a call with at least three
    inputs whose query and keys have the axes the dispatcher reads, and
    with a number of key/value heads that is not zero: the grouped-query
    factor is an integer division by it.  The arithmetic is done in [int]:
    in vector mode [B * H] must be representable, in full mode
    [Lq + 32]. *)
Theorem evaluation_requirements d sc causal inputs out o l :
  run d sc causal inputs out = Ok (o, l) ->
  exists q_pre k_pre v_pre b h lq dq hk lk,
    lookup inputs 0 = Some q_pre /\
    lookup inputs 1 = Some k_pre /\
    lookup inputs 2 = Some v_pre /\
    shape_at q_pre 0 = Ok b /\
    shape_at q_pre 1 = Ok h /\
    shape_at q_pre 2 = Ok lq /\
    shape_at q_pre (-1) = Ok dq /\
    shape_at k_pre 1 = Ok hk /\
    shape_at k_pre 2 = Ok lk /\
    hk <> 0 /\
    (lq <= 8 -> fits_int (b * h) = true) /\
    (lq > 8 -> lq + 32 <= INT_MAX).
Proof.
  intros Hrun.
  apply run_encoded in Hrun
    as (q_pre & k_pre & v_pre & lq & Hq & Hk & Hv & Hlq & He).
  apply vec_index_lookup in Hq, Hk, Hv.
  exists q_pre, k_pre, v_pre.
  destruct (lq <=? 8) eqn:Emode.
  - apply Z.leb_le in Emode.
    destruct He as [q k v eq ek ev out_evs launch_evs cq ck cv devc tp
                      Nq Nk Nv Ho Hd Hr Hl ->].
    assert (Hreads : exists dq b h lq' hk n,
              shape_at q (-1) = Ok dq /\ shape_at q 0 = Ok b /\
              shape_at q 1 = Ok h /\ shape_at q 2 = Ok lq' /\
              shape_at k 1 = Ok hk /\ hk <> 0 /\ shape_at k 2 = Ok n /\
              fits_int (b * h) = true).
    { destruct tp; destruct Hl; eexists _, _, _, _, _, _;
        repeat split; eassumption. }
    destruct Hreads as (dq & b & h & lq' & hk & n
                        & Hdq & Hb & Hh & Hlq' & Hhk & Hnz & Hn & Hfit).
    rewrite (normalized_shape_at _ _ _ _ _ _ Nq) in Hdq.
    rewrite (normalized_shape_at _ _ _ _ _ _ Nq) in Hb.
    rewrite (normalized_shape_at _ _ _ _ _ _ Nq) in Hh.
    rewrite (normalized_shape_at _ _ _ _ _ _ Nq) in Hlq'.
    rewrite (normalized_shape_at _ _ _ _ _ _ Nk) in Hhk.
    rewrite (normalized_shape_at _ _ _ _ _ _ Nk) in Hn.
    rewrite Hlq in Hlq'. injection Hlq' as <-.
    exists b, h, lq, dq, hk, n.
    repeat (split; [assumption|]). split; [auto | lia].
  - apply Z.leb_gt in Emode.
    destruct He as [q k v eq ek ev em launch_evs cq ck cv cm mask n bo ho lo dv
                      Nq Nk Nv Ho0 Ho1 Ho2 Ho3 F1 F2 F3 Ho Hm Hlen Hl ->].
    destruct Hl as [bd b h d0 ql kl hk qs ks vs os mask_evs
                      Hbd Hb Hh Hd Hql Hhk Hnz Hkl Rq Rk Sq Sk Sv So Hme].
    rewrite (normalized_shape_at _ _ _ _ _ _ Nq) in Hbd.
    rewrite (normalized_shape_at _ _ _ _ _ _ Nq) in Hb.
    rewrite (normalized_shape_at _ _ _ _ _ _ Nq) in Hh.
    rewrite (normalized_shape_at _ _ _ _ _ _ Nq) in Hql.
    rewrite (normalized_shape_at _ _ _ _ _ _ Nk) in Hhk.
    rewrite (normalized_shape_at _ _ _ _ _ _ Nk) in Hkl.
    rewrite Hlq in Hql. injection Hql as <-.
    exists b, h, lq, bd, hk, kl.
    repeat (split; [assumption|]). split; [lia | intros _; lia].
Qed.

Lemma evaluation_requirements_witness :
  exists o l hk,
    run Examples.small_device 0 false Examples.decode_inputs
        Examples.decode_output = Ok (o, l) /\
    shape_at (Examples.dense [1; 1; 2048; 64] 1) 1 = Ok hk /\ hk <> 0.
Proof.
  eexists _, _.
  destruct (evaluation_requirements Examples.small_device 0 false
              Examples.decode_inputs Examples.decode_output _ _
              ltac:(vm_compute; reflexivity))
    as (q_pre & k_pre & v_pre & b & h & lq & dq & hk & lk
        & _ & Hk & _ & _ & _ & _ & _ & Hhk & _ & Hnz & _).
  vm_compute in Hk. injection Hk as <-.
  exists hk. split; [vm_compute; reflexivity | auto].
Defined.

(** X18.  [copies] is given room for three elements.  A full-mode call in
    which the query, the keys, the values and the mask all need a copy
    pushes a fourth, the vector reallocates, and the references to the
    first three copies dangle when the launch routine reads them: the
    evaluation does not complete. *)
Theorem fourth_copy_invalidates d sc causal inputs out q_pre k_pre v_pre m lq :
  vec_index inputs 0 = Ok q_pre ->
  vec_index inputs 1 = Ok k_pre ->
  vec_index inputs 2 = Ok v_pre ->
  lookup inputs 3 = Some m ->
  shape_at q_pre 2 = Ok lq ->
  lq > 8 ->
  is_matrix_contiguous q_pre = Ok false ->
  is_matrix_contiguous k_pre = Ok false ->
  is_matrix_contiguous v_pre = Ok false ->
  is_matrix_contiguous m = Ok false ->
  exists f, run d sc causal inputs out = Fault f.
Proof.
  intros Hq Hk Hv Hm Hlq Hfull Pq Pk Pv Pm.
  destruct (run d sc causal inputs out) as [[o l]|f] eqn:Hrun; [|eauto].
  exfalso.
  destruct (run_full _ _ _ _ _ _ _ _ _ Hrun Hq Hlq Hfull)
    as (k0 & v0 & Hk0 & Hv0 & He).
  rewrite Hk in Hk0. injection Hk0 as <-.
  rewrite Hv in Hv0. injection Hv0 as <-.
  destruct He as [q k v eq ek ev em launch_evs cq ck cv cm mask n bo ho lo dv
                    Nq Nk Nv Ho0 Ho1 Ho2 Ho3 F1 F2 F3 Ho Hmask Hlen Hl _].
  rewrite Hm in Hmask. destruct Hmask as (m' & _ & Nm).
  rewrite !length_app in Hlen.
  rewrite (normalized_copied_length _ _ _ _ _ Nq Pq),
          (normalized_copied_length _ _ _ _ _ Nk Pk),
          (normalized_copied_length _ _ _ _ _ Nv Pv),
          (normalized_copied_length _ _ _ _ _ Nm Pm) in Hlen.
  cbn in Hlen. lia.
Qed.

Lemma fourth_copy_invalidates_witness :
  exists f,
    run Examples.small_device 0 false Examples.four_copies_inputs
        (Examples.masked_output 9) = Fault f.
Proof.
  apply (fourth_copy_invalidates Examples.small_device 0 false
           Examples.four_copies_inputs (Examples.masked_output 9)
           (Examples.transposed [1; 1; 9; 64] 0)
           (Examples.transposed [1; 1; 9; 64] 1)
           (Examples.transposed [1; 1; 9; 64] 2)
           (Examples.sparse_mask 9 9) 9).
  - reflexivity.
  - reflexivity.
  - reflexivity.
  - reflexivity.
  - reflexivity.
  - lia.
  - reflexivity.
  - reflexivity.
  - reflexivity.
  - reflexivity.
Defined.

(** X19.  Every call without a mask on densely packed row-major operands
    [B, H, Lq, D], [B, Hk, Lk, D] and [B, Hk, Lk, Dv] of moderate extents,
    with an output handle [B, H, Lq, Dv], on a device whose architecture
    string is not empty, completes: in either mode, whatever the causal
    flag, the element types, the storage and the ownership of the operands,
    the allocator handing out every buffer it is asked for. *)
Theorem dense_evaluation_completes d c sc causal nb nh nhk lq lk dq dv
        q k v out :
  string_back (get_architecture d) = Some c ->
  1 <= nb <= 1024 ->
  1 <= nh <= 1024 ->
  1 <= nhk <= 1024 ->
  1 <= dq <= 1024 ->
  1 <= dv <= 1024 ->
  1 <= lq <= 1073741824 ->
  1 <= lk <= 1073741824 ->
  shape q = [nb; nh; lq; dq] ->
  shape k = [nb; nhk; lk; dq] ->
  shape v = [nb; nhk; lk; dv] ->
  shape out = [nb; nh; lq; dv] ->
  strides q = row_major (shape q) ->
  strides k = row_major (shape k) ->
  strides v = row_major (shape v) ->
  strides out = row_major (shape out) ->
  row_contiguous (flags q) = true ->
  exists o l, run d sc causal [q; k; v] out = Ok (o, l).
Proof.
  intros Hc Hnb Hnh Hnhk Hdq Hdv Hlq Hlk Hq Hk Hv Ho Sq Sk Sv So Fq.
  now apply (dense_call_defined d c sc nb nh nhk lq lk dq dv).
Qed.

Lemma dense_evaluation_completes_witness :
  (exists o l,
     run Examples.small_device 0 true Examples.prefill_inputs
         Examples.prefill_output = Ok (o, l)) /\
  (exists o l,
     run Examples.small_device 0 true Scenarios.owned_decode_inputs
         Scenarios.owned_decode_output = Ok (o, l)).
Proof.
  split.
  - apply (dense_evaluation_completes Examples.small_device "g" 0 true
             2 8 2 50 50 128 128); first [reflexivity | lia].
  - apply (dense_evaluation_completes Examples.small_device "g" 0 true
             1 2 2 1 16 64 64); first [reflexivity | lia].
Defined.

(** ** The device *)

(** X20.  An evaluation depends on the device only through the last
    character of its architecture string, and in full mode not at all.  In
    vector mode the string must not be empty. *)
Theorem device_dependence d d' sc causal inputs out :
  (string_back (get_architecture d) = string_back (get_architecture d') ->
   run d sc causal inputs out = run d' sc causal inputs out) /\
  (forall q_pre lq,
     vec_index inputs 0 = Ok q_pre -> shape_at q_pre 2 = Ok lq ->
     (lq > 8 -> run d sc causal inputs out = run d' sc causal inputs out) /\
     (lq <= 8 -> get_architecture d = EmptyString ->
      exists f, run d sc causal inputs out = Fault f)).
Proof.
  split; [|intros q_pre lq Hq Hlq; split].
  - intros Hd.
    unfold run, eval_gpu, vector_mode, full_mode, sdpa_vector,
      sdpa_vector_2pass, sdpa_full_self_attention_metal.
    rewrite Hd. reflexivity.
  - intros Hfull.
    assert (E : (lq <=? 8) = false) by (apply Z.leb_gt; lia).
    unfold run, eval_gpu, bind, lift. rewrite Hq.
    destruct (vec_index inputs 1) as [k_pre|]; [|reflexivity].
    destruct (vec_index inputs 2) as [v_pre|]; [|reflexivity].
    cbn [reserve initial copies_capacity Nat.leb].
    rewrite Hlq, E. reflexivity.
  - intros Hvec Hd.
    destruct (run d sc causal inputs out) as [[o l]|f] eqn:Hrun; [|eauto].
    exfalso.
    destruct (run_vector _ _ _ _ _ _ _ _ _ Hrun Hq Hlq Hvec)
      as (k_pre & v_pre & _ & _ & He).
    destruct He as [q k v eq ek ev out_evs launch_evs cq ck cv devc tp
                      Nq Nk Nv Ho Ha Hr Hl _].
    rewrite Hd in Ha. discriminate.
Qed.

Lemma device_dependence_witness :
  run Examples.small_device 0 true Examples.prefill_inputs
      Examples.prefill_output
  = run Examples.large_device 0 true Examples.prefill_inputs
        Examples.prefill_output.
Proof.
  apply (proj2 (device_dependence Examples.small_device Examples.large_device
                  0 true Examples.prefill_inputs Examples.prefill_output)
               (Examples.dense [2; 8; 50; 128] 0) 50).
  - reflexivity.
  - reflexivity.
  - lia.
Defined.

(** ** The causal flag *)

Import Relational.

Section Causal.

Variables c1 c2 : bool.

Lemma causal_variant_refl e : causal_variant c1 c2 e e.
Proof. now left. Qed.

Lemma similar_refl s : similar c1 c2 s s.
Proof.
  repeat split. induction (log s); constructor; auto using causal_variant_refl.
Qed.

Lemma related_ret {A} (a : A) : related c1 c2 (ret a) (ret a).
Proof. intros s1 s2 Hs. cbn. auto. Qed.

Lemma related_lift {A} (r : result A) : related c1 c2 (lift r) (lift r).
Proof. intros s1 s2 Hs. unfold lift. destruct r; cbn; auto. Qed.

Lemma related_events e1 e2 :
  causal_variant c1 c2 e1 e2 -> related c1 c2 (emit e1) (emit e2).
Proof.
  intros He s1 s2 (Hc & Hcap & He' & Hn & Hl). cbn.
  split; [reflexivity|]. repeat split; cbn; auto.
  apply Forall2_app; [assumption | constructor; [assumption | constructor]].
Qed.

Lemma related_emit e : related c1 c2 (emit e) (emit e).
Proof. apply related_events, causal_variant_refl. Qed.

Lemma related_kernel base lib a1 a2 a3 a4 a5 a6 a7 f1 f2 f3 :
  related c1 c2
    (emit (SetComputePipelineState
             (get_kernel base lib
                (base ++ [a1; a2; a3; a4; a5; a6; a7; chr (tn c1)])
                [f1; f2; f3; mkFC c1 DataTypeBool 301])))
    (emit (SetComputePipelineState
             (get_kernel base lib
                (base ++ [a1; a2; a3; a4; a5; a6; a7; chr (tn c2)])
                [f1; f2; f3; mkFC c2 DataTypeBool 301]))).
Proof.
  apply related_events. right.
  exists base, lib, (base ++ [a1; a2; a3; a4; a5; a6; a7]), [f1; f2; f3].
  rewrite <- !app_assoc. split; reflexivity.
Qed.

Lemma related_malloc n :
  related c1 c2 (allocator_malloc n) (allocator_malloc n).
Proof.
  intros s1 s2 (Hc & Hcap & He & Hn & Hl). unfold allocator_malloc.
  rewrite Hn. cbn. split; [reflexivity|]. repeat split; cbn; auto.
  apply Forall2_app; [assumption|].
  constructor; [apply causal_variant_refl | constructor].
Qed.

Lemma related_reserve n : related c1 c2 (reserve n) (reserve n).
Proof.
  intros s1 s2 (Hc & Hcap & He & Hn & Hl). unfold reserve.
  rewrite Hcap. destruct (n <=? copies_capacity s2)%nat; cbn;
    (split; [reflexivity|]); repeat split; cbn; auto.
Qed.

Lemma related_push_back a : related c1 c2 (push_back a) (push_back a).
Proof.
  intros s1 s2 (Hc & Hcap & He & Hn & Hl). unfold push_back.
  rewrite Hc, Hcap.
  destruct (List.length (copies s2) <? copies_capacity s2)%nat; cbn;
    (split; [reflexivity|]); repeat split; cbn; auto; congruence.
Qed.

Lemma related_back : related c1 c2 back back.
Proof.
  intros s1 s2 (Hc & Hcap & He & Hn & Hl). unfold back.
  rewrite Hc, He. destruct (List.length (copies s2)); cbn; auto.
  split; [reflexivity|]. repeat split; auto.
Qed.

Lemma related_deref r : related c1 c2 (deref r) (deref r).
Proof.
  intros s1 s2 Hs. pose proof Hs as (Hc & Hcap & He & Hn & Hl).
  unfold deref. destruct r as [a | e i]; cbn; auto.
  rewrite Hc, He. destruct (e =? copies_epoch s2)%nat; cbn; auto.
  destruct (nth_error (copies s2) i); cbn; auto.
Qed.

Lemma related_take_copies : related c1 c2 take_copies take_copies.
Proof.
  intros s1 s2 (Hc & Hcap & He & Hn & Hl). unfold take_copies.
  rewrite Hc, He. cbn. split; [reflexivity|]. repeat split; cbn; auto.
Qed.

Lemma related_bind {A B} (m1 m2 : M A) (k1 k2 : A -> M B) :
  related c1 c2 m1 m2 ->
  (forall a, related c1 c2 (k1 a) (k2 a)) ->
  related c1 c2 (bind m1 k1) (bind m2 k2).
Proof.
  intros Hm Hk s1 s2 Hs. unfold bind.
  specialize (Hm s1 s2 Hs). unfold same_outcome in Hm.
  destruct (m1 s1) as [[a1 t1]|f1], (m2 s2) as [[a2 t2]|f2];
    try contradiction.
  - destruct Hm as [<- Ht]. now apply Hk.
  - exact Hm.
Qed.

End Causal.

Ltac related_step :=
  lazymatch goal with
  | |- related _ _ (bind _ _) (bind _ _) =>
      apply related_bind; [| intros ?]
  | |- related _ _ (if ?b then _ else _) (if ?b then _ else _) =>
      destruct b
  | |- related _ _ (match ?x with Some _ => _ | None => _ end)
                   (match ?x with Some _ => _ | None => _ end) =>
      destruct x
  | |- related _ _ (ret _) (ret _) => apply related_ret
  | |- related _ _ (lift _) (lift _) => apply related_lift
  | |- related _ _ (emit _) (emit _) =>
      first [apply related_emit | apply related_kernel]
  | |- related _ _ (allocator_malloc _) (allocator_malloc _) =>
      apply related_malloc
  | |- related _ _ (reserve _) (reserve _) => apply related_reserve
  | |- related _ _ (push_back _) (push_back _) => apply related_push_back
  | |- related _ _ back back => apply related_back
  | |- related _ _ (deref _) (deref _) => apply related_deref
  | |- related _ _ take_copies take_copies => apply related_take_copies
  end.

Lemma eval_gpu_related d sc c1 c2 inputs out :
  related c1 c2 (eval_gpu d sc c1 inputs out) (eval_gpu d sc c2 inputs out).
Proof.
  cbv beta zeta delta
      [eval_gpu vector_mode full_mode sdpa_full_self_attention_metal
       sdpa_vector sdpa_vector_2pass copy_unless copy_gpu donate_or_allocate
       malloc_data set_compute_pipeline_state set_input_array
       set_output_array set_bytes dispatch_threadgroups add_temporary
       add_temporaries].
  repeat related_step.
Qed.

(** X21.  Two evaluations that differ only in the causal flag have the
    same outcome: both complete or both fail alike; when they complete they
    populate the output alike and make the same calls in the same order,
    except that the tiled kernel is specialised for the one flag or for
    the other.  No argument, grid size, allocation or copy depends on the
    flag. *)
Theorem causal_flag_only_specialises d sc c1 c2 inputs out :
  match run d sc c1 inputs out, run d sc c2 inputs out with
  | Ok (o1, l1), Ok (o2, l2) =>
      o1 = o2 /\ Forall2 (causal_variant c1 c2) l1 l2
  | Fault f1, Fault f2 => f1 = f2
  | _, _ => False
  end.
Proof.
  pose proof (eval_gpu_related d sc c1 c2 inputs out initial initial
                (similar_refl c1 c2 initial)) as H.
  unfold run, same_outcome in *.
  destruct (eval_gpu d sc c1 inputs out initial) as [[o1 s1]|f1],
           (eval_gpu d sc c2 inputs out initial) as [[o2 s2]|f2];
    try contradiction.
  - destruct H as [-> (_ & _ & _ & _ & Hl)]. auto.
  - exact H.
Qed.

(** ** The output as an operand *)

Lemma head_seq_transposed_ok a b h lo dv s0 s2 fl dsize buf :
  fits_int (dv * h) = true ->
  fits_int64 (h * dv * lo) = true ->
  shape a = [b; h; lo; dv] ->
  s2 = h * dv ->
  s0 = lo * (h * dv) ->
  is_contiguous_or_head_seq_transposed
    (set_data_strided a buf dsize [s0; dv; s2; 1] fl)
  = Ok true.
Proof.
  intros F1 F2 Hs -> ->. unfold is_contiguous_or_head_seq_transposed.
  cbn [set_data_strided flags strides shape]. rewrite Hs.
  destruct (row_contiguous fl); [reflexivity|].
  change (vec_index [lo * (h * dv); dv; h * dv; 1] 3) with (Ok (A := Z) 1).
  change (vec_index [lo * (h * dv); dv; h * dv; 1] 2)
    with (Ok (A := Z) (h * dv)).
  change (vec_index [lo * (h * dv); dv; h * dv; 1] 1) with (Ok (A := Z) dv).
  change (vec_index [lo * (h * dv); dv; h * dv; 1] 0)
    with (Ok (A := Z) (lo * (h * dv))).
  change (vec_index [b; h; lo; dv] 3) with (Ok (A := Z) dv).
  change (vec_index [b; h; lo; dv] 2) with (Ok (A := Z) lo).
  change (vec_index [b; h; lo; dv] 1) with (Ok (A := Z) h).
  assert (E1 : (h * dv =? dv * h) = true) by (apply Z.eqb_eq; lia).
  assert (E2 : (lo * (h * dv) =? h * dv * lo) = true) by (apply Z.eqb_eq; lia).
  unfold rand, int_mul, int_of, int64_mul, int64_of. cbn [rbind].
  repeat (first [ rewrite Z.eqb_refl | rewrite F1 | rewrite F2
                | rewrite E1 | rewrite E2 ]; cbn [rbind]).
  reflexivity.
Qed.

(** X22.  An output that did not take over the query's storage can be the
    query of a later call without a copy: for an output handle over
    [B, H, Lq, Dv] with row-major strides, the populated output passes the
    layout test of vector mode and that of full mode. *)
Theorem output_passes_layout_tests d sc causal inputs out o l b h lo dv :
  run d sc causal inputs out = Ok (o, l) ->
  shape out = [b; h; lo; dv] ->
  strides out = row_major [b; h; lo; dv] ->
  fits_int (dv * h) = true ->
  fits_int64 (h * dv * lo) = true ->
  (forall q, ~ In (CopySharedBuffer out q) l) ->
  is_contiguous_or_head_seq_transposed o = Ok true /\
  is_matrix_contiguous o = Ok true.
Proof.
  intros Hrun Hshape Hstrides F1 F2 Hnd.
  assert (S0 : shape_at out 0 = Ok b) by (unfold shape_at, ndim; now rewrite Hshape).
  assert (S1 : shape_at out 1 = Ok h) by (unfold shape_at, ndim; now rewrite Hshape).
  assert (S2 : shape_at out 2 = Ok lo) by (unfold shape_at, ndim; now rewrite Hshape).
  assert (S3 : shape_at out 3 = Ok dv) by (unfold shape_at, ndim; now rewrite Hshape).
  apply run_encoded in Hrun
    as (q_pre & k_pre & v_pre & lq & _ & _ & _ & _ & He).
  destruct (lq <=? 8).
  - destruct He as [q k v eq ek ev out_evs launch_evs cq ck cv devc tp
                      Nq Nk Nv Ho Hd Hr Hl ->].
    destruct Ho as [Hdon | n Hno Hl1 | n lo' h_o dv' h_q st1 st2
                                       Hno Hl2 Hne Hho Hdv' Hfit A1 A2 Hhq].
    + exfalso. apply (Hnd q). rewrite !in_app_iff. cbn [In]. tauto.
    + split.
      * reflexivity.
      * unfold is_matrix_contiguous, strides_at, ndim.
        cbn [set_data strides shape]. rewrite Hstrides, Hshape. reflexivity.
    + rewrite S2 in Hl2. injection Hl2 as <-.
      rewrite S1 in Hho. injection Hho as <-.
      rewrite S3 in Hdv'. injection Hdv' as <-.
      rewrite Hstrides in A1.
      cbn in A1. injection A1 as <-. cbn in A2. injection A2 as <-.
      split.
      * apply (head_seq_transposed_ok out b h lo dv); auto; lia.
      * unfold is_matrix_contiguous, strides_at, ndim.
        cbn [set_data_strided strides shape]. rewrite Hshape. reflexivity.
  - destruct He as [q k v eq ek ev em launch_evs cq ck cv cm mask n bo ho lo' dv'
                      Nq Nk Nv Ho0 Ho1 Ho2 Ho3 G1 G2 G3 Ho Hm Hlen Hl ->].
    rewrite S0 in Ho0. injection Ho0 as <-.
    rewrite S1 in Ho1. injection Ho1 as <-.
    rewrite S2 in Ho2. injection Ho2 as <-.
    rewrite S3 in Ho3. injection Ho3 as <-.
    subst o. split.
    + apply (head_seq_transposed_ok out b h lo dv); auto; lia.
    + unfold is_matrix_contiguous, strides_at, ndim.
      cbn [set_data_strided strides shape]. rewrite Hshape. reflexivity.
Qed.

Lemma output_passes_layout_tests_witness :
  exists o l,
    run Examples.small_device 0 true Examples.prefill_inputs
        Examples.prefill_output = Ok (o, l) /\
    is_contiguous_or_head_seq_transposed o = Ok true /\
    is_matrix_contiguous o = Ok true.
Proof.
  eexists _, _. split.
  - vm_compute. reflexivity.
  - eapply (output_passes_layout_tests Examples.small_device 0 true
             Examples.prefill_inputs Examples.prefill_output _ _
             2 8 50 128).
    + vm_compute. reflexivity.
    + reflexivity.
    + reflexivity.
    + reflexivity.
    + reflexivity.
    + intros q H. cbv [In] in H.
      repeat (destruct H as [H | H]; [discriminate H|]). exact H.
Defined.

(** X23.  Whatever the strategy, the last launch of an evaluation is the
    one that writes the output, at slot 3, and nothing else. *)
Theorem output_written_last d sc causal inputs out o l :
  run d sc causal inputs out = Ok (o, l) ->
  exists before L,
    launches l = before ++ [L] /\
    outputs_of L = [(3, o)].
Proof.
  intros Hrun.
  apply run_encoded in Hrun
    as (q_pre & k_pre & v_pre & lq & _ & _ & _ & _ & He).
  destruct (lq <=? 8).
  - destruct He as [q k v eq ek ev out_evs launch_evs cq ck cv devc tp
                      Nq Nk Nv Ho Hd Hr Hl ->].
    quiet_facts. unfold launches. skip_quiet.
    destruct tp; destruct Hl;
      match goal with
      | Hme : vector_mask_events _ _ _ |- _ => destruct Hme
      end.
    + eexists [_], _. split; reflexivity.
    + eexists [_], _. split; reflexivity.
    + eexists [], _. split; reflexivity.
    + eexists [], _. split; reflexivity.
  - destruct He as [q k v eq ek ev em launch_evs cq ck cv cm mask n bo ho lo dv
                      Nq Nk Nv Ho0 Ho1 Ho2 Ho3 F1 F2 F3 Ho Hm Hlen Hl ->].
    quiet_facts. unfold launches. skip_quiet.
    destruct Hl;
      match goal with
      | Hme : full_mask_events _ _ |- _ => destruct Hme
      end;
      eexists [], _; split; reflexivity.
Qed.

Lemma output_written_last_witness :
  exists o l L,
    run Examples.small_device 0 false Examples.decode_inputs
        Examples.decode_output = Ok (o, l) /\
    launches l = [L] /\
    outputs_of L = [(3, o)].
Proof.
  eexists _, _.
  destruct (output_written_last Examples.small_device 0 false
              Examples.decode_inputs Examples.decode_output _ _
              ltac:(vm_compute; reflexivity)) as (before & L & HL & Ho).
  exists L. split; [vm_compute; reflexivity|]. split; [|exact Ho].
  rewrite HL.
  assert (Hlen : List.length (before ++ [L]) = 1%nat).
  { rewrite <- HL. vm_compute. reflexivity. }
  rewrite length_app in Hlen. cbn in Hlen.
  destruct before; [reflexivity | cbn in Hlen; lia].
Defined.


(** ** Kernel names *)

Import Names.

Lemma after_last_digit_free l :
  existsb is_digit l = false -> after_last_digit l = l.
Proof.
  destruct l as [|c t]; [reflexivity|]. cbn [existsb after_last_digit].
  intros H. apply orb_false_elim in H as [Hc Ht]. now rewrite Ht, Hc.
Qed.

Lemma after_last_digit_app p s :
  existsb is_digit s = false ->
  after_last_digit (p ++ s) = after_last_digit p ++ s.
Proof.
  intros Hs. induction p as [|c p IH].
  - now apply after_last_digit_free.
  - cbn [app after_last_digit]. rewrite existsb_app, Hs, orb_false_r.
    destruct (existsb is_digit p); [exact IH|].
    destruct (is_digit c); reflexivity.
Qed.

Lemma after_last_digit_end p d :
  is_digit d = true -> after_last_digit (p ++ [d]) = [].
Proof.
  intros Hd. induction p as [|c p IH].
  - cbn. now rewrite Hd.
  - cbn [app after_last_digit]. rewrite existsb_app. cbn [existsb].
    rewrite Hd. cbn [orb]. rewrite orb_true_r. exact IH.
Qed.

Lemma uint_digits u :
  forallb is_digit
    (list_ascii_of_string (DecimalString.NilEmpty.string_of_uint u)) = true.
Proof. induction u; cbn; auto. Qed.

(** A number is printed with a digit at its end. *)
Lemma decimal_end n : exists p d, decimal n = p ++ [d] /\ is_digit d = true.
Proof.
  assert (Hu : forall u,
            exists p d,
              list_ascii_of_string (DecimalString.NilZero.string_of_uint u)
              = p ++ [d] /\ is_digit d = true).
  { intros u.
    assert (Hne : list_ascii_of_string
                    (DecimalString.NilZero.string_of_uint u) <> []).
    { destruct u; cbn; discriminate. }
    assert (Hall : forallb is_digit
                     (list_ascii_of_string
                        (DecimalString.NilZero.string_of_uint u)) = true).
    { destruct u; first [reflexivity | cbn; apply uint_digits]. }
    destruct (exists_last Hne) as (p & d & E). exists p, d.
    split; [exact E|]. rewrite E, forallb_app in Hall.
    apply andb_prop in Hall as [_ Hd]. cbn in Hd.
    now rewrite andb_true_r in Hd. }
  unfold decimal. destruct (Z.to_int n) as [u|u]; cbn.
  - apply Hu.
  - destruct (Hu u) as (p & d & E & Hd). exists ("-"%char :: p), d.
    rewrite E. auto.
Qed.

Lemma render_app tn' ts l1 l2 :
  render tn' ts (l1 ++ l2) = render tn' ts l1 ++ render tn' ts l2.
Proof. apply flat_map_app. Qed.

(** A rendered name that ends in a number ends in a digit. *)
Lemma render_number_end tn' ts prefix n :
  exists p d,
    render tn' ts (prefix ++ [to_string n]) = p ++ [d] /\ is_digit d = true.
Proof.
  destruct (decimal_end n) as (p & d & E & Hd).
  exists (render tn' ts prefix ++ p), d.
  rewrite render_app. cbn. rewrite app_nil_r, E, app_assoc. auto.
Qed.


Lemma tn_inj a b : tn a = tn b -> a = b.
Proof. destruct a, b; cbn; intros H; congruence. Qed.

Lemma vector_letters_free hm qt :
  existsb is_digit (vector_letters hm qt) = false.
Proof. destruct hm, qt; reflexivity. Qed.

Lemma vector_letters_inj hm qt hm' qt' :
  vector_letters hm qt = vector_letters hm' qt' -> hm = hm' /\ qt = qt'.
Proof.
  destruct hm, qt, hm', qt'; cbn; intros H; try discriminate H; auto.
Qed.

Lemma vector_letters_length hm qt :
  (1 <= List.length (vector_letters hm qt) <= 11)%nat.
Proof. destruct hm, qt; cbn; lia. Qed.

Lemma tiled_letters_free aq ak hm c :
  existsb is_digit (tiled_letters aq ak hm c) = false.
Proof. destruct aq, ak, hm, c; reflexivity. Qed.

Lemma tiled_letters_length aq ak hm c :
  List.length (tiled_letters aq ak hm c) = 43%nat.
Proof. reflexivity. Qed.

Lemma tiled_letters_inj aq ak hm c aq' ak' hm' c' :
  tiled_letters aq ak hm c = tiled_letters aq' ak' hm' c' ->
  aq = aq' /\ ak = ak' /\ hm = hm' /\ c = c'.
Proof.
  intros H.
  pose proof (f_equal (fun l => nth 9 l " "%char) H) as H1.
  pose proof (f_equal (fun l => nth 19 l " "%char) H) as H2.
  pose proof (f_equal (fun l => nth 30 l " "%char) H) as H3.
  pose proof (f_equal (fun l => nth 42 l " "%char) H) as H4.
  cbn in H1, H2, H3, H4. auto using tn_inj.
Qed.

Lemma app_same_length {A} (p1 p2 s1 s2 : list A) :
  p1 ++ s1 = p2 ++ s2 -> List.length s1 = List.length s2 ->
  p1 = p2 /\ s1 = s2.
Proof.
  intros H Hl.
  assert (Hp : List.length p1 = List.length p2).
  { apply (f_equal (@List.length A)) in H. rewrite !length_app in H. lia. }
  revert p2 H Hp. induction p1 as [|a p1 IH]; intros [|b p2] H Hp;
    cbn in *; try discriminate; auto.
  injection H as -> H. destruct (IH p2 H) as [-> ->]; auto.
Qed.

(** The cache key of a kernel and what it stands for. *)
Lemma vector_key tn' ts prefix dv (hm qt : bool) :
  render tn' ts
    ((prefix ++ [to_string dv])
     ++ [ lit (if hm then "_mask" else "_nomask");
          lit (if qt then "_qt" else "_qnt") ])
  = render tn' ts (prefix ++ [to_string dv]) ++ vector_letters hm qt.
Proof.
  rewrite render_app. unfold vector_letters. cbn. now rewrite app_nil_r.
Qed.

Lemma tiled_key tn' ts base (aq ak hm c : bool) :
  render tn' ts
    (base ++ [ lit "_align_Q_"; chr (tn aq); lit "_align_K_"; chr (tn ak);
               lit "_has_mask_"; chr (tn hm); lit "_do_causal_"; chr (tn c) ])
  = render tn' ts base ++ tiled_letters aq ak hm c.
Proof. rewrite render_app. reflexivity. Qed.

Lemma vector_key_tail tn' ts prefix dv hm qt :
  after_last_digit
    (render tn' ts (prefix ++ [to_string dv]) ++ vector_letters hm qt)
  = vector_letters hm qt.
Proof.
  destruct (render_number_end tn' ts prefix dv) as (p & d & -> & Hd).
  rewrite after_last_digit_app by apply vector_letters_free.
  now rewrite after_last_digit_end.
Qed.

Lemma number_key_tail tn' ts prefix dv :
  after_last_digit (render tn' ts (prefix ++ [to_string dv])) = [].
Proof.
  destruct (render_number_end tn' ts prefix dv) as (p & d & -> & Hd).
  now apply after_last_digit_end.
Qed.

Lemma tiled_key_tail tn' ts base aq ak hm c :
  (43 <= List.length
           (after_last_digit
              (render tn' ts base ++ tiled_letters aq ak hm c)))%nat.
Proof.
  rewrite after_last_digit_app by apply tiled_letters_free.
  rewrite length_app, tiled_letters_length. lia.
Qed.

Lemma requested_key_determines tn' ts k1 k2 :
  requested k1 -> requested k2 ->
  render tn' ts (hash_name_of k1) = render tn' ts (hash_name_of k2) ->
  render tn' ts (base_name_of k1) = render tn' ts (base_name_of k2) /\
  function_constants k1 = function_constants k2.
Proof.
  intros [p1 dv1 hm1 qt1 | p1 dv1 | b1 aq1 ak1 hm1 c1]
         [p2 dv2 hm2 qt2 | p2 dv2 | b2 aq2 ak2 hm2 c2];
    cbn [hash_name_of base_name_of function_constants];
    rewrite ?vector_key, ?tiled_key; intros H;
    pose proof (f_equal after_last_digit H) as Ht;
    rewrite ?vector_key_tail, ?number_key_tail in Ht.
  - apply vector_letters_inj in Ht as [-> ->].
    apply app_inv_tail in H. auto.
  - pose proof (vector_letters_length hm1 qt1). rewrite Ht in *.
    cbn in *. lia.
  - pose proof (vector_letters_length hm1 qt1).
    pose proof (tiled_key_tail tn' ts b2 aq2 ak2 hm2 c2).
    rewrite <- Ht in *. lia.
  - pose proof (vector_letters_length hm2 qt2). rewrite <- Ht in *.
    cbn in *. lia.
  - auto.
  - pose proof (tiled_key_tail tn' ts b2 aq2 ak2 hm2 c2).
    rewrite <- Ht in *. cbn in *. lia.
  - pose proof (vector_letters_length hm2 qt2).
    pose proof (tiled_key_tail tn' ts b1 aq1 ak1 hm1 c1).
    rewrite Ht in *. lia.
  - pose proof (tiled_key_tail tn' ts b1 aq1 ak1 hm1 c1).
    rewrite Ht in *. cbn in *. lia.
  - apply app_same_length in H as [Hb Hs];
      [| now rewrite !tiled_letters_length].
    apply tiled_letters_inj in Hs as (-> & -> & -> & ->). auto.
Qed.

Lemma quiet_no_pipeline l k : quiet l -> ~ In (SetComputePipelineState k) l.
Proof.
  unfold quiet. intros Q H'. rewrite forallb_forall in Q.
  specialize (Q _ H'). discriminate.
Qed.

Lemma vector_mask_no_pipeline slot mask evs k :
  vector_mask_events slot mask evs -> ~ In (SetComputePipelineState k) evs.
Proof. intros [] H'; cbn in H'; intuition discriminate. Qed.

Lemma full_mask_no_pipeline mask evs k :
  full_mask_events mask evs -> ~ In (SetComputePipelineState k) evs.
Proof. intros [] H'; cbn in H'; intuition discriminate. Qed.

Ltac pipeline_cases H :=
  cbn [In] in H; rewrite ?in_app_iff in H; cbn [In] in H;
  repeat match type of H with
  | _ \/ _ => destruct H as [H | H]
  end;
  try discriminate H; try contradiction.

Lemma vector_encoded_requested q k v out sc mask evs kernel :
  vector_encoded q k v out sc mask evs ->
  In (SetComputePipelineState kernel) evs -> requested kernel.
Proof.
  intros [] H'.
  match goal with
  | Hme : vector_mask_events _ _ _ |- _ =>
      pose proof (vector_mask_no_pipeline _ _ _ kernel Hme)
  end.
  pipeline_cases H'. injection H' as <-.
  apply (vector_kernel
           [ lit "sdpa_vector_"; get_type_string (dtype q);
             lit "_"; to_string dq; lit "_" ]
           dv (has_value mask) (negb (row_contiguous (flags q)))).
Qed.

Lemma two_pass_encoded_requested q k v out sc mask evs kernel :
  two_pass_encoded q k v out sc mask evs ->
  In (SetComputePipelineState kernel) evs -> requested kernel.
Proof.
  intros [] H'.
  match goal with
  | Hme : vector_mask_events _ _ _ |- _ =>
      pose proof (vector_mask_no_pipeline _ _ _ kernel Hme)
  end.
  pipeline_cases H'.
  - injection H' as <-.
    apply (vector_kernel
             [ lit "sdpa_vector_2pass_1_"; get_type_string (dtype q);
               lit "_"; to_string dq; lit "_" ]
             dv (has_value mask) (negb (row_contiguous (flags q)))).
  - injection H' as <-.
    apply (second_pass_kernel
             [ lit "sdpa_vector_2pass_2_"; get_type_string (dtype q);
               lit "_" ] dv).
Qed.

Lemma full_encoded_requested q k v o sc causal mask evs kernel :
  full_encoded q k v o sc causal mask evs ->
  In (SetComputePipelineState kernel) evs -> requested kernel.
Proof.
  intros [] H'.
  match goal with
  | Hme : full_mask_events _ _ |- _ =>
      pose proof (full_mask_no_pipeline _ _ kernel Hme)
  end.
  pipeline_cases H'. injection H' as <-.
  apply (tiled_kernel (full_base_name q bd mask)).
Qed.

(** Every kernel an evaluation makes current is one of the three kinds. *)
Lemma run_requested d sc causal inputs out o l kernel :
  run d sc causal inputs out = Ok (o, l) ->
  In (SetComputePipelineState kernel) l ->
  requested kernel.
Proof.
  intros Hrun Hin.
  apply run_encoded in Hrun
    as (q_pre & k_pre & v_pre & lq & _ & _ & _ & _ & He).
  destruct (lq <=? 8).
  - destruct He as [q k v eq ek ev out_evs launch_evs cq ck cv devc tp
                      Nq Nk Nv Ho Hd Hr Hl ->].
    quiet_facts. rewrite !in_app_iff in Hin. cbn [In] in Hin.
    repeat match goal with
    | Q : quiet _ |- _ => apply (quiet_no_pipeline _ kernel) in Q
    end.
    destruct Hin as [Hin | [Hin | [Hin | [Hin | [Hin | [Hin | []]]]]]];
      try contradiction; try discriminate.
    destruct tp.
    + eapply two_pass_encoded_requested; eassumption.
    + eapply vector_encoded_requested; eassumption.
  - destruct He as [q k v eq ek ev em launch_evs cq ck cv cm mask n bo ho lo dv
                      Nq Nk Nv Ho0 Ho1 Ho2 Ho3 F1 F2 F3 Ho Hm Hlen Hl ->].
    quiet_facts. rewrite !in_app_iff in Hin. cbn [In] in Hin.
    repeat match goal with
    | Q : quiet _ |- _ => apply (quiet_no_pipeline _ kernel) in Q
    end.
    destruct Hin as [Hin | [Hin | [Hin | [[Hin | [Hin | []]]
                    | [Hin | [Hin | [Hin | []]]]]]]];
      try contradiction; try discriminate.
    eapply full_encoded_requested; eassumption.
Qed.

(** X24.  The device caches kernels by hash name.  Two kernels made
    current by any two evaluations under the same hash name, read as a
    string, have the same base name and the same function constants: the
    hash name determines the specialisation, whatever strings the element
    types are printed as. *)
Theorem hash_name_determines_kernel
        (type_name type_string : Dtype -> string)
        d1 sc1 causal1 inputs1 out1 o1 l1 kernel1
        d2 sc2 causal2 inputs2 out2 o2 l2 kernel2 :
  run d1 sc1 causal1 inputs1 out1 = Ok (o1, l1) ->
  run d2 sc2 causal2 inputs2 out2 = Ok (o2, l2) ->
  In (SetComputePipelineState kernel1) l1 ->
  In (SetComputePipelineState kernel2) l2 ->
  render type_name type_string (hash_name_of kernel1)
  = render type_name type_string (hash_name_of kernel2) ->
  render type_name type_string (base_name_of kernel1)
  = render type_name type_string (base_name_of kernel2) /\
  function_constants kernel1 = function_constants kernel2.
Proof.
  intros Hrun1 Hrun2 Hin1 Hin2 Hkey.
  apply (requested_key_determines type_name type_string kernel1 kernel2).
  - exact (run_requested _ _ _ _ _ _ _ _ Hrun1 Hin1).
  - exact (run_requested _ _ _ _ _ _ _ _ Hrun2 Hin2).
  - exact Hkey.
Qed.

Lemma hash_name_determines_kernel_witness :
  exists o1 l1 o2 l2 kernel1 kernel2,
    run Examples.small_device 0 false Examples.decode_inputs
        Examples.decode_output = Ok (o1, l1) /\
    run Examples.small_device 0 true (Examples.inputs_of_length 8)
        (Examples.output_of_length 8) = Ok (o2, l2) /\
    first_kernel l1 = Some kernel1 /\
    first_kernel l2 = Some kernel2 /\
    function_constants kernel1 = function_constants kernel2.
Proof.
  destruct (hash_name_determines_kernel
              (fun _ => "float16"%string) (fun _ => "float16"%string)
              Examples.small_device 0 false Examples.decode_inputs
              Examples.decode_output _ _ _
              Examples.small_device 0 true (Examples.inputs_of_length 8)
              (Examples.output_of_length 8) _ _ _
              ltac:(vm_compute; reflexivity) ltac:(vm_compute; reflexivity)
              ltac:(in_list) ltac:(in_list)
              ltac:(vm_compute; reflexivity)) as [_ H].
  eexists _, _, _, _, _, _.
  split; [vm_compute; reflexivity|].
  split; [vm_compute; reflexivity|].
  split; [vm_compute; reflexivity|].
  split; [vm_compute; reflexivity|].
  exact H.
Defined.

(** ** What the kernels may rely on *)

Lemma row_major_last sh :
  sh <> [] -> nth_error (row_major sh) (List.length sh - 1) = Some 1.
Proof.
  induction sh as [|x rest IH]; [congruence|]. intros _.
  destruct rest as [|y rest]; [reflexivity|].
  specialize (IH ltac:(discriminate)).
  change (row_major (x :: y :: rest))
    with (fold_right Z.mul 1 (y :: rest) :: row_major (y :: rest)).
  replace (List.length (x :: y :: rest) - 1)%nat
    with (S (List.length (y :: rest) - 1)) by (cbn [List.length]; lia).
  exact IH.
Qed.

Lemma strides_at_last_defined a s :
  strides_at a (-1) = Ok s -> 1 <= ndim a.
Proof.
  unfold strides_at, vec_at, lookup. cbn [Z.ltb Z.compare].
  destruct (0 <=? -1 + ndim a) eqn:E; [|discriminate].
  apply Z.leb_le in E. lia.
Qed.

Lemma general_copy_matrix_contiguous a n b :
  is_matrix_contiguous a = Ok b ->
  is_matrix_contiguous (general_copy a n) = Ok true.
Proof.
  unfold is_matrix_contiguous. intros H.
  apply rbind_inv in H as (s & Hs & _).
  apply strides_at_last_defined in Hs.
  unfold strides_at, vec_at, lookup, general_copy, ndim, zlength in *.
  cbn [strides shape set_data new_array Z.ltb Z.compare].
  rewrite row_major_length.
  assert (Hne : shape a <> []).
  { intros E. rewrite E in Hs. cbn in Hs. lia. }
  assert (E1 : (0 <=? -1 + Z.of_nat (List.length (shape a))) = true)
    by (apply Z.leb_le; lia).
  assert (E2 : (-1 + Z.of_nat (List.length (shape a))
                <? Z.of_nat (List.length (shape a))) = true)
    by (apply Z.ltb_lt; lia).
  rewrite E1, E2. cbn [andb].
  replace (Z.to_nat (-1 + Z.of_nat (List.length (shape a))))
    with (List.length (shape a) - 1)%nat by lia.
  rewrite (row_major_last _ Hne). reflexivity.
Qed.

Lemma normalized_matrix_contiguous a a' evs cs :
  normalized is_matrix_contiguous a a' evs cs ->
  is_matrix_contiguous a' = Ok true.
Proof.
  intros [Hp | n Hp]; [assumption|].
  eapply general_copy_matrix_contiguous; eassumption.
Qed.

Lemma normalized_head_seq a a' evs cs :
  normalized is_contiguous_or_head_seq_transposed a a' evs cs ->
  is_contiguous_or_head_seq_transposed a' = Ok true.
Proof. intros [Hp | n Hp]; [assumption | reflexivity]. Qed.

(** X25.  Whatever layout the caller's operands have, the arrays the first
    kernel finds at slots 0, 1 and 2 pass the layout test of the mode: the
    keys and values have a unit innermost stride; the query has one in full
    mode and is row-contiguous or head/sequence-transposed in vector mode;
    and in full mode so has the mask at slot 6. *)
Theorem bound_operands_pass_tests d sc causal inputs out o l q_pre lq :
  run d sc causal inputs out = Ok (o, l) ->
  vec_index inputs 0 = Ok q_pre ->
  shape_at q_pre 2 = Ok lq ->
  exists q k v,
    input_array 0 l = Some q /\
    input_array 1 l = Some k /\
    input_array 2 l = Some v /\
    (if lq <=? 8 then is_contiguous_or_head_seq_transposed q
     else is_matrix_contiguous q) = Ok true /\
    is_matrix_contiguous k = Ok true /\
    is_matrix_contiguous v = Ok true /\
    (lq > 8 ->
     forall m_pre, lookup inputs 3 = Some m_pre ->
       exists m, input_array 6 l = Some m /\ is_matrix_contiguous m = Ok true).
Proof.
  intros Hrun Hq Hlq.
  apply run_encoded in Hrun
    as (q0 & k_pre & v_pre & lq0 & Hq0 & _ & _ & Hlq0 & He).
  rewrite Hq in Hq0. injection Hq0 as <-.
  rewrite Hlq in Hlq0. injection Hlq0 as <-.
  destruct (lq <=? 8) eqn:Emode.
  - apply Z.leb_le in Emode.
    destruct He as [q k v eq ek ev out_evs launch_evs cq ck cv devc tp
                      Nq Nk Nv Ho Hd Hr Hl ->].
    exists q, k, v. quiet_facts. skip_quiet.
    pose proof (normalized_head_seq _ _ _ _ Nq).
    pose proof (normalized_matrix_contiguous _ _ _ _ Nk).
    pose proof (normalized_matrix_contiguous _ _ _ _ Nv).
    destruct tp; destruct Hl;
      repeat (split; [first [reflexivity | assumption]|]); intros; lia.
  - apply Z.leb_gt in Emode.
    destruct He as [q k v eq ek ev em launch_evs cq ck cv cm mask n bo ho lo dv
                      Nq Nk Nv Ho0 Ho1 Ho2 Ho3 F1 F2 F3 Ho Hm Hlen Hl ->].
    exists q, k, v. quiet_facts.
    pose proof (normalized_matrix_contiguous _ _ _ _ Nq).
    pose proof (normalized_matrix_contiguous _ _ _ _ Nk).
    pose proof (normalized_matrix_contiguous _ _ _ _ Nv).
    assert (Hmask : forall m_pre, lookup inputs 3 = Some m_pre ->
              exists m, mask = Some m /\ is_matrix_contiguous m = Ok true).
    { intros m_pre Hm_pre. rewrite Hm_pre in Hm.
      destruct Hm as (m & -> & Nm). exists m. split; [reflexivity|].
      eapply normalized_matrix_contiguous; eassumption. }
    skip_quiet.
    destruct Hl as [bd b h d0 ql kl hk qs ks vs os mask_evs
                      _ _ _ _ _ _ _ _ _ _ _ _ _ _ Hme].
    repeat (split; [first [reflexivity | assumption]|]).
    intros _ m_pre Hm_pre.
    destruct (Hmask m_pre Hm_pre) as (m & -> & Hmc).
    exists m. split; [|assumption].
    inversion Hme; subst. reflexivity.
Qed.

Lemma bound_operands_pass_tests_witness :
  exists o l q,
    run Examples.small_device 0 false Scenarios.strided_query_inputs
        Scenarios.strided_query_output = Ok (o, l) /\
    is_contiguous_or_head_seq_transposed (Examples.transposed [1; 2; 2; 64] 0)
    = Ok false /\
    input_array 0 l = Some q /\
    is_contiguous_or_head_seq_transposed q = Ok true.
Proof.
  eexists _, _.
  destruct (bound_operands_pass_tests Examples.small_device 0 false
              Scenarios.strided_query_inputs Scenarios.strided_query_output
              _ _ (Examples.transposed [1; 2; 2; 64] 0) 2
              ltac:(vm_compute; reflexivity) ltac:(reflexivity)
              ltac:(reflexivity))
    as (q & k & v & Hq & _ & _ & Hp & _).
  exists q. split; [vm_compute; reflexivity|].
  split; [vm_compute; reflexivity|]. split; [exact Hq | exact Hp].
Defined.
